(** * Trazzanet: the batch compliance audit engine

    A shallow embedding of the decision logic of the repository, and
    the properties of it that the specification states.

    - [Contract]: the Solidity contract [AvocadoTraceContract]
      (thresholds, lot registration, stage updates, [evaluateBatch]).
      A [uint256] is an [N] and the arithmetic is checked, a revert
      being [None]; the mapping of the lots is a [gmap] read with the
      all-zero default; the events emitted are logged in the state.
    - [Float]: the binary64 arithmetic the JavaScript code computes
      with, on the rationals.
    - [Unicode]: the strings of JavaScript as sequences of code
      points, with the white space [trim] removes and the upper-case
      mapping of [toUpperCase].
    - [Classifier]: the CSV quality classifier of [POST /api/upload]
      in [server.js], from the text of the file to the stored
      [calidadFruta].
    - [Dashboard]: [determineBatchStatus] and [processData] of the
      history dashboard script.
    - [Scenario]: the concrete lots and files of the examples.
    - [Ledger]: the public functions of the contract as calls, and
      sequences of them.
    - [Csv], [Server]: the status column of a file, and the store,
      the upload, the history, the summary and the trace of
      [server.js].
    - [Analysis], [Charting]: the averages, the defect ranking and the
      chart data of the dashboard script.

    The modules whose name ends in [Theory] or [Facts] hold the
    proofs. *)

From Stdlib Require Import ZArith NArith QArith Qabs Qround String Ascii List.
From Stdlib Require Import Lia Lqa Bool Sorted Permutation.
From stdpp Require Import gmap strings.
Import ListNotations.

(** * The contract *)

Module Contract.

Local Open Scope string_scope.
Local Open Scope N_scope.

(** ** uint256 and checked arithmetic

    The pragma is [^0.8.0]: every [+], [-], [*] and [/] on [uint256] is
    checked, and an overflow, an underflow or a division by zero reverts
    the whole transaction.  A reverted call is [None]. *)

Definition MAX_UINT256 : N := 2 ^ 256 - 1.

Definition checked_mul (a b : N) : option N :=
  if a * b <=? MAX_UINT256 then Some (a * b) else None.

Definition checked_sub (a b : N) : option N :=
  if b <=? a then Some (a - b) else None.

Definition checked_div (a b : N) : option N :=
  if b =? 0 then None else Some (a / b).

Definition require (c : bool) : option unit :=
  if c then Some tt else None.

(** Sequencing is stdpp's bind of the option monad, [x ← c; k]: a
    revert anywhere reverts the call. *)

(** ** Storage *)

Definition address := N.

Record AuditResult := mkAuditResult {
  isCompliant : bool;
  reason : string;
  timestamp : N
}.

Record BatchData := mkBatchData {
  loteId : string;
  variety : string;
  registeredBy : address;
  initialWeight : N;
  finalWeightReceived : N;
  avgTemperature : N;
  audit : AuditResult
}.

Inductive Event :=
| ThresholdsUpdated (by_ : address) (maxTemp maxWeightDev minDryMatter : N)
| BatchRegistered (lote : string) (registrador : address)
| BatchAuditCompleted (lote : string) (compliant : bool) (why : string)
| AssetTransfer (lote : string) (from to : address) (amountUSD : N).

(** The contract's storage, and the log of the events emitted so far
    (newest first). *)
Record State := mkState {
  owner : address;
  MAX_TEMP_TRANSPORT_C : N;
  MAX_WEIGHT_DEVIATION_PCT : N;
  MIN_DRY_MATTER_PCT : N;
  batches : gmap string BatchData;
  events : list Event
}.

Record Env := mkEnv {
  msg_sender : address;
  block_timestamp : N
}.

(** A Solidity mapping is total: a key never written reads as the
    all-zero struct. *)
Definition zeroBatch : BatchData :=
  mkBatchData "" "" 0 0 0 0 (mkAuditResult false "" 0).

Definition batchOf (s : State) (id : string) : BatchData :=
  default zeroBatch (batches s !! id).

Definition setBatch (id : string) (b : BatchData) (s : State) : State :=
  mkState (owner s) (MAX_TEMP_TRANSPORT_C s) (MAX_WEIGHT_DEVIATION_PCT s)
          (MIN_DRY_MATTER_PCT s) (<[id := b]> (batches s)) (events s).

Definition emit (e : Event) (s : State) : State :=
  mkState (owner s) (MAX_TEMP_TRANSPORT_C s) (MAX_WEIGHT_DEVIATION_PCT s)
          (MIN_DRY_MATTER_PCT s) (batches s) (e :: events s).

Definition withAudit (b : BatchData) (a : AuditResult) : BatchData :=
  mkBatchData (loteId b) (variety b) (registeredBy b) (initialWeight b)
              (finalWeightReceived b) (avgTemperature b) a.

Definition withAvgTemperature (b : BatchData) (t : N) : BatchData :=
  mkBatchData (loteId b) (variety b) (registeredBy b) (initialWeight b)
              (finalWeightReceived b) t (audit b).

Definition withFinalWeightReceived (b : BatchData) (w : N) : BatchData :=
  mkBatchData (loteId b) (variety b) (registeredBy b) (initialWeight b)
              w (avgTemperature b) (audit b).

(** The contract tests [batches[loteId].timestamp]; the only timestamp
    a [BatchData] holds is the one of its audit. *)
Definition batchTimestamp (s : State) (id : string) : N :=
  timestamp (audit (batchOf s id)).

(** ** The reasons *)

Definition REASON_PENDING : string := "Pendiente de Auditoria".
Definition REASON_OK : string := "Lote Conforme. Cumple con todos los SC.".
Definition REASON_TEMP : string :=
  "FALLA: Temperatura promedio excedida. Umbral MAX: ".
Definition REASON_WEIGHT : string :=
  "FALLA: Desviación de peso entre etapas excedida. Lote rechazado.".
Definition REASON_DRY : string :=
  "FALLA: Materia seca final insuficiente. No apto para exportación.".

(** ** The functions *)

Definition constructor (env : Env) (initialMaxTemp initialMaxWeightDev initialMinDryMatter : N)
  : State :=
  mkState (msg_sender env) initialMaxTemp initialMaxWeightDev initialMinDryMatter ∅ [].

Definition registerBatchInitialData (env : Env) (id variety_ : string) (initialWeight_ : N)
    (s : State) : option State :=
  _ ← require (batchTimestamp s id =? 0);
  let s1 := setBatch id
     (mkBatchData id variety_ (msg_sender env) initialWeight_ 0 0
        (mkAuditResult false REASON_PENDING (block_timestamp env))) s in
  Some (emit (BatchRegistered id (msg_sender env)) s1).

Definition updateTransportData (env : Env) (id : string) (avgTemperature_ : N)
    (s : State) : option State :=
  _ ← require (negb (batchTimestamp s id =? 0));
  Some (setBatch id (withAvgTemperature (batchOf s id) avgTemperature_) s).

Definition setThresholds (env : Env) (newMaxTemp newMaxWeightDev newMinDryMatter : N)
    (s : State) : option State :=
  _ ← require (msg_sender env =? owner s);
  Some (emit (ThresholdsUpdated (msg_sender env) newMaxTemp newMaxWeightDev newMinDryMatter)
          (mkState (owner s) newMaxTemp newMaxWeightDev newMinDryMatter
                   (batches s) (events s))).

(** The three checks of [evaluateBatch], on the resolved measurements:
    the verdict and its reason, or a revert. *)
Definition auditVerdict (s : State) (avgTemp initialWeight_ finalWeight dryMatter : N)
  : option (bool * string) :=
  let compliant := true in
  let reason_ := REASON_OK in
  (* 1: temperature *)
  let '(compliant, reason_) :=
    if MAX_TEMP_TRANSPORT_C s <? avgTemp then (false, REASON_TEMP)
    else (compliant, reason_) in
  (* 2: weight deviation *)
  '(compliant, reason_) ←
    (if (0 <? initialWeight_) && (0 <? finalWeight) then
       difference ← (if finalWeight <? initialWeight_
                      then checked_sub initialWeight_ finalWeight
                      else checked_sub finalWeight initialWeight_);
       d100 ← checked_mul difference 100;
       d10000 ← checked_mul d100 100;
       weightDeviation ← checked_div d10000 initialWeight_;
       if compliant then
         limit ← checked_mul (MAX_WEIGHT_DEVIATION_PCT s) 100;
         if limit <? weightDeviation then Some (false, REASON_WEIGHT)
         else Some (compliant, reason_)
       else Some (compliant, reason_)
     else Some (compliant, reason_));
  (* 3: dry matter *)
  if compliant && (0 <? dryMatter) && (dryMatter <? MIN_DRY_MATTER_PCT s)
  then Some (false, REASON_DRY)
  else Some (compliant, reason_).

Definition evaluateBatch (env : Env) (id : string)
    (avgTemperatureC_Input finalWeightReceived_Input finalDryMatterPct_Input : N)
    (s : State) : option State :=
  let batch := batchOf s id in
  let avgTemp := if negb (avgTemperatureC_Input =? 0)
                 then avgTemperatureC_Input else avgTemperature batch in
  let initialWeight_ := initialWeight batch in
  let finalWeight := if negb (finalWeightReceived_Input =? 0)
                     then finalWeightReceived_Input else finalWeightReceived batch in
  '(compliant, reason_) ←
     auditVerdict s avgTemp initialWeight_ finalWeight finalDryMatterPct_Input;
  let s1 := setBatch id
     (withAudit batch (mkAuditResult compliant reason_ (block_timestamp env))) s in
  Some (emit (BatchAuditCompleted id compliant reason_) s1).

Definition updateReceptionData (env : Env) (id : string) (finalWeightReceived_ : N)
    (s : State) : option State :=
  _ ← require (negb (batchTimestamp s id =? 0));
  let s1 := setBatch id (withFinalWeightReceived (batchOf s id) finalWeightReceived_) s in
  evaluateBatch env id 0 finalWeightReceived_ 0 s1.

Definition transferAsset (env : Env) (id : string) (newOwner : address) (amountUSD : N)
    (s : State) : option State :=
  _ ← require (negb (batchTimestamp s id =? 0));
  Some (emit (AssetTransfer id (msg_sender env) newOwner amountUSD) s).

(** The temperature and the final weight [evaluateBatch] audits: the
    input when it is not zero, the stored value otherwise. *)
Definition resolvedTemp (s : State) (id : string) (input : N) : N :=
  if negb (input =? 0) then input else avgTemperature (batchOf s id).

Definition resolvedFinalWeight (s : State) (id : string) (input : N) : N :=
  if negb (input =? 0) then input else finalWeightReceived (batchOf s id).

Definition absDiff (a b : N) : N := if b <? a then a - b else b - a.

(** The verdict of the dry-matter check, the last one. *)
Definition dryVerdict (s : State) (dryMatter : N) : bool * string :=
  if (0 <? dryMatter) && (dryMatter <? MIN_DRY_MATTER_PCT s)
  then (false, REASON_DRY) else (true, REASON_OK).

(** The state [evaluateBatch] leaves when the verdict is [(c, r)]. *)
Definition audited (env : Env) (id : string) (c : bool) (r : string) (s : State) : State :=
  emit (BatchAuditCompleted id c r)
       (setBatch id (withAudit (batchOf s id) (mkAuditResult c r (block_timestamp env))) s).

End Contract.

(** * JavaScript numbers *)

Module Float.

Local Open Scope Z_scope.

(** A JavaScript number is a binary64 float.  Every finite float is a
    rational, so a number is modelled by the rational it denotes, and
    an arithmetic operation by the exact operation followed by [RN],
    the rounding to the nearest float with 53 significant bits, ties
    to the even significand.  The exponent range is not bounded: the
    numbers of this program are counts, percentages between 0 and 100
    and their sums, far from the subnormal and the overflow ranges. *)

(** [ilog2 a b] is the integer part of the base-2 logarithm of [a/b]. *)
Definition ilog2 (a b : positive) : Z :=
  let d := Z.log2 (Zpos a) - Z.log2 (Zpos b) in
  if (if 0 <=? d then Zpos b * 2 ^ d <=? Zpos a
      else Zpos b <=? Zpos a * 2 ^ (- d))
  then d else d - 1.

(** [a/b] divided by [2^e], as a numerator and a denominator. *)
Definition scale (a b : positive) (e : Z) : Z * Z :=
  if 0 <=? e then (Zpos a, Zpos b * 2 ^ e) else (Zpos a * 2 ^ (- e), Zpos b).

(** The integer nearest to [n/d], the even one of the two on a tie. *)
Definition roundNearestEven (n d : Z) : Z :=
  let q := n / d in
  let r := n mod d in
  if 2 * r <? d then q
  else if d <? 2 * r then q + 1
  else if Z.even q then q else q + 1.

(** [m * 2^e] as a rational in lowest terms. *)
Definition ldexp (m e : Z) : Q :=
  Qred (if 0 <=? e then Qmake (m * 2 ^ e) 1 else Qmake m (Z.to_pos (2 ^ (- e)))).

Definition roundPos (a b : positive) : Q :=
  let e := ilog2 a b - 52 in
  let '(n, d) := scale a b e in
  ldexp (roundNearestEven n d) e.

Definition RN (x : Q) : Q :=
  match Qnum x with
  | Z0 => 0%Q
  | Zpos a => roundPos a (Qden x)
  | Zneg a => Qopp (roundPos a (Qden x))
  end.

(** The unit roundoff of binary64. *)
Definition u : Q := 1 # (2 ^ 53).

(** The comparison [x > y] of two numbers. *)
Definition gt (x y : Q) : bool := negb (Qle_bool x y).

Definition fadd (x y : Q) : Q := RN (x + y).
Definition fmul (x y : Q) : Q := RN (x * y).
Definition fdiv (x y : Q) : Q := RN (x / y).

(** [Number.prototype.toFixed(f)] (for a number below 10^21): the
    integer [n] for which [n / 10^f - x] is as close to zero as
    possible, the larger one if there are two; a negative [x] is
    formatted as the opposite of [-x].  The result is the decimal
    numeral of [n / 10^f]; it is represented by [n]. *)
Definition toFixedPos (f : nat) (x : Q) : Z :=
  Qfloor (x * inject_Z (10 ^ Z.of_nat f) + (1 # 2))%Q.

Definition toFixed (f : nat) (x : Q) : Z :=
  if Qle_bool 0 x then toFixedPos f x else - toFixedPos f (Qopp x).

(** [parseFloat] of the numeral [toFixed] printed: the float nearest
    to [n / 10^f]. *)
Definition parseFixed (f : nat) (n : Z) : Q :=
  RN (inject_Z n / inject_Z (10 ^ Z.of_nat f)).

End Float.

(** * JavaScript strings *)

Module Unicode.

Local Open Scope N_scope.

(** A string is the sequence of its code points: the text of a file
    is what [readFileSync(path, 'utf8')] decodes, a byte order mark
    included.  The operations of the classifier ([trim],
    [toUpperCase], [split], [join], the comparison with a literal)
    are those of [String.prototype] on such a sequence. *)
Definition Text : Type := list N.

(** The literals of the code are ASCII: a string of Rocq read as the
    text of its characters. *)
Definition text (s : string) : Text := map N_of_ascii (list_ascii_of_string s).

Coercion text : string >-> Text.

Definition texts (l : list string) : list Text := map text l.

(** [a === b] *)
Fixpoint eqb (a b : Text) : bool :=
  match a, b with
  | [], [] => true
  | x :: a', y :: b' => (x =? y) && eqb a' b'
  | _, _ => false
  end.

(** What [trim] removes: the WhiteSpace and LineTerminator code points
    of ECMAScript, that is TAB, LF, VT, FF, CR, the space, the
    no-break space, the other space separators (category Zs), the
    line and paragraph separators and the byte order mark. *)
Definition whiteSpace : list N :=
  [0x9; 0xA; 0xB; 0xC; 0xD; 0x20; 0xA0; 0x1680; 0x2000;
   0x2001; 0x2002; 0x2003; 0x2004; 0x2005; 0x2006; 0x2007; 0x2008; 0x2009;
   0x200A; 0x2028; 0x2029; 0x202F; 0x205F; 0x3000; 0xFEFF].

(** What [toUpperCase] maps: the default case conversion of Unicode
    (version 14), which knows no locale.  [specialCasing] holds the
    code points whose upper case is more than one code point (the
    unconditional mappings of SpecialCasing.txt: the sharp s, the
    ligatures, the Greek letters with iota subscript, ...). *)
Definition specialCasing : list (N * list N) :=
  [
   (0xDF, [0x53; 0x53]); (0x149, [0x2BC; 0x4E]); (0x1F0, [0x4A; 0x30C]);
   (0x390, [0x399; 0x308; 0x301]); (0x3B0, [0x3A5; 0x308; 0x301]);
   (0x587, [0x535; 0x552]); (0x1E96, [0x48; 0x331]); (0x1E97, [0x54; 0x308]);
   (0x1E98, [0x57; 0x30A]); (0x1E99, [0x59; 0x30A]); (0x1E9A, [0x41; 0x2BE]);
   (0x1F50, [0x3A5; 0x313]); (0x1F52, [0x3A5; 0x313; 0x300]);
   (0x1F54, [0x3A5; 0x313; 0x301]); (0x1F56, [0x3A5; 0x313; 0x342]);
   (0x1F80, [0x1F08; 0x399]); (0x1F81, [0x1F09; 0x399]);
   (0x1F82, [0x1F0A; 0x399]); (0x1F83, [0x1F0B; 0x399]);
   (0x1F84, [0x1F0C; 0x399]); (0x1F85, [0x1F0D; 0x399]);
   (0x1F86, [0x1F0E; 0x399]); (0x1F87, [0x1F0F; 0x399]);
   (0x1F88, [0x1F08; 0x399]); (0x1F89, [0x1F09; 0x399]);
   (0x1F8A, [0x1F0A; 0x399]); (0x1F8B, [0x1F0B; 0x399]);
   (0x1F8C, [0x1F0C; 0x399]); (0x1F8D, [0x1F0D; 0x399]);
   (0x1F8E, [0x1F0E; 0x399]); (0x1F8F, [0x1F0F; 0x399]);
   (0x1F90, [0x1F28; 0x399]); (0x1F91, [0x1F29; 0x399]);
   (0x1F92, [0x1F2A; 0x399]); (0x1F93, [0x1F2B; 0x399]);
   (0x1F94, [0x1F2C; 0x399]); (0x1F95, [0x1F2D; 0x399]);
   (0x1F96, [0x1F2E; 0x399]); (0x1F97, [0x1F2F; 0x399]);
   (0x1F98, [0x1F28; 0x399]); (0x1F99, [0x1F29; 0x399]);
   (0x1F9A, [0x1F2A; 0x399]); (0x1F9B, [0x1F2B; 0x399]);
   (0x1F9C, [0x1F2C; 0x399]); (0x1F9D, [0x1F2D; 0x399]);
   (0x1F9E, [0x1F2E; 0x399]); (0x1F9F, [0x1F2F; 0x399]);
   (0x1FA0, [0x1F68; 0x399]); (0x1FA1, [0x1F69; 0x399]);
   (0x1FA2, [0x1F6A; 0x399]); (0x1FA3, [0x1F6B; 0x399]);
   (0x1FA4, [0x1F6C; 0x399]); (0x1FA5, [0x1F6D; 0x399]);
   (0x1FA6, [0x1F6E; 0x399]); (0x1FA7, [0x1F6F; 0x399]);
   (0x1FA8, [0x1F68; 0x399]); (0x1FA9, [0x1F69; 0x399]);
   (0x1FAA, [0x1F6A; 0x399]); (0x1FAB, [0x1F6B; 0x399]);
   (0x1FAC, [0x1F6C; 0x399]); (0x1FAD, [0x1F6D; 0x399]);
   (0x1FAE, [0x1F6E; 0x399]); (0x1FAF, [0x1F6F; 0x399]);
   (0x1FB2, [0x1FBA; 0x399]); (0x1FB3, [0x391; 0x399]);
   (0x1FB4, [0x386; 0x399]); (0x1FB6, [0x391; 0x342]);
   (0x1FB7, [0x391; 0x342; 0x399]); (0x1FBC, [0x391; 0x399]);
   (0x1FC2, [0x1FCA; 0x399]); (0x1FC3, [0x397; 0x399]);
   (0x1FC4, [0x389; 0x399]); (0x1FC6, [0x397; 0x342]);
   (0x1FC7, [0x397; 0x342; 0x399]); (0x1FCC, [0x397; 0x399]);
   (0x1FD2, [0x399; 0x308; 0x300]); (0x1FD3, [0x399; 0x308; 0x301]);
   (0x1FD6, [0x399; 0x342]); (0x1FD7, [0x399; 0x308; 0x342]);
   (0x1FE2, [0x3A5; 0x308; 0x300]); (0x1FE3, [0x3A5; 0x308; 0x301]);
   (0x1FE4, [0x3A1; 0x313]); (0x1FE6, [0x3A5; 0x342]);
   (0x1FE7, [0x3A5; 0x308; 0x342]); (0x1FF2, [0x1FFA; 0x399]);
   (0x1FF3, [0x3A9; 0x399]); (0x1FF4, [0x38F; 0x399]);
   (0x1FF6, [0x3A9; 0x342]); (0x1FF7, [0x3A9; 0x342; 0x399]);
   (0x1FFC, [0x3A9; 0x399]); (0xFB00, [0x46; 0x46]); (0xFB01, [0x46; 0x49]);
   (0xFB02, [0x46; 0x4C]); (0xFB03, [0x46; 0x46; 0x49]);
   (0xFB04, [0x46; 0x46; 0x4C]); (0xFB05, [0x53; 0x54]);
   (0xFB06, [0x53; 0x54]); (0xFB13, [0x544; 0x546]);
   (0xFB14, [0x544; 0x535]); (0xFB15, [0x544; 0x53B]);
   (0xFB16, [0x54E; 0x546]); (0xFB17, [0x544; 0x53D])
  ].

(** The code points whose upper case is one other code point
    (UnicodeData.txt), in runs: of the code points [first],
    [first + step], ..., [last], the upper case is the image of
    [first] moved by as much. *)
Definition simpleUppercase : list (N * N * N * N) :=
  [
   (0x61, 0x7A, 1, 0x41); (0xB5, 0xB5, 1, 0x39C); (0xE0, 0xF6, 1, 0xC0);
   (0xF8, 0xFE, 1, 0xD8); (0xFF, 0xFF, 1, 0x178); (0x101, 0x12F, 2, 0x100);
   (0x131, 0x131, 1, 0x49); (0x133, 0x137, 2, 0x132);
   (0x13A, 0x148, 2, 0x139); (0x14B, 0x177, 2, 0x14A);
   (0x17A, 0x17E, 2, 0x179); (0x17F, 0x17F, 1, 0x53);
   (0x180, 0x180, 1, 0x243); (0x183, 0x185, 2, 0x182);
   (0x188, 0x188, 1, 0x187); (0x18C, 0x18C, 1, 0x18B);
   (0x192, 0x192, 1, 0x191); (0x195, 0x195, 1, 0x1F6);
   (0x199, 0x199, 1, 0x198); (0x19A, 0x19A, 1, 0x23D);
   (0x19E, 0x19E, 1, 0x220); (0x1A1, 0x1A5, 2, 0x1A0);
   (0x1A8, 0x1A8, 1, 0x1A7); (0x1AD, 0x1AD, 1, 0x1AC);
   (0x1B0, 0x1B0, 1, 0x1AF); (0x1B4, 0x1B6, 2, 0x1B3);
   (0x1B9, 0x1B9, 1, 0x1B8); (0x1BD, 0x1BD, 1, 0x1BC);
   (0x1BF, 0x1BF, 1, 0x1F7); (0x1C5, 0x1C5, 1, 0x1C4);
   (0x1C6, 0x1C6, 1, 0x1C4); (0x1C8, 0x1C8, 1, 0x1C7);
   (0x1C9, 0x1C9, 1, 0x1C7); (0x1CB, 0x1CB, 1, 0x1CA);
   (0x1CC, 0x1CC, 1, 0x1CA); (0x1CE, 0x1DC, 2, 0x1CD);
   (0x1DD, 0x1DD, 1, 0x18E); (0x1DF, 0x1EF, 2, 0x1DE);
   (0x1F2, 0x1F2, 1, 0x1F1); (0x1F3, 0x1F3, 1, 0x1F1);
   (0x1F5, 0x1F5, 1, 0x1F4); (0x1F9, 0x21F, 2, 0x1F8);
   (0x223, 0x233, 2, 0x222); (0x23C, 0x23C, 1, 0x23B);
   (0x23F, 0x240, 1, 0x2C7E); (0x242, 0x242, 1, 0x241);
   (0x247, 0x24F, 2, 0x246); (0x250, 0x250, 1, 0x2C6F);
   (0x251, 0x251, 1, 0x2C6D); (0x252, 0x252, 1, 0x2C70);
   (0x253, 0x253, 1, 0x181); (0x254, 0x254, 1, 0x186);
   (0x256, 0x257, 1, 0x189); (0x259, 0x259, 1, 0x18F);
   (0x25B, 0x25B, 1, 0x190); (0x25C, 0x25C, 1, 0xA7AB);
   (0x260, 0x260, 1, 0x193); (0x261, 0x261, 1, 0xA7AC);
   (0x263, 0x263, 1, 0x194); (0x265, 0x265, 1, 0xA78D);
   (0x266, 0x266, 1, 0xA7AA); (0x268, 0x268, 1, 0x197);
   (0x269, 0x269, 1, 0x196); (0x26A, 0x26A, 1, 0xA7AE);
   (0x26B, 0x26B, 1, 0x2C62); (0x26C, 0x26C, 1, 0xA7AD);
   (0x26F, 0x26F, 1, 0x19C); (0x271, 0x271, 1, 0x2C6E);
   (0x272, 0x272, 1, 0x19D); (0x275, 0x275, 1, 0x19F);
   (0x27D, 0x27D, 1, 0x2C64); (0x280, 0x280, 1, 0x1A6);
   (0x282, 0x282, 1, 0xA7C5); (0x283, 0x283, 1, 0x1A9);
   (0x287, 0x287, 1, 0xA7B1); (0x288, 0x288, 1, 0x1AE);
   (0x289, 0x289, 1, 0x244); (0x28A, 0x28B, 1, 0x1B1);
   (0x28C, 0x28C, 1, 0x245); (0x292, 0x292, 1, 0x1B7);
   (0x29D, 0x29D, 1, 0xA7B2); (0x29E, 0x29E, 1, 0xA7B0);
   (0x345, 0x345, 1, 0x399); (0x371, 0x373, 2, 0x370);
   (0x377, 0x377, 1, 0x376); (0x37B, 0x37D, 1, 0x3FD);
   (0x3AC, 0x3AC, 1, 0x386); (0x3AD, 0x3AF, 1, 0x388);
   (0x3B1, 0x3C1, 1, 0x391); (0x3C2, 0x3C2, 1, 0x3A3);
   (0x3C3, 0x3CB, 1, 0x3A3); (0x3CC, 0x3CC, 1, 0x38C);
   (0x3CD, 0x3CE, 1, 0x38E); (0x3D0, 0x3D0, 1, 0x392);
   (0x3D1, 0x3D1, 1, 0x398); (0x3D5, 0x3D5, 1, 0x3A6);
   (0x3D6, 0x3D6, 1, 0x3A0); (0x3D7, 0x3D7, 1, 0x3CF);
   (0x3D9, 0x3EF, 2, 0x3D8); (0x3F0, 0x3F0, 1, 0x39A);
   (0x3F1, 0x3F1, 1, 0x3A1); (0x3F2, 0x3F2, 1, 0x3F9);
   (0x3F3, 0x3F3, 1, 0x37F); (0x3F5, 0x3F5, 1, 0x395);
   (0x3F8, 0x3F8, 1, 0x3F7); (0x3FB, 0x3FB, 1, 0x3FA);
   (0x430, 0x44F, 1, 0x410); (0x450, 0x45F, 1, 0x400);
   (0x461, 0x481, 2, 0x460); (0x48B, 0x4BF, 2, 0x48A);
   (0x4C2, 0x4CE, 2, 0x4C1); (0x4CF, 0x4CF, 1, 0x4C0);
   (0x4D1, 0x52F, 2, 0x4D0); (0x561, 0x586, 1, 0x531);
   (0x10D0, 0x10FA, 1, 0x1C90); (0x10FD, 0x10FF, 1, 0x1CBD);
   (0x13F8, 0x13FD, 1, 0x13F0); (0x1C80, 0x1C80, 1, 0x412);
   (0x1C81, 0x1C81, 1, 0x414); (0x1C82, 0x1C82, 1, 0x41E);
   (0x1C83, 0x1C84, 1, 0x421); (0x1C85, 0x1C85, 1, 0x422);
   (0x1C86, 0x1C86, 1, 0x42A); (0x1C87, 0x1C87, 1, 0x462);
   (0x1C88, 0x1C88, 1, 0xA64A); (0x1D79, 0x1D79, 1, 0xA77D);
   (0x1D7D, 0x1D7D, 1, 0x2C63); (0x1D8E, 0x1D8E, 1, 0xA7C6);
   (0x1E01, 0x1E95, 2, 0x1E00); (0x1E9B, 0x1E9B, 1, 0x1E60);
   (0x1EA1, 0x1EFF, 2, 0x1EA0); (0x1F00, 0x1F07, 1, 0x1F08);
   (0x1F10, 0x1F15, 1, 0x1F18); (0x1F20, 0x1F27, 1, 0x1F28);
   (0x1F30, 0x1F37, 1, 0x1F38); (0x1F40, 0x1F45, 1, 0x1F48);
   (0x1F51, 0x1F57, 2, 0x1F59); (0x1F60, 0x1F67, 1, 0x1F68);
   (0x1F70, 0x1F71, 1, 0x1FBA); (0x1F72, 0x1F75, 1, 0x1FC8);
   (0x1F76, 0x1F77, 1, 0x1FDA); (0x1F78, 0x1F79, 1, 0x1FF8);
   (0x1F7A, 0x1F7B, 1, 0x1FEA); (0x1F7C, 0x1F7D, 1, 0x1FFA);
   (0x1FB0, 0x1FB1, 1, 0x1FB8); (0x1FBE, 0x1FBE, 1, 0x399);
   (0x1FD0, 0x1FD1, 1, 0x1FD8); (0x1FE0, 0x1FE1, 1, 0x1FE8);
   (0x1FE5, 0x1FE5, 1, 0x1FEC); (0x214E, 0x214E, 1, 0x2132);
   (0x2170, 0x217F, 1, 0x2160); (0x2184, 0x2184, 1, 0x2183);
   (0x24D0, 0x24E9, 1, 0x24B6); (0x2C30, 0x2C5F, 1, 0x2C00);
   (0x2C61, 0x2C61, 1, 0x2C60); (0x2C65, 0x2C65, 1, 0x23A);
   (0x2C66, 0x2C66, 1, 0x23E); (0x2C68, 0x2C6C, 2, 0x2C67);
   (0x2C73, 0x2C73, 1, 0x2C72); (0x2C76, 0x2C76, 1, 0x2C75);
   (0x2C81, 0x2CE3, 2, 0x2C80); (0x2CEC, 0x2CEE, 2, 0x2CEB);
   (0x2CF3, 0x2CF3, 1, 0x2CF2); (0x2D00, 0x2D25, 1, 0x10A0);
   (0x2D27, 0x2D27, 1, 0x10C7); (0x2D2D, 0x2D2D, 1, 0x10CD);
   (0xA641, 0xA66D, 2, 0xA640); (0xA681, 0xA69B, 2, 0xA680);
   (0xA723, 0xA72F, 2, 0xA722); (0xA733, 0xA76F, 2, 0xA732);
   (0xA77A, 0xA77C, 2, 0xA779); (0xA77F, 0xA787, 2, 0xA77E);
   (0xA78C, 0xA78C, 1, 0xA78B); (0xA791, 0xA793, 2, 0xA790);
   (0xA794, 0xA794, 1, 0xA7C4); (0xA797, 0xA7A9, 2, 0xA796);
   (0xA7B5, 0xA7C3, 2, 0xA7B4); (0xA7C8, 0xA7CA, 2, 0xA7C7);
   (0xA7D1, 0xA7D1, 1, 0xA7D0); (0xA7D7, 0xA7D9, 2, 0xA7D6);
   (0xA7F6, 0xA7F6, 1, 0xA7F5); (0xAB53, 0xAB53, 1, 0xA7B3);
   (0xAB70, 0xABBF, 1, 0x13A0); (0xFF41, 0xFF5A, 1, 0xFF21);
   (0x10428, 0x1044F, 1, 0x10400); (0x104D8, 0x104FB, 1, 0x104B0);
   (0x10597, 0x105BB, 2, 0x10570); (0x10598, 0x105A0, 2, 0x10571);
   (0x105A4, 0x105B0, 2, 0x1057D); (0x105B4, 0x105B8, 2, 0x1058D);
   (0x105BC, 0x105BC, 1, 0x10595); (0x10CC0, 0x10CF2, 1, 0x10C80);
   (0x118C0, 0x118DF, 1, 0x118A0); (0x16E60, 0x16E7F, 1, 0x16E40);
   (0x1E922, 0x1E943, 1, 0x1E900)
  ].

End Unicode.

(** * The quality classifier of [POST /api/upload] *)

Module Classifier.

Import Float Unicode.
Local Open Scope string_scope.
Local Open Scope Z_scope.

(** ** Strings

    The file is read as text, a sequence of code points ([Text]). *)

Definition isSpace (c : N) : bool := existsb (N.eqb c) whiteSpace.

(** [c] is of a run of [simpleUppercase]. *)
Definition inRun (c : N) (run : N * N * N * N) : bool :=
  let '(first, last, step, _) := run in
  ((first <=? c) && (c <=? last) && ((c - first) mod step =? 0))%N.

(** The upper case of a code point; its own when it has none. *)
Definition upperChar (c : N) : Text :=
  match List.find (inRun c) simpleUppercase with
  | Some (first, _, _, image) => [(image + (c - first))%N]
  | None =>
      match List.find (fun e => (fst e =? c)%N) specialCasing with
      | Some e => snd e
      | None => [c]
      end
  end.

Definition toUpperCase (s : Text) : Text := flat_map upperChar s.

Fixpoint trimStart (s : Text) : Text :=
  match s with
  | [] => []
  | c :: r => if isSpace c then trimStart r else s
  end.

Fixpoint trimEnd (s : Text) : Text :=
  match s with
  | [] => []
  | c :: r =>
      match trimEnd r with
      | [] => if isSpace c then [] else [c]
      | r' => c :: r'
      end
  end.

Definition trim (s : Text) : Text := trimEnd (trimStart s).

(** [s.split(sep)] for a one-character separator: never empty. *)
Fixpoint split (sep : N) (s : Text) : list Text :=
  match s with
  | [] => [[]]
  | c :: r =>
      if (c =? sep)%N then [] :: split sep r
      else match split sep r with
           | [] => [[c]]
           | h :: t => (c :: h) :: t
           end
  end.

(** [a.join('')] *)
Definition join (a : list Text) : Text := concat a.

(** [a.findIndex(p)], [None] for -1. *)
Fixpoint findIndex {A} (p : A -> bool) (a : list A) : option nat :=
  match a with
  | [] => None
  | x :: r => if p x then Some 0%nat else option_map S (findIndex p r)
  end.

Definition comma : N := 44.
Definition newline : N := 10.

(** ** The counters *)

Record Counters := mkCounters {
  totalFrutas : Z;
  frutasConformes : Z;
  frutasConHallazgos : Z;
  frutasNoAdmitidas : Z
}.

Definition noCounts : Counters := mkCounters 0 0 0 0.

(** The [if]/[else if] chain on the normalised status. *)
Definition countStatus (status : Text) (c : Counters) : Counters :=
  if eqb status "OK" || eqb status "CONFORME" then
    mkCounters (totalFrutas c) (frutasConformes c + 1) (frutasConHallazgos c) (frutasNoAdmitidas c)
  else if eqb status "ALERTA" || eqb status "HALLAZGO" then
    mkCounters (totalFrutas c) (frutasConformes c) (frutasConHallazgos c + 1) (frutasNoAdmitidas c)
  else if eqb status "DESCARTE" || eqb status "NO_ADMITIDA"
          || eqb status "RECHAZADO" then
    mkCounters (totalFrutas c) (frutasConformes c) (frutasConHallazgos c) (frutasNoAdmitidas c + 1)
  else
    mkCounters (totalFrutas c) (frutasConformes c + 1) (frutasConHallazgos c) (frutasNoAdmitidas c).

Definition rowValues (line : Text) : list Text := map trim (split comma line).

(** The test that guards the body of the loop. *)
Definition hasEnoughColumns (headers values : list Text) : bool :=
  (length headers <=? length values)%nat && (0 <? length (join values))%nat.

(** The status read from a row: [None] is the [TypeError] of calling
    [trim] on [undefined]. *)
Definition rowStatus (statusIndex : option nat) (values : list Text) : option Text :=
  match statusIndex with
  | Some i => v ← nth_error values i; Some (toUpperCase (trim v))
  | None => Some (text "OK")
  end.

(** One iteration of the [for] loop. *)
Definition countRow (headers : list Text) (statusIndex : option nat)
    (c : Counters) (line : Text) : option Counters :=
  let values := rowValues line in
  if hasEnoughColumns headers values then
    let c1 := mkCounters (totalFrutas c + 1) (frutasConformes c)
                         (frutasConHallazgos c) (frutasNoAdmitidas c) in
    status ← rowStatus statusIndex values;
    Some (countStatus status c1)
  else Some c.

Fixpoint countRows (headers : list Text) (statusIndex : option nat)
    (c : Counters) (rows : list Text) : option Counters :=
  match rows with
  | [] => Some c
  | line :: rest =>
      c1 ← countRow headers statusIndex c line;
      countRows headers statusIndex c1 rest
  end.

Definition csvLines (csvContent : Text) : list Text :=
  List.filter (fun line => negb (eqb (trim line) "")) (split newline csvContent).

Definition csvHeaders (line : Text) : list Text := map trim (split comma line).

Definition csvStatusIndex (headers : list Text) : option nat :=
  findIndex (fun h => eqb (toUpperCase h) "CALIDAD_STATUS") headers.

(** The counters when the loop is left. *)
Definition countCsv (csvContent : Text) : option Counters :=
  match csvLines csvContent with
  | header :: ((_ :: _) as rows) =>
      let headers := csvHeaders header in
      countRows headers (csvStatusIndex headers) noCounts rows
  | _ => Some noCounts
  end.

(** "Si no se encontraron datos, usar valores por defecto" *)
Definition defaultIfEmpty (c : Counters) : Counters :=
  if totalFrutas c =? 0
  then mkCounters 1 1 (frutasConHallazgos c) (frutasNoAdmitidas c)
  else c.

(** The counters the record is built from.  [None] as the content is a
    file that cannot be read; that exception, like one raised while
    the rows are counted, is caught and the defaults are used. *)
Definition countUpload (file : option Text) : Counters :=
  match csvContent ← file; countCsv csvContent with
  | Some c => defaultIfEmpty c
  | None => mkCounters 1 1 0 0
  end.

(** ** The stored record *)

(** [parseFloat((count / total * 100).toFixed(2))] *)
Definition percentage (count total : Z) : Q :=
  parseFixed 2 (toFixed 2 (fmul (fdiv (inject_Z count) (inject_Z total)) 100)).

Record Defecto := mkDefecto {
  nombre : string;
  cantidad : Z;
  severidad : string;
  porcentaje : Q
}.

Record CalidadFruta := mkCalidadFruta {
  total : Z;
  conformes : Z;
  hallazgosMenores : Z;
  noAdmitidas : Z;
  porcentajeNoAdmitida : Q;
  porcentajeConformes : Q;
  porcentajeHallazgos : Q;
  defectos : list Defecto
}.

(** The defects are pushed at the end of the [try] block: none is
    there when the block was left by an exception. *)
Definition defectosOf (file : option Text) (c : Counters) : list Defecto :=
  match csvContent ← file; countCsv csvContent with
  | Some _ =>
     ((if 0 <? frutasNoAdmitidas c
       then [mkDefecto "Fruta No Admitida" (frutasNoAdmitidas c) "No Admitida"
                       (percentage (frutasNoAdmitidas c) (totalFrutas c))]
       else [])
      ++
      (if 0 <? frutasConHallazgos c
       then [mkDefecto "Fruta con Alerta" (frutasConHallazgos c) "Hallazgo"
                       (percentage (frutasConHallazgos c) (totalFrutas c))]
       else []))%list
  | None => []
  end.

Definition calidadFruta (file : option Text) : CalidadFruta :=
  let c := countUpload file in
  mkCalidadFruta
    (totalFrutas c) (frutasConformes c) (frutasConHallazgos c) (frutasNoAdmitidas c)
    (percentage (frutasNoAdmitidas c) (totalFrutas c))
    (percentage (frutasConformes c) (totalFrutas c))
    (percentage (frutasConHallazgos c) (totalFrutas c))
    (defectosOf file c).

(** ** The classification, in the words of the specification *)

Inductive Category := Conformant | MinorFinding | NotAdmitted.

Definition categoryOf (normalized : Text) : Category :=
  if bool_decide (normalized ∈ texts ["ALERTA"; "HALLAZGO"]) then MinorFinding
  else if bool_decide (normalized ∈ texts ["DESCARTE"; "NO_ADMITIDA"; "RECHAZADO"])
  then NotAdmitted
  else Conformant.

Definition Category_eqb (a b : Category) : bool :=
  match a, b with
  | Conformant, Conformant | MinorFinding, MinorFinding | NotAdmitted, NotAdmitted => true
  | _, _ => false
  end.

(** The units of a file: the normalised status of every data row the
    loop counts. *)
Definition unitsOfRows (headers : list Text) (statusIndex : option nat)
    (rows : list Text) : list Text :=
  omap (fun line =>
          let values := rowValues line in
          if hasEnoughColumns headers values
          then rowStatus statusIndex values
          else None) rows.

Definition unitsOf (csvContent : Text) : list Text :=
  match csvLines csvContent with
  | header :: ((_ :: _) as rows) =>
      let headers := csvHeaders header in
      unitsOfRows headers (csvStatusIndex headers) rows
  | _ => []
  end.

Definition unitsOfFile (file : option Text) : list Text :=
  match file with Some csvContent => unitsOf csvContent | None => [] end.

(** One more unit of a category. *)
Definition addUnit (k : Category) (c : Counters) : Counters :=
  match k with
  | Conformant =>
      mkCounters (totalFrutas c) (frutasConformes c + 1) (frutasConHallazgos c) (frutasNoAdmitidas c)
  | MinorFinding =>
      mkCounters (totalFrutas c) (frutasConformes c) (frutasConHallazgos c + 1) (frutasNoAdmitidas c)
  | NotAdmitted =>
      mkCounters (totalFrutas c) (frutasConformes c) (frutasConHallazgos c) (frutasNoAdmitidas c + 1)
  end.

Definition countCategory (k : Category) (units : list Text) : Z :=
  Z.of_nat (length (List.filter (fun u => Category_eqb (categoryOf u) k) units)).

End Classifier.

(** * The history dashboard *)

Module Dashboard.

Import Float.
Local Open Scope string_scope.
Local Open Scope Z_scope.

(** A record of the history, as [POST /api/upload] stores it.  [date]
    is the instant [new Date(record.date)] denotes, in milliseconds
    since the epoch; [simResult] is the verdict the simulation screen
    may have attached. *)
Record HistoryRecord := mkHistoryRecord {
  fileName : string;
  date : Z;
  processedBy : string;
  simResult : option string;
  calidadFruta : option Classifier.CalidadFruta
}.

Inductive BatchStatus := Conforme | Hallazgo | Descarte | Pendiente.

Definition determineBatchStatus (record : HistoryRecord) : BatchStatus :=
  match calidadFruta record with
  | None => Pendiente
  | Some q =>
      let porcentajeNoAdmitida := Classifier.porcentajeNoAdmitida q in
      let porcentajeHallazgos := Classifier.porcentajeHallazgos q in
      if gt porcentajeNoAdmitida 15 then Descarte
      else if gt porcentajeHallazgos 0 || gt porcentajeNoAdmitida 0
      then Hallazgo
      else Conforme
  end.

(** ** Dates

    The runtime's [Date]: the civil date of a day number (days since
    1970-01-01) in the proleptic Gregorian calendar. *)
Definition civilFromDays (days : Z) : Z * Z * Z :=
  let z := days + 719468 in
  let era := z / 146097 in
  let doe := z - era * 146097 in
  let yoe := (doe - doe / 1460 + doe / 36524 - doe / 146096) / 365 in
  let doy := doe - (365 * yoe + yoe / 4 - yoe / 100) in
  let mp := (5 * doy + 2) / 153 in
  let d := doy - (153 * mp + 2) / 5 + 1 in
  let m := if mp <? 10 then mp + 3 else mp - 9 in
  let y := yoe + era * 400 + (if m <=? 2 then 1 else 0) in
  (y, m, d).

Definition msPerDay : Z := 86400000.

Section Zone.

(** The offset of the browser's time zone from UTC at an instant, in
    milliseconds. *)
Variable zoneOffset : Z -> Z.

(** The calendar day (year, month, day) of an instant, in local time. *)
Definition calendarDay (t : Z) : Z * Z * Z :=
  civilFromDays ((t + zoneOffset t) / msPerDay).

(** [date.toLocaleDateString('es-ES', { day: 'numeric', month: 'short' })]
    prints the day of the month and the abbreviated Spanish name of
    the month, and nothing of the year: the label is represented by
    the pair (day, month) it spells. *)
Definition DayKey : Type := Z * Z.

Definition dayKey (t : Z) : DayKey :=
  let '(_, m, d) := calendarDay t in (d, m).

(** The key of a record: the label of [new Date(record.date)]. *)
Definition keyOf (record : HistoryRecord) : DayKey := dayKey (date record).

(** ** [processData] *)

(** [kpis.conformidad] is the number 0 or the text [toFixed(1)] made:
    [Fixed n] is the decimal numeral of [n / 10]. *)
Inductive Conformidad := Number (q : Q) | Fixed (n : Z).

Record Kpis := mkKpis {
  conformidad : Conformidad;
  rechazados : Z;
  tiempo : string;
  completadas : Z
}.

(** The labels of the trend chart and its values; a value is the
    numeral [toFixed(1)] printed, in tenths. *)
Record Trend := mkTrend { trendLabels : list DayKey; trendData : list Z }.

Record Breakdown := mkBreakdown { breakdownLabels : list string; breakdownData : list Z }.

Record Charts := mkCharts { trend : Trend; breakdown : Breakdown }.

Record Processed := mkProcessed { kpis : Kpis; charts : Charts }.

Record StatusCounts := mkStatusCounts {
  nConforme : Z; nHallazgo : Z; nDescarte : Z; nPendiente : Z
}.

Definition bumpStatus (st : BatchStatus) (c : StatusCounts) : StatusCounts :=
  match st with
  | Conforme => mkStatusCounts (nConforme c + 1) (nHallazgo c) (nDescarte c) (nPendiente c)
  | Hallazgo => mkStatusCounts (nConforme c) (nHallazgo c + 1) (nDescarte c) (nPendiente c)
  | Descarte => mkStatusCounts (nConforme c) (nHallazgo c) (nDescarte c + 1) (nPendiente c)
  | Pendiente => mkStatusCounts (nConforme c) (nHallazgo c) (nDescarte c) (nPendiente c + 1)
  end.

(** The conformity of a record: [porcentajeConformes], and 0 when the
    record has no [calidadFruta]. *)
Definition conformityOf (record : HistoryRecord) : Q :=
  match calidadFruta record with
  | Some q => Classifier.porcentajeConformes q
  | None => 0
  end.

(** The state of the first [forEach]. *)
Record Totals := mkTotals {
  totalConformitySum : Q;
  rejectedCount : Z;
  statusCounts : StatusCounts
}.

Definition totalsStep (acc : Totals) (record : HistoryRecord) : Totals :=
  let status := determineBatchStatus record in
  mkTotals (fadd (totalConformitySum acc) (conformityOf record))
           (match status with Descarte => rejectedCount acc + 1 | _ => rejectedCount acc end)
           (bumpStatus status (statusCounts acc)).

(** [[...filteredData].sort((a, b) => new Date(a.date) - new Date(b.date))]:
    the sort of an array is stable, so it is the insertion sort that
    puts a record before the records of the same date that followed
    it. *)
Fixpoint insertByDate (r : HistoryRecord) (l : list HistoryRecord) : list HistoryRecord :=
  match l with
  | [] => [r]
  | x :: rest => if date r <=? date x then r :: l else x :: insertByDate r rest
  end.

Definition sortByDate (l : list HistoryRecord) : list HistoryRecord :=
  fold_right insertByDate [] l.

(** A [Map] keeps its keys in the order of their insertion: an
    association list, a new key added at its end. *)
Definition TrendMap : Type := list (DayKey * (Q * Z)).

Definition DayKey_eqb (a b : DayKey) : bool :=
  (fst a =? fst b) && (snd a =? snd b).

Fixpoint mapHas (k : DayKey) (m : TrendMap) : bool :=
  match m with
  | [] => false
  | (k', _) :: rest => DayKey_eqb k' k || mapHas k rest
  end.

Fixpoint mapGet (k : DayKey) (m : TrendMap) : option (Q * Z) :=
  match m with
  | [] => None
  | (k', v) :: rest => if DayKey_eqb k' k then Some v else mapGet k rest
  end.

(** [entry.sum += val; entry.count++] on the entry of [k], in place. *)
Fixpoint bumpEntry (k : DayKey) (val : Q) (m : TrendMap) : TrendMap :=
  match m with
  | [] => []
  | (k', (sum, count)) :: rest =>
      if DayKey_eqb k' k then (k', (fadd sum val, count + 1)) :: rest
      else (k', (sum, count)) :: bumpEntry k val rest
  end.

Definition trendStep (m : TrendMap) (record : HistoryRecord) : TrendMap :=
  let key := keyOf record in
  let m1 := if mapHas key m then m else (m ++ [(key, (0%Q, 0))])%list in
  bumpEntry key (conformityOf record) m1.

Definition trendMapSorted (filteredData : list HistoryRecord) : TrendMap :=
  fold_left trendStep (sortByDate filteredData) [].

Definition processData (data : list HistoryRecord) (filter : string) : Processed :=
  let filteredData := data in
  let totalAudits := Z.of_nat (length filteredData) in
  if totalAudits =? 0 then
    mkProcessed (mkKpis (Number 0) 0 "N/A" 0)
                (mkCharts (mkTrend [] []) (mkBreakdown [] []))
  else
    let acc := fold_left totalsStep filteredData
                 (mkTotals 0 0 (mkStatusCounts 0 0 0 0)) in
    let avgConformity :=
      Fixed (toFixed 1 (fdiv (totalConformitySum acc) (inject_Z totalAudits))) in
    let m := trendMapSorted filteredData in
    let finalTrendLabels := map fst m in
    let finalTrendData :=
      map (fun v => toFixed 1 (fdiv (fst v) (inject_Z (snd v)))) (map snd m) in
    mkProcessed
      (mkKpis avgConformity (rejectedCount acc) "N/A" totalAudits)
      (mkCharts (mkTrend finalTrendLabels finalTrendData)
                (mkBreakdown ["Descarte"; "Hallazgo"; "Conforme"]
                   [nDescarte (statusCounts acc); nHallazgo (statusCounts acc);
                    nConforme (statusCounts acc)])).

(** ** Notions for the statements *)

(** The order of the sort. *)
Definition byDate (a b : HistoryRecord) : Prop := date a <= date b.

(** The keys of a map, in the order of their insertion. *)
Definition keysOf (m : TrendMap) : list DayKey := map fst m.

(** [entry.sum += val; entry.count++] *)
Definition bump (val : Q) (e : Q * Z) : Q * Z := (fadd (fst e) val, snd e + 1).

(** The records of a bucket, in the order of the list. *)
Definition bucketOf (k : DayKey) (l : list HistoryRecord) : list HistoryRecord :=
  List.filter (fun r => DayKey_eqb (keyOf r) k) l.

(** [sum += val] over a list, from 0. *)
Definition floatSum (vals : list Q) : Q := fold_left fadd vals 0%Q.

(** The distinct keys of a list, each at its first occurrence. *)
Fixpoint firstOccurrences (keys : list DayKey) : list DayKey :=
  match keys with
  | [] => []
  | k :: rest =>
      k :: List.filter (fun k' => negb (DayKey_eqb k' k)) (firstOccurrences rest)
  end.

(** ** The trend series, in the words of the specification

    The lots grouped by their calendar day, the mean conformity of
    each day, the days in ascending order. *)
Definition Day_eqb (a b : Z * Z * Z) : bool :=
  let '(y1, m1, d1) := a in
  let '(y2, m2, d2) := b in
  (y1 =? y2) && (m1 =? m2) && (d1 =? d2).

Fixpoint groupByDay (l : list HistoryRecord) : list (Z * Z * Z * list HistoryRecord) :=
  match l with
  | [] => []
  | r :: rest =>
      match groupByDay rest with
      | (day, g) :: gs =>
          if Day_eqb (calendarDay (date r)) day then (day, r :: g) :: gs
          else (calendarDay (date r), [r]) :: (day, g) :: gs
      | [] => [(calendarDay (date r), [r])]
      end
  end.

Definition meanConformity (g : list HistoryRecord) : Q :=
  fdiv (floatSum (map conformityOf g)) (inject_Z (Z.of_nat (length g))).

Definition trendByCalendarDay (data : list HistoryRecord) : list (Z * Z * Z * Z) :=
  map (fun '(day, g) => (day, toFixed 1 (meanConformity g)))
      (groupByDay (sortByDate data)).

End Zone.

End Dashboard.

(** * Scenarios *)

Module Scenario.

Import Contract.
Local Open Scope string_scope.
Local Open Scope N_scope.

(** The administrator (address 7) deploys the contract with the
    thresholds 8.00 °C, 5 % and 21 %. *)
Definition admin : Env := mkEnv 7 1000.
Definition later : Env := mkEnv 7 2000.
Definition deployed : State := constructor admin 800 5 21.

(** A sequence of transactions, the first revert ending it. *)
Fixpoint run (txs : list (State -> option State)) (s : State) : option State :=
  match txs with
  | [] => Some s
  | tx :: rest => s1 ← tx s; run rest s1
  end.

(** Lot L1 of 100 units, carried at 7.50 °C, received with [finalWeight]. *)
Definition endToEnd (finalWeight : N) : option State :=
  run [registerBatchInitialData admin "L1" "Hass" 100;
       updateTransportData admin "L1" 750;
       updateReceptionData admin "L1" finalWeight] deployed.

(** The state after the reception of 96 units. *)
Definition received : State := default deployed (endToEnd 96).

(** Lot L1 registered and nothing more. *)
Definition loneLot : State :=
  default deployed (run [registerBatchInitialData admin "L1" "Hass" 100] deployed).

(** Lots L1 and L2 registered, L2 carried at 6.00 °C. *)
Definition twoLots : State :=
  default deployed
    (run [registerBatchInitialData admin "L1" "Hass" 100;
          registerBatchInitialData admin "L2" "Fuerte" 50;
          updateTransportData admin "L2" 600] deployed).

(** ** The history *)

Definition utc (t : Z) : Z := 0%Z.

(** A file as a spreadsheet exports it: a byte order mark before the
    header, a status of each kind in mixed case and padded with
    spaces, one of them with a no-break space and the dotless i; a
    status that is not recognised, a short row, a row of empty
    values and a line that holds a no-break space only. *)
Definition sampleCsv : Unicode.Text :=
  Classifier.join
    (map (fun line => line ++ [Classifier.newline])%list
       [ (0xFEFF%N :: Unicode.text "FRUTA_ID, calidad_status, PESO");
         Unicode.text "F-1, ok ,210";
         Unicode.text "F-2,Alerta ,190";
         Unicode.text "F-3,descarte,95";
         Unicode.text "F-4,dudoso,200";
         Unicode.text "F-5,OK";
         Unicode.text ",,";
         [0xA0%N];
         Unicode.text "F-6,Conforme,205";
         (Unicode.text "F-7," ++ [0xA0%N]
          ++ Unicode.text "no_adm" ++ [0x131%N]
          ++ Unicode.text "t" ++ [0x131%N]
          ++ Unicode.text "da,180")%list ]).

(** The text of a file: its header line, and every row after a line
    feed. *)
Definition fileOf (header : Unicode.Text) (rows : list Unicode.Text) : Unicode.Text :=
  (header ++ concat (map (cons Classifier.newline) rows))%list.

(** A file of [ok] conformant fruits and [alerta] fruits with a
    finding. *)
Definition csvOf (ok alerta : nat) : Unicode.Text :=
  fileOf (Unicode.text "FRUTA_ID,CALIDAD_STATUS")
    (repeat (Unicode.text "F-1,OK") ok ++ repeat (Unicode.text "F-1,ALERTA") alerta)%list.

(** The file of one conformant fruit and two findings, its rows in
    another order. *)
Definition reordered : Unicode.Text :=
  fileOf (Unicode.text "FRUTA_ID,CALIDAD_STATUS")
    (Unicode.texts ["F-1,ALERTA"; "F-1,OK"; "F-1,ALERTA"]).

(** A file whose second column is not called CALIDAD_STATUS. *)
Definition noStatusColumn : Unicode.Text :=
  fileOf (0xFEFF%N :: Unicode.text "FRUTA_ID,ESTADO")
    (Unicode.texts ["F-1,DESCARTE"; "F-2,ALERTA"]).

(** A file of 40000 conformant fruits and one finding. *)
Definition oneIn40000 : Unicode.Text := csvOf (N.to_nat 40000) 1.

(** The record of a lot of ten fruits, [ok] of them conformant,
    uploaded at the instant [t]. *)
Definition lot (t : Z) (ok : nat) : Dashboard.HistoryRecord :=
  Dashboard.mkHistoryRecord "lote.csv" t "user-1" None
    (Some (Classifier.calidadFruta (Some (csvOf ok (10 - ok))))).

(** Noon (UTC) of 5 and 6 November 2024 and of 5 November 2025. *)
Definition nov5_2024 : Z := 1730808000000%Z.
Definition nov6_2024 : Z := 1730894400000%Z.
Definition nov5_2025 : Z := 1762344000000%Z.

(** The record of the lot of 40000 conformant fruits and one finding. *)
Definition rareFinding : Dashboard.HistoryRecord :=
  Dashboard.mkHistoryRecord "lote.csv" nov5_2024 "user-1" None
    (Some (Classifier.calidadFruta (Some oneIn40000))).

Definition yearApart : list Dashboard.HistoryRecord :=
  [lot nov5_2025 5; lot nov5_2024 10; lot nov6_2024 8].

(** Lot L1 of one unit, registered and nothing more. *)
Definition registerTiny : option State :=
  run [registerBatchInitialData admin "L1" "Hass" 1] deployed.

Definition tinyLot : State := default deployed registerTiny.

End Scenario.

(** * The contract as a ledger of calls *)

Module Ledger.

Import Contract.
Local Open Scope string_scope.
Local Open Scope N_scope.

(** The public functions of the contract, as calls. *)
Inductive Tx :=
| RegisterBatchInitialData (id variety_ : string) (initialWeight_ : N)
| UpdateTransportData (id : string) (avgTemperature_ : N)
| UpdateReceptionData (id : string) (finalWeightReceived_ : N)
| SetThresholds (newMaxTemp newMaxWeightDev newMinDryMatter : N)
| EvaluateBatch (id : string) (avgTemperatureC_Input finalWeightReceived_Input
                               finalDryMatterPct_Input : N)
| TransferAsset (id : string) (newOwner : address) (amountUSD : N).

Definition call (env : Env) (tx : Tx) (s : State) : option State :=
  match tx with
  | RegisterBatchInitialData id v w => registerBatchInitialData env id v w s
  | UpdateTransportData id t => updateTransportData env id t s
  | UpdateReceptionData id w => updateReceptionData env id w s
  | SetThresholds a b c => setThresholds env a b c s
  | EvaluateBatch id t w d => evaluateBatch env id t w d s
  | TransferAsset id o a => transferAsset env id o a s
  end.

(** The lot a call names. *)
Definition lotOf (tx : Tx) : option string :=
  match tx with
  | RegisterBatchInitialData id _ _ | UpdateTransportData id _
  | UpdateReceptionData id _ | EvaluateBatch id _ _ _ | TransferAsset id _ _ => Some id
  | SetThresholds _ _ _ => None
  end.

(** A transaction that reverts leaves the storage and the log as they
    were. *)
Definition transact (s : State) (c : Env * Tx) : State :=
  default s (call (fst c) (snd c) s).

Definition execute (calls : list (Env * Tx)) (s : State) : State :=
  fold_left transact calls s.

(** Every block has a time after the epoch. *)
Definition timed (calls : list (Env * Tx)) : Prop :=
  List.Forall (fun c => block_timestamp (fst c) <> 0) calls.

Definition thresholds (s : State) : N * N * N :=
  (MAX_TEMP_TRANSPORT_C s, MAX_WEIGHT_DEVIATION_PCT s, MIN_DRY_MATTER_PCT s).

(** Two states that a call on [lot] cannot tell apart: they have the
    same owner, the same thresholds and the same data of that lot. *)
Definition agreeOn (lot : option string) (s t : State) : Prop :=
  owner s = owner t /\ thresholds s = thresholds t /\
  match lot with
  | Some id => batchOf s id = batchOf t id
  | None => True
  end.

(** A call of [setThresholds] sent by [who]. *)
Definition setsThresholdsAs (who : address) (c : Env * Tx) : Prop :=
  match snd c with
  | SetThresholds _ _ _ => msg_sender (fst c) = who
  | _ => False
  end.

(** The audit results the contract can store. *)
Definition wellFormedAudit (a : AuditResult) : Prop :=
  (isCompliant a = true <-> reason a = REASON_OK) /\
  In (reason a) [""; REASON_PENDING; REASON_OK; REASON_TEMP; REASON_WEIGHT; REASON_DRY].

End Ledger.

(** * Notions on the files *)

Module Csv.

Import Unicode Classifier.
Local Open Scope string_scope.
Local Open Scope Z_scope.

(** The index of the status column of a file, if it has one. *)
Definition statusColumn (csvContent : Text) : option nat :=
  match csvLines csvContent with
  | header :: _ => csvStatusIndex (csvHeaders header)
  | [] => None
  end.

(** The fruits the defects of a record account for. *)
Definition defectiveFruits (q : CalidadFruta) : Z :=
  fold_right Z.add 0 (map cantidad (defectos q)).

(** A number is a percentage. *)
Definition isPercentage (x : Q) : Prop := (0 <= x /\ x <= 100)%Q.

End Csv.

(** * The server's history *)

Module Server.

Import Float.
Local Open Scope string_scope.
Local Open Scope Z_scope.

(** A record of [uploads-history.json].  [date] and [lastSimulation]
    are the instants their ISO texts denote; [simResult] and
    [lastSimulation] are absent until a simulation is stored. *)
Record UploadRecord := mkUploadRecord {
  id : string;
  fileName : string;
  savedFileName : string;
  size : Z;
  date : Z;
  status : string;
  transactionId : string;
  processedBy : string;
  filePath : string;
  calidadFruta : option Classifier.CalidadFruta;
  simResult : option string;
  lastSimulation : option Z
}.

(** The disk: the parsed content of the history file ([readHistory]
    gives the empty array for a file that is missing) and the paths
    of the files that exist. *)
Record Store := mkStore {
  history : list UploadRecord;
  files : gset string
}.

(** What a request cannot control: whether the history file can be
    written, the clock, and the values drawn for the identifier and
    the transaction hash. *)
Record Io := mkIo {
  writable : bool;
  now : Z;
  freshId : string;
  transactionHash : string
}.

(** The answer of an endpoint: its data, or the status of the error. *)
Inductive Response (A : Type) :=
| Success (data : A)
| Failure (code : Z).
Arguments Success {A} data.
Arguments Failure {A} code.

(** [saveHistory]: the store after the call, and its result. *)
Definition saveHistory (io : Io) (h : list UploadRecord) (st : Store) : Store * bool :=
  if writable io then (mkStore h (files st), true) else (st, false).

(** The file [multer] has put on the disk; [content] is the text
    [readFileSync] returns, [None] when it throws. *)
Record UploadedFile := mkUploadedFile {
  originalname : string;
  filename : string;
  fileSize : Z;
  path : string;
  content : option Unicode.Text
}.

(** [x || d] on a text that may be missing. *)
Definition orElse (x : option string) (d : string) : string :=
  match x with
  | Some s => if String.eqb s "" then d else s
  | None => d
  end.

(** [if (x)] on a text that may be missing. *)
Definition truthy (x : option string) : bool :=
  match x with
  | Some s => negb (String.eqb s "")
  | None => false
  end.

(** ** [POST /api/upload] *)

Definition uploadRecord (io : Io) (f : UploadedFile) (userId : option string) : UploadRecord :=
  mkUploadRecord (freshId io) (originalname f) (filename f) (fileSize f) (now io)
    "Completada" (transactionHash io) (orElse userId "anonymous") (path f)
    (Some (Classifier.calidadFruta (content f))) None None.

Definition upload (io : Io) (file : option UploadedFile) (userId : option string)
    (st : Store) : Response UploadRecord * Store :=
  match file with
  | None => (Failure 400, st)
  | Some f =>
      let st := mkStore (history st) ({[ path f ]} ∪ files st) in
      let record := uploadRecord io f userId in
      let '(st1, saved) := saveHistory io (history st ++ [record])%list st in
      if saved then (Success record, st1) else (Failure 500, st1)
  end.

(** ** [GET /api/history] *)

Definition ofUser (userId : option string) (h : list UploadRecord) : list UploadRecord :=
  if truthy userId
  then List.filter (fun record => String.eqb (processedBy record) (default "" userId)) h
  else h.

(** [history.sort((a, b) => new Date(b.date) - new Date(a.date))]:
    the stable sort, the most recent record first. *)
Fixpoint insertRecent (r : UploadRecord) (l : list UploadRecord) : list UploadRecord :=
  match l with
  | [] => [r]
  | x :: rest => if date x <=? date r then r :: l else x :: insertRecent r rest
  end.

Definition sortRecentFirst (l : list UploadRecord) : list UploadRecord :=
  fold_right insertRecent [] l.

Record Listing := mkListing { count : Z; data : list UploadRecord }.

Definition getHistory (userId : option string) (st : Store) : Listing :=
  let h := sortRecentFirst (ofUser userId (history st)) in
  mkListing (Z.of_nat (length h)) h.

(** ** [DELETE /api/history/:id] *)

Definition hasId (recordId : string) (record : UploadRecord) : bool :=
  String.eqb (id record) recordId.

(** [history.splice(i, 1)] *)
Definition splice1 {A} (i : nat) (l : list A) : list A := (take i l ++ drop (S i) l)%list.

(** The result of the write is not looked at: the answer is a
    success whether the history was saved or not. *)
Definition deleteHistory (io : Io) (recordId : string) (st : Store) : Response unit * Store :=
  match Classifier.findIndex (hasId recordId) (history st) with
  | None => (Failure 404, st)
  | Some recordIndex =>
      match history st !! recordIndex with
      | None => (Failure 500, st)
      | Some record =>
          let st1 :=
            if negb (String.eqb (filePath record) "") && bool_decide (filePath record ∈ files st)
            then mkStore (history st) (files st ∖ {[ filePath record ]})
            else st in
          (Success tt, fst (saveHistory io (splice1 recordIndex (history st)) st1))
      end
  end.

(** ** [POST /api/update-simulation] *)

Definition withSimulation (record : UploadRecord) (result : string) (at_ : Z) : UploadRecord :=
  mkUploadRecord (id record) (fileName record) (savedFileName record) (size record)
    (date record) (status record) (transactionId record) (processedBy record)
    (filePath record) (calidadFruta record) (Some result) (Some at_).

Definition updateSimulation (io : Io) (loteId simResult_ : option string) (st : Store)
    : Response UploadRecord * Store :=
  if negb (truthy loteId) || negb (truthy simResult_) then (Failure 400, st)
  else
    match Classifier.findIndex (hasId (default "" loteId)) (history st) with
    | None => (Failure 404, st)
    | Some recordIndex =>
        match history st !! recordIndex with
        | None => (Failure 500, st)
        | Some record =>
            let updated := withSimulation record (default "" simResult_) (now io) in
            let '(st1, saved) :=
              saveHistory io (<[recordIndex := updated]> (history st)) st in
            if saved then (Success updated, st1) else (Failure 500, st1)
        end
    end.

(** ** [GET /api/batch/:id] *)

Definition getBatch (batchId : string) (st : Store) : Response UploadRecord :=
  match List.find (hasId batchId) (history st) with
  | Some batch => Success batch
  | None => Failure 404
  end.

(** ** [GET /api/dashboard/stats] *)

Record Metricas := mkMetricas {
  temperatura : Z;
  humedad : Z;
  origenVerificado : Z
}.

Record Stats := mkStats {
  lotesActivos : Z;
  transaccionesConfirmadas : Z;
  alertasCriticas : Z;
  metricas : Metricas
}.

Definition isCriticalAlert (record : UploadRecord) : bool :=
  match calidadFruta record with
  | Some q => gt (Classifier.porcentajeNoAdmitida q) 20
  | None => false
  end.

Definition getStats (userId : option string) (st : Store) : Stats :=
  let h := ofUser userId (history st) in
  mkStats (Z.of_nat (length h)) (Z.of_nat (length h) * 3)
          (Z.of_nat (length (List.filter isCriticalAlert h)))
          (mkMetricas 95 80 100).

(** ** [GET /api/traceability] *)

Record TraceEvent := mkTraceEvent {
  fecha : Z;
  loteId : Unicode.Text;
  productoId : string;
  evento : string;
  descripcion : string;
  ubicacion : string;
  estadoTx : string;
  blockchainTxId : string
}.

Definition dayMs : Z := 24 * 60 * 60 * 1000.

(** [s.substring(0, n)] *)
Definition prefix (n : nat) (s : string) : string := String.substring 0 n s.

(** The three events of a record; [hashes] are the two hashes drawn
    for it.  The identifier is read as a text of ASCII characters,
    which those the server draws are. *)
Definition eventsOf (hashes : string * string) (record : UploadRecord) : list TraceEvent :=
  let loteId := Classifier.toUpperCase (Unicode.text (prefix 8 (id record))) in
  let uploadDate := date record in
  [ mkTraceEvent (uploadDate - 2 * dayMs) (Unicode.text "AVO-" ++ loteId)%list "N/A" "Cosecha"
      "Recolección manual de aguacates" "Finca El Paraíso, México" "Confirmado"
      (prefix 12 (fst hashes) ++ "...");
    mkTraceEvent (uploadDate - 1 * dayMs) (Unicode.text "AVO-" ++ loteId)%list "N/A" "Recepción"
      "Lote recibido en centro de procesamiento" "Centro Procesador Guadalajara"
      "Confirmado" (prefix 12 (snd hashes) ++ "...");
    mkTraceEvent (date record) (Unicode.text "AVO-" ++ loteId)%list "N/A" "Carga de Datos"
      ("Archivo " ++ fileName record ++ " cargado al sistema") "Sistema TrazaNet"
      "Confirmado" (prefix 12 (transactionId record) ++ "...") ].

Fixpoint insertEvent (e : TraceEvent) (l : list TraceEvent) : list TraceEvent :=
  match l with
  | [] => [e]
  | x :: rest => if fecha x <=? fecha e then e :: l else x :: insertEvent e rest
  end.

Definition sortEvents (l : list TraceEvent) : list TraceEvent :=
  fold_right insertEvent [] l.

Record Trace := mkTrace { traceCount : Z; traceData : list TraceEvent }.

(** [hashes i] are the hashes drawn for the record at index [i]. *)
Definition traceabilityEvents (hashes : nat -> string * string) (h : list UploadRecord)
    : list TraceEvent :=
  concat (imap (fun i record => eventsOf (hashes i) record) h).

Definition getTraceability (hashes : nat -> string * string) (userId : option string)
    (st : Store) : Trace :=
  let events := sortEvents (traceabilityEvents hashes (ofUser userId (history st))) in
  mkTrace (Z.of_nat (length events)) events.

(** ** The dashboard's view *)

(** The fields of a record the dashboard reads. *)
Definition toHistoryRecord (record : UploadRecord) : Dashboard.HistoryRecord :=
  Dashboard.mkHistoryRecord (fileName record) (date record) (processedBy record)
    (simResult record) (calidadFruta record).

(** [fetchHistoryData]: the data of [GET /api/history], asked with
    the user of the session if there is one. *)
Definition fetchHistoryData (userId : option string) (st : Store)
    : list Dashboard.HistoryRecord :=
  map toHistoryRecord (data (getHistory userId st)).

(** ** Notions for the statements *)

(** The order of the listing. *)
Definition recentFirst (a b : UploadRecord) : Prop := date b <= date a.

Definition eventsRecentFirst (a b : TraceEvent) : Prop := fecha b <= fecha a.


(** A sequence of requests that change the store. *)
Inductive Request :=
| Upload (io : Io) (file : option UploadedFile) (userId : option string)
| Delete (io : Io) (recordId : string)
| UpdateSimulation (io : Io) (loteId simResult_ : option string).

Definition handle (st : Store) (r : Request) : Store :=
  match r with
  | Upload io file userId => snd (upload io file userId st)
  | Delete io recordId => snd (deleteHistory io recordId st)
  | UpdateSimulation io loteId simResult_ => snd (updateSimulation io loteId simResult_ st)
  end.

Definition serve (requests : list Request) (st : Store) : Store :=
  fold_left handle requests st.

Definition emptyStore : Store := mkStore [] ∅.

(** What the dashboard reads of two records is the same. *)
Definition sameLot (a b : UploadRecord) : Prop :=
  date a = date b /\ calidadFruta a = calidadFruta b /\ processedBy a = processedBy b.

(** A record as [POST /api/upload] makes them: its quality is that
    of a file, and it has a user. *)
Definition uploaded (record : UploadRecord) : Prop :=
  (exists file, calidadFruta record = Some (Classifier.calidadFruta file)) /\
  processedBy record <> "".

(** ** A sample disk *)

Definition online : Io := mkIo true 1762344000000 "3-c" "0x3c3c3c3c3c3c3c3c".

(** A lot of eight conformant fruits and two findings, and a lot of
    ten conformant fruits, of two users. *)
Definition lotA : UploadRecord :=
  uploadRecord (mkIo true 1730808000000 "1-a" "0x1a1a1a1a1a1a1a1a")
    (mkUploadedFile "lote-a.csv" "1-lote-a.csv" 120 "uploads/1-lote-a.csv"
       (Some (Scenario.csvOf 8 2)))
    (Some "user-1").

Definition lotB : UploadRecord :=
  uploadRecord (mkIo true 1730894400000 "2-b" "0x2b2b2b2b2b2b2b2b")
    (mkUploadedFile "lote-b.csv" "2-lote-b.csv" 110 "uploads/2-lote-b.csv"
       (Some (Scenario.csvOf 10 0)))
    (Some "user-2").

Definition disk : Store :=
  mkStore [lotA; lotB] {[ "uploads/1-lote-a.csv"; "uploads/2-lote-b.csv" ]}.

End Server.

(** * The analysis of a lot ([AIAnalysis]) *)

Module Analysis.

Import Float.
Local Open Scope string_scope.
Local Open Scope Z_scope.

Inductive Classification := PREMIUM | EXCELENTE | BUENO | ACEPTABLE | RECHAZADO.

(** The numbers the function returns as texts are the numerals
    [toFixed(1)] prints, in tenths. *)
Record QualityAnalysis := mkQualityAnalysis {
  qualityScore : Z;
  riskScore : Z;
  classification : Classification;
  classColor : string;
  conformesPct : Z;
  hallazgosPct : Z;
  noAdmitidasPct : Z;
  total : Z;
  conformes : Z;
  hallazgosMenores : Z;
  noAdmitidas : Z
}.

(** [total > 0 ? (count / total * 100) : 0] *)
Definition pct (count total : Z) : Q :=
  if 0 <? total then fmul (fdiv (inject_Z count) (inject_Z total)) 100 else 0.

(** [x >= y] on numbers. *)
Definition ge (x y : Q) : bool := Qle_bool y x.

Definition classify (qualityScore : Q) : Classification * string :=
  if ge qualityScore 95 then (PREMIUM, "emerald")
  else if ge qualityScore 85 then (EXCELENTE, "green")
  else if ge qualityScore 70 then (BUENO, "yellow")
  else if ge qualityScore 50 then (ACEPTABLE, "orange")
  else (RECHAZADO, "red").

Definition analyzeQuality (batch : Dashboard.HistoryRecord) : QualityAnalysis :=
  let calidadFruta := Dashboard.calidadFruta batch in
  let total := from_option Classifier.total 0 calidadFruta in
  let conformes := from_option Classifier.conformes 0 calidadFruta in
  let hallazgosMenores := from_option Classifier.hallazgosMenores 0 calidadFruta in
  let noAdmitidas := from_option Classifier.noAdmitidas 0 calidadFruta in
  let conformesPct := pct conformes total in
  let hallazgosPct := pct hallazgosMenores total in
  let noAdmitidasPct := pct noAdmitidas total in
  let qualityScore := conformesPct in
  let riskScore := fadd (fmul hallazgosPct (1 # 2)) (fmul noAdmitidasPct 2) in
  let '(classification, classColor) := classify qualityScore in
  mkQualityAnalysis (toFixed 1 qualityScore) (toFixed 1 riskScore)
    classification classColor
    (toFixed 1 conformesPct) (toFixed 1 hallazgosPct) (toFixed 1 noAdmitidasPct)
    total conformes hallazgosMenores noAdmitidas.

Inductive Urgency := critical | high | medium | normal.

(** [expiryDate] is the text [toLocaleDateString('es-ES')] prints:
    the calendar day (year, month, day) it spells. *)
Record ShelfLife := mkShelfLife {
  days : Z;
  expiryDate : Z * Z * Z;
  urgency : Urgency;
  confidence : string
}.

(** The days the quality score gives. *)
Definition daysOfScore (qualityScore : Q) : Z :=
  if ge qualityScore 95 then 21
  else if ge qualityScore 85 then 14
  else if ge qualityScore 70 then 10
  else if ge qualityScore 50 then 5
  else 2.

(** "Adjust for defects" *)
Definition adjustForDefects (noAdmitidasPct : Q) (shelfLifeDays : Z) : Z :=
  if gt noAdmitidasPct 10 then Z.max 2 (shelfLifeDays - 7)
  else if gt noAdmitidasPct 5 then Z.max 3 (shelfLifeDays - 4)
  else shelfLifeDays.

Definition urgencyOf (shelfLifeDays : Z) : Urgency :=
  if shelfLifeDays <=? 3 then critical
  else if shelfLifeDays <=? 7 then high
  else if shelfLifeDays <=? 10 then medium
  else normal.

Section Today.

(** The time zone of the browser and the instant of the call. *)
Variable zoneOffset : Z -> Z.
Variable today : Z.

Definition predictShelfLife (batch : Dashboard.HistoryRecord) : ShelfLife :=
  let analysis := analyzeQuality batch in
  let qualityScore := parseFixed 1 (qualityScore analysis) in
  let shelfLifeDays := daysOfScore qualityScore in
  let noAdmitidasPct := parseFixed 1 (noAdmitidasPct analysis) in
  let shelfLifeDays := adjustForDefects noAdmitidasPct shelfLifeDays in
  let expiryDate := today + shelfLifeDays * 24 * 60 * 60 * 1000 in
  mkShelfLife shelfLifeDays (Dashboard.calendarDay zoneOffset expiryDate)
    (urgencyOf shelfLifeDays)
    (if ge qualityScore 70 then "Alta" else "Media").

End Today.

(** ** Notions for the statements *)

(** The rank of a class, the best one the highest. *)
Definition rank (c : Classification) : Z :=
  match c with
  | PREMIUM => 4 | EXCELENTE => 3 | BUENO => 2 | ACEPTABLE => 1 | RECHAZADO => 0
  end.

(** The counts of a record are those of a partition of its fruits. *)
Definition consistent (q : Classifier.CalidadFruta) : Prop :=
  0 <= Classifier.conformes q /\ 0 <= Classifier.hallazgosMenores q /\
  0 <= Classifier.noAdmitidas q /\
  Classifier.conformes q + Classifier.hallazgosMenores q + Classifier.noAdmitidas q
  = Classifier.total q /\
  Classifier.total q < 2 ^ 53.

End Analysis.

(** * The charts of the dashboard *)

Module Charting.

Import Float.
Local Open Scope string_scope.
Local Open Scope Z_scope.

(** What [updateBreakdownChart] gives the chart. *)
Record Doughnut := mkDoughnut {
  chartData : list Z;
  chartLabels : list string;
  chartColors : list string
}.

Definition updateBreakdownChart (b : Dashboard.Breakdown) : Doughnut :=
  let hasData := existsb (fun val => 0 <? val) (Dashboard.breakdownData b) in
  mkDoughnut
    (if hasData then Dashboard.breakdownData b else [1])
    (if hasData then Dashboard.breakdownLabels b else ["Sin datos"])
    (if hasData then ["#ef4444"; "#f59e0b"; "#10b981"] else ["#e5e7eb"]).

(** The number of the records of a status. *)
Definition lotsOf (st : Dashboard.BatchStatus) (data : list Dashboard.HistoryRecord) : Z :=
  Z.of_nat (length (List.filter
    (fun r => match Dashboard.determineBatchStatus r, st with
              | Dashboard.Conforme, Dashboard.Conforme
              | Dashboard.Hallazgo, Dashboard.Hallazgo
              | Dashboard.Descarte, Dashboard.Descarte
              | Dashboard.Pendiente, Dashboard.Pendiente => true
              | _, _ => false
              end) data)).

(** What the summary reads of two records is the same. *)
Definition alike (a b : Dashboard.HistoryRecord) : Prop :=
  Dashboard.date a = Dashboard.date b /\
  Dashboard.calidadFruta a = Dashboard.calidadFruta b.

(** The numbers the dashboard shows are percentages, in tenths. *)
Definition isTenths (n : Z) : Prop := 0 <= n <= 1000.

Definition shownConformity (c : Dashboard.Conformidad) : Prop :=
  match c with
  | Dashboard.Fixed n => isTenths n
  | Dashboard.Number q => (q == 0)%Q
  end.

End Charting.

(** * Properties of the contract *)

Module ContractTheory.

Import Contract.
Local Open Scope string_scope.
Local Open Scope N_scope.

Ltac bool_cases :=
  repeat match goal with
  | |- context [?a <? ?b] => destruct (N.ltb_spec a b)
  | |- context [?a <=? ?b] => destruct (N.leb_spec a b)
  | |- context [?a =? ?b] => destruct (N.eqb_spec a b)
  end.

Ltac branches :=
  repeat (cbn [mbind option_bind andb];
          match goal with
          | |- context [if ?c then _ else _] => destruct c
          end);
  cbn [mbind option_bind andb]; try reflexivity.

Lemma checked_mul_Some a b : a * b <= MAX_UINT256 -> checked_mul a b = Some (a * b).
Proof. intros H. unfold checked_mul. apply N.leb_le in H. now rewrite H. Qed.

Lemma checked_mul_None a b : MAX_UINT256 < a * b -> checked_mul a b = None.
Proof. intros H. unfold checked_mul. apply N.leb_gt in H. now rewrite H. Qed.

Lemma checked_sub_absDiff a b :
  (if b <? a then checked_sub a b else checked_sub b a) = Some (absDiff a b).
Proof.
  unfold absDiff, checked_sub.
  destruct (N.ltb_spec b a).
  - destruct (N.leb_spec b a); [reflexivity | lia].
  - destruct (N.leb_spec a b); [reflexivity | lia].
Qed.

(** The two checked multiplications by 100 succeed exactly when the
    product by 10000 fits. *)
Lemma scale_by_10000 d :
  (d100 ← checked_mul d 100; checked_mul d100 100) =
  if d * 10000 <=? MAX_UINT256 then Some (d * 10000) else None.
Proof.
  destruct (N.leb_spec (d * 10000) MAX_UINT256) as [H | H].
  - rewrite checked_mul_Some by lia. simpl.
    rewrite checked_mul_Some by lia. f_equal. lia.
  - destruct (N.le_gt_cases (d * 100) MAX_UINT256) as [H1 | H1].
    + rewrite checked_mul_Some by lia. simpl.
      apply checked_mul_None. lia.
    + now rewrite checked_mul_None.
Qed.

(** [auditVerdict] as a decision table.  The deviation is computed,
    and may overflow, whatever the temperature check said; the limit
    is computed only when the lot is still compliant. *)
Lemma auditVerdict_table s t iw fw d :
  auditVerdict s t iw fw d =
  if (0 <? iw) && (0 <? fw) then
    if absDiff iw fw * 10000 <=? MAX_UINT256 then
      if MAX_TEMP_TRANSPORT_C s <? t then Some (false, REASON_TEMP)
      else if MAX_WEIGHT_DEVIATION_PCT s * 100 <=? MAX_UINT256 then
        if MAX_WEIGHT_DEVIATION_PCT s * 100 <? absDiff iw fw * 10000 / iw
        then Some (false, REASON_WEIGHT)
        else Some (dryVerdict s d)
      else None
    else None
  else if MAX_TEMP_TRANSPORT_C s <? t then Some (false, REASON_TEMP)
       else Some (dryVerdict s d).
Proof.
  unfold auditVerdict, dryVerdict.
  destruct ((0 <? iw) && (0 <? fw)) eqn:Hw.
  - apply andb_true_iff in Hw. destruct Hw as [Hiw Hfw].
    apply N.ltb_lt in Hiw.
    rewrite checked_sub_absDiff. cbn [mbind option_bind].
    pose proof (scale_by_10000 (absDiff iw fw)) as Hs.
    destruct (checked_mul (absDiff iw fw) 100) as [d100|] eqn:E100;
      cbn [mbind option_bind] in Hs |- *.
    + rewrite Hs.
      destruct (absDiff iw fw * 10000 <=? MAX_UINT256); cbn [mbind option_bind].
      * unfold checked_div, checked_mul.
        destruct (N.eqb_spec iw 0); [lia|].
        branches.
      * branches.
    + destruct (absDiff iw fw * 10000 <=? MAX_UINT256); [discriminate Hs|].
      branches.
  - branches.
Qed.

(** ** Storage lemmas *)

Lemma batchOf_setBatch s id b : batchOf (setBatch id b s) id = b.
Proof. unfold batchOf, setBatch. cbn. now rewrite lookup_insert_eq. Qed.

Lemma batchOf_emit s e id : batchOf (emit e s) id = batchOf s id.
Proof. reflexivity. Qed.

Lemma batchOf_unwritten s id : batches s !! id = None -> batchOf s id = zeroBatch.
Proof. intros H. unfold batchOf. now rewrite H. Qed.

Lemma evaluateBatch_verdict env id tIn wIn dIn s :
  evaluateBatch env id tIn wIn dIn s =
  match auditVerdict s (resolvedTemp s id tIn) (initialWeight (batchOf s id))
                     (resolvedFinalWeight s id wIn) dIn with
  | Some (c, r) => Some (audited env id c r s)
  | None => None
  end.
Proof.
  unfold evaluateBatch, resolvedTemp, resolvedFinalWeight, audited.
  destruct (auditVerdict _ _ _ _ _) as [[c r]|]; reflexivity.
Qed.

Lemma audit_audited env id c r s :
  audit (batchOf (audited env id c r s) id) = mkAuditResult c r (block_timestamp env).
Proof. unfold audited. rewrite batchOf_emit, batchOf_setBatch. reflexivity. Qed.

Lemma dryVerdict_reason s d :
  snd (dryVerdict s d) = REASON_DRY \/ snd (dryVerdict s d) = REASON_OK.
Proof. unfold dryVerdict. destruct (_ && _); auto. Qed.

(** ** The order of the checks *)

(** C1, as stated, fails: on the one-unit lot, a temperature above
    the threshold is audited together with a received weight of
    2^256 - 1; the checked product of the weight difference by 100
    overflows and [evaluateBatch] reverts, returning no result. *)
Lemma temperature_failure_can_revert :
  let s := Scenario.tinyLot in
  Scenario.registerTiny = Some s /\
  initialWeight (batchOf s "L1") = 1 /\
  MAX_TEMP_TRANSPORT_C s < resolvedTemp s "L1" 801 /\
  evaluateBatch Scenario.later "L1" 801 MAX_UINT256 0 s = None.
Proof. vm_compute. repeat split. Qed.

(** C1, amended: when the resolved temperature exceeds
    [MAX_TEMP_TRANSPORT_C], [evaluateBatch] stores the non-compliant
    result with the temperature reason, provided the weight
    difference times 10000 fits in a uint256 when both weights are
    positive; otherwise it reverts.  In no case is the reason the one
    of the weight deviation or of the dry matter. *)
Theorem temperature_failure_wins env s id tIn wIn dIn :
  MAX_TEMP_TRANSPORT_C s < resolvedTemp s id tIn ->
  let iw := initialWeight (batchOf s id) in
  let fw := resolvedFinalWeight s id wIn in
  ((0 < iw /\ 0 < fw -> absDiff iw fw * 10000 <= MAX_UINT256) ->
   exists s', evaluateBatch env id tIn wIn dIn s = Some s' /\
              audit (batchOf s' id) =
                mkAuditResult false REASON_TEMP (block_timestamp env) /\
              events s' = BatchAuditCompleted id false REASON_TEMP :: events s)
  /\ (0 < iw -> 0 < fw -> MAX_UINT256 < absDiff iw fw * 10000 ->
      evaluateBatch env id tIn wIn dIn s = None)
  /\ (forall s', evaluateBatch env id tIn wIn dIn s = Some s' ->
                 reason (audit (batchOf s' id)) <> REASON_WEIGHT /\
                 reason (audit (batchOf s' id)) <> REASON_DRY).
Proof.
  intros Ht iw fw.
  rewrite evaluateBatch_verdict, auditVerdict_table.
  fold iw fw. apply N.ltb_lt in Ht. rewrite Ht.
  assert (Hok : forall s', Some (audited env id false REASON_TEMP s) = Some s' ->
            reason (audit (batchOf s' id)) <> REASON_WEIGHT /\
            reason (audit (batchOf s' id)) <> REASON_DRY).
  { intros s' [= <-]. rewrite audit_audited. cbn. split; discriminate. }
  destruct (N.ltb_spec 0 iw) as [Hiw|Hiw], (N.ltb_spec 0 fw) as [Hfw|Hfw];
    cbn [andb];
    try (split; [intros _; eexists; split; [reflexivity|];
                 split; [apply audit_audited | reflexivity]
                | split; [intros; lia | exact Hok]]).
  destruct (N.leb_spec (absDiff iw fw * 10000) MAX_UINT256) as [Hfit|Hfit].
  - split; [|split].
    + intros _. eexists. split; [reflexivity|].
      split; [apply audit_audited | reflexivity].
    + intros; lia.
    + exact Hok.
  - split; [|split].
    + intros H. specialize (H (conj Hiw Hfw)). lia.
    + reflexivity.
    + intros s' [=].
Qed.

(** The threshold is exclusive: 8.00 °C passes, 8.10 °C does not. *)
Example temperature_boundary :
  (s ← evaluateBatch Scenario.later "L1" 800 0 0 Scenario.received;
   Some (audit (batchOf s "L1"))) = Some (mkAuditResult true REASON_OK 2000) /\
  (s ← evaluateBatch Scenario.later "L1" 810 0 0 Scenario.received;
   Some (audit (batchOf s "L1"))) = Some (mkAuditResult false REASON_TEMP 2000).
Proof. split; vm_compute; reflexivity. Qed.

Lemma temperature_failure_wins_witness :
  exists s', evaluateBatch Scenario.later "L1" 810 50 10 Scenario.received = Some s' /\
             audit (batchOf s' "L1") = mkAuditResult false REASON_TEMP 2000.
Proof.
  destruct (temperature_failure_wins Scenario.later Scenario.received "L1" 810 50 10)
    as [H _].
  - vm_compute. reflexivity.
  - destruct H as (s' & E & A & _).
    + intros _. vm_compute. discriminate.
    + exists s'. split; [exact E | exact A].
Defined.

(** ** The weight deviation *)

(** C2, as stated, fails: the one-unit lot passes the temperature
    check and both weights are positive, the deviation is far above
    5 %, and yet no weight-deviation result is returned, because the
    checked product overflows and the call reverts. *)
Lemma weight_deviation_can_revert :
  let s := Scenario.tinyLot in
  Scenario.registerTiny = Some s /\
  0 < initialWeight (batchOf s "L1") /\
  0 < resolvedFinalWeight s "L1" MAX_UINT256 /\
  resolvedTemp s "L1" 750 <= MAX_TEMP_TRANSPORT_C s /\
  MAX_WEIGHT_DEVIATION_PCT s <
    absDiff (initialWeight (batchOf s "L1")) (resolvedFinalWeight s "L1" MAX_UINT256)
    * 100 / initialWeight (batchOf s "L1") /\
  evaluateBatch Scenario.later "L1" 750 MAX_UINT256 0 s = None.
Proof. vm_compute. repeat split; discriminate. Qed.

(** C2, amended: for a lot with positive initial and resolved final
    weights that passes the temperature check, and whose products
    [|initialWeight - finalWeight| * 10000] and
    [MAX_WEIGHT_DEVIATION_PCT * 100] fit in a uint256, [evaluateBatch]
    computes the deviation in hundredths of a percent,
    [|initialWeight - finalWeight| * 10000 / initialWeight] rounded
    down, and stores the non-compliant result with the
    weight-deviation reason exactly when it exceeds
    [MAX_WEIGHT_DEVIATION_PCT * 100]; otherwise the dry-matter check
    decides.  When one of the two products does not fit, the call
    reverts.  With the thresholds 800, 5 and 21, a temperature of 750
    and an initial weight of 100, a final weight of 96 is compliant
    and one of 90 is not, for the weight deviation. *)
Theorem weight_deviation_check :
  (forall env s id tIn wIn dIn,
     let iw := initialWeight (batchOf s id) in
     let fw := resolvedFinalWeight s id wIn in
     0 < iw -> 0 < fw ->
     resolvedTemp s id tIn <= MAX_TEMP_TRANSPORT_C s ->
     absDiff iw fw * 10000 <= MAX_UINT256 ->
     MAX_WEIGHT_DEVIATION_PCT s * 100 <= MAX_UINT256 ->
     let deviation := absDiff iw fw * 10000 / iw in
     exists s', evaluateBatch env id tIn wIn dIn s = Some s' /\
       (MAX_WEIGHT_DEVIATION_PCT s * 100 < deviation <->
        audit (batchOf s' id) =
          mkAuditResult false REASON_WEIGHT (block_timestamp env)) /\
       (deviation <= MAX_WEIGHT_DEVIATION_PCT s * 100 ->
        audit (batchOf s' id) =
          mkAuditResult (fst (dryVerdict s dIn)) (snd (dryVerdict s dIn))
                        (block_timestamp env)))
  /\ (forall env s id tIn wIn dIn,
       let iw := initialWeight (batchOf s id) in
       let fw := resolvedFinalWeight s id wIn in
       0 < iw -> 0 < fw ->
       resolvedTemp s id tIn <= MAX_TEMP_TRANSPORT_C s ->
       MAX_UINT256 < absDiff iw fw * 10000 \/
       MAX_UINT256 < MAX_WEIGHT_DEVIATION_PCT s * 100 ->
       evaluateBatch env id tIn wIn dIn s = None)
  /\ (s ← Scenario.endToEnd 96; Some (audit (batchOf s "L1")))
     = Some (mkAuditResult true REASON_OK 1000)
  /\ (s ← Scenario.endToEnd 90; Some (audit (batchOf s "L1")))
     = Some (mkAuditResult false REASON_WEIGHT 1000).
Proof.
  split; [|split; [|split; vm_compute; reflexivity]].
  2: { intros env s id tIn wIn dIn iw fw Hiw Hfw Ht Hover.
       rewrite evaluateBatch_verdict, auditVerdict_table. fold iw fw.
       apply N.ltb_lt in Hiw, Hfw. rewrite Hiw, Hfw. cbn [andb].
       apply N.ltb_ge in Ht. rewrite Ht.
       destruct (N.leb_spec (absDiff iw fw * 10000) MAX_UINT256);
         [|reflexivity].
       destruct (N.leb_spec (MAX_WEIGHT_DEVIATION_PCT s * 100) MAX_UINT256);
         [|reflexivity].
       destruct Hover; lia. }
  intros env s id tIn wIn dIn.
  intros iw fw Hiw Hfw Ht Hfit Hlim deviation.
  rewrite evaluateBatch_verdict, auditVerdict_table. fold iw fw.
  apply N.ltb_lt in Hiw, Hfw. rewrite Hiw, Hfw. cbn [andb].
  apply N.leb_le in Hfit, Hlim. rewrite Hfit, Hlim.
  apply N.ltb_ge in Ht. rewrite Ht. fold deviation.
  destruct (N.ltb_spec (MAX_WEIGHT_DEVIATION_PCT s * 100) deviation) as [Hd|Hd].
  - eexists. split; [reflexivity|]. rewrite audit_audited.
    split; [tauto | intros; lia].
  - destruct (dryVerdict s dIn) as [c r] eqn:Ed.
    eexists. split; [reflexivity|]. rewrite audit_audited. cbn [fst snd].
    split; [|reflexivity].
    split; [intros; lia|].
    intros [= -> ->]. pose proof (dryVerdict_reason s dIn) as Hr.
    rewrite Ed in Hr. cbn in Hr. destruct Hr; discriminate.
Qed.

Lemma weight_deviation_check_witness :
  exists s', evaluateBatch Scenario.later "L1" 0 90 0 Scenario.received = Some s' /\
             audit (batchOf s' "L1") = mkAuditResult false REASON_WEIGHT 2000.
Proof.
  destruct weight_deviation_check as [H _].
  destruct (H Scenario.later Scenario.received "L1" 0 90 0) as (s' & E & [A _] & _);
    try (vm_compute; first [reflexivity | discriminate]).
  exists s'. split; [exact E|]. apply A. vm_compute. reflexivity.
Defined.

(** ** Stage updates and the audit *)

Lemma updateTransportData_registered env s id t :
  batchTimestamp s id <> 0 ->
  updateTransportData env id t s =
  Some (setBatch id (withAvgTemperature (batchOf s id) t) s).
Proof.
  intros H. unfold updateTransportData.
  destruct (N.eqb_spec (batchTimestamp s id) 0); [contradiction | reflexivity].
Qed.

Lemma updateReceptionData_registered env s id w :
  batchTimestamp s id <> 0 ->
  updateReceptionData env id w s =
  evaluateBatch env id 0 w 0
    (setBatch id (withFinalWeightReceived (batchOf s id) w) s).
Proof.
  intros H. unfold updateReceptionData.
  destruct (N.eqb_spec (batchTimestamp s id) 0); [contradiction | reflexivity].
Qed.

(** C3, as stated, fails: lot L1 was carried at 7.50 °C and audited
    compliant on reception; [updateTransportData] then overwrites the
    temperature with 9.00 °C, above the threshold.  No audit event is
    emitted and the stored result is still the compliant one of the
    reception, although an evaluation of the new state would reject
    the lot. *)
Lemma transport_overwrite_not_reaudited :
  let s := Scenario.received in
  exists s' s'',
    Scenario.endToEnd 96 = Some s /\
    avgTemperature (batchOf s "L1") = 750 /\
    updateTransportData Scenario.later "L1" 900 s = Some s' /\
    avgTemperature (batchOf s' "L1") = 900 /\
    events s' = events s /\
    audit (batchOf s' "L1") = mkAuditResult true REASON_OK 1000 /\
    evaluateBatch Scenario.later "L1" 0 0 0 s' = Some s'' /\
    audit (batchOf s'' "L1") = mkAuditResult false REASON_TEMP 2000.
Proof.
  cbv zeta. eexists. eexists.
  split; [vm_compute; reflexivity|].
  split; [vm_compute; reflexivity|].
  split; [vm_compute; reflexivity|].
  split; [vm_compute; reflexivity|].
  split; [vm_compute; reflexivity|].
  split; [vm_compute; reflexivity|].
  split; vm_compute; reflexivity.
Qed.

(** C3, amended: on a registered lot, [updateReceptionData] stores the
    received weight and re-evaluates the audit as part of the update
    (it is [evaluateBatch] on the updated lot: when it succeeds, the
    result is replaced and a [BatchAuditCompleted] event is emitted),
    whereas [updateTransportData] only overwrites the stored
    temperature: it emits no event and leaves the audit result as it
    was. *)
Theorem reception_reaudits_transport_does_not env s id :
  batchTimestamp s id <> 0 ->
  (forall t, exists s',
     updateTransportData env id t s = Some s' /\
     avgTemperature (batchOf s' id) = t /\
     audit (batchOf s' id) = audit (batchOf s id) /\
     events s' = events s)
  /\
  (forall w,
     updateReceptionData env id w s =
     match auditVerdict s (avgTemperature (batchOf s id))
                        (initialWeight (batchOf s id)) w 0 with
     | Some (c, r) =>
         Some (audited env id c r
                 (setBatch id (withFinalWeightReceived (batchOf s id) w) s))
     | None => None
     end)
  /\
  (forall w s',
     updateReceptionData env id w s = Some s' ->
     finalWeightReceived (batchOf s' id) = w /\
     timestamp (audit (batchOf s' id)) = block_timestamp env /\
     exists c r,
       audit (batchOf s' id) = mkAuditResult c r (block_timestamp env) /\
       events s' = BatchAuditCompleted id c r :: events s)
  /\
  (forall w,
     absDiff (initialWeight (batchOf s id)) w * 10000 <= MAX_UINT256 ->
     MAX_WEIGHT_DEVIATION_PCT s * 100 <= MAX_UINT256 ->
     exists s', updateReceptionData env id w s = Some s').
Proof.
  intros Hreg.
  assert (Hrec : forall w,
     updateReceptionData env id w s =
     match auditVerdict s (avgTemperature (batchOf s id))
                        (initialWeight (batchOf s id)) w 0 with
     | Some (c, r) =>
         Some (audited env id c r
                 (setBatch id (withFinalWeightReceived (batchOf s id) w) s))
     | None => None
     end).
  { intros w. rewrite updateReceptionData_registered by assumption.
    rewrite evaluateBatch_verdict.
    unfold resolvedTemp, resolvedFinalWeight. rewrite batchOf_setBatch.
    cbn [N.eqb negb avgTemperature initialWeight finalWeightReceived
         withFinalWeightReceived].
    replace (if negb (w =? 0) then w else w) with w by (destruct (negb _); reflexivity).
    reflexivity. }
  split; [|split; [exact Hrec|split]].
  - intros t. rewrite updateTransportData_registered by assumption.
    eexists. split; [reflexivity|]. rewrite batchOf_setBatch. repeat split.
  - intros w s'. rewrite Hrec.
    destruct (auditVerdict _ _ _ _ _) as [[c r]|]; [|discriminate].
    intros [= <-]. rewrite audit_audited. unfold audited.
    rewrite batchOf_emit, batchOf_setBatch, batchOf_setBatch.
    split; [reflexivity|]. split; [reflexivity|].
    exists c, r. split; reflexivity.
  - intros w Hfit Hlim. rewrite Hrec, auditVerdict_table.
    apply N.leb_le in Hfit, Hlim. rewrite Hfit, Hlim.
    branches; eexists; reflexivity.
Qed.

Lemma reception_reaudits_transport_does_not_witness :
  exists s', updateTransportData Scenario.later "L1" 900 Scenario.received = Some s' /\
             audit (batchOf s' "L1") = mkAuditResult true REASON_OK 1000.
Proof.
  destruct (reception_reaudits_transport_does_not Scenario.later Scenario.received "L1")
    as [H _].
  - vm_compute. discriminate.
  - destruct (H 900) as (s' & E & _ & A & _).
    exists s'. split; [exact E|]. rewrite A. vm_compute. reflexivity.
Defined.

(** ** Evaluation without registration *)

(** C10, as stated, fails for the ids of some registered lots: on
    the one-unit lot an evaluation with a received weight of
    2^256 - 1 reverts. *)
Lemma evaluateBatch_can_revert :
  let s := Scenario.tinyLot in
  Scenario.registerTiny = Some s /\
  batchTimestamp s "L1" <> 0 /\
  evaluateBatch Scenario.later "L1" 0 MAX_UINT256 0 s = None.
Proof. vm_compute. split; [reflexivity|]. split; [discriminate | reflexivity]. Qed.

(** C10, amended: [evaluateBatch] checks no existence of the lot.  It
    reverts only when the checked arithmetic of the weight deviation
    overflows, which needs a positive stored initial weight.  For an
    id under which nothing was ever written it succeeds for all
    inputs, stores under that id a lot whose fields are zero but for
    the full audit result, computed from the inputs and the zero
    stored fields and stamped with the block time, and emits the
    audit event; the block time being non-zero, a later
    [registerBatchInitialData] of the same id reverts as a
    duplicate. *)
Theorem evaluateBatch_needs_no_registration env s id tIn wIn dIn :
  block_timestamp env <> 0 ->
  (evaluateBatch env id tIn wIn dIn s = None ->
   let iw := initialWeight (batchOf s id) in
   let fw := resolvedFinalWeight s id wIn in
   0 < iw /\ 0 < fw /\
   (MAX_UINT256 < absDiff iw fw * 10000 \/
    MAX_UINT256 < MAX_WEIGHT_DEVIATION_PCT s * 100))
  /\
  (forall s', evaluateBatch env id tIn wIn dIn s = Some s' ->
     timestamp (audit (batchOf s' id)) = block_timestamp env /\
     forall env' variety_ initialWeight_,
       registerBatchInitialData env' id variety_ initialWeight_ s' = None)
  /\
  (batches s !! id = None ->
   exists s' c r,
     evaluateBatch env id tIn wIn dIn s = Some s' /\
     (c, r) = (if MAX_TEMP_TRANSPORT_C s <? tIn then (false, REASON_TEMP)
               else dryVerdict s dIn) /\
     batchOf s' id =
       withAudit zeroBatch (mkAuditResult c r (block_timestamp env)) /\
     events s' = BatchAuditCompleted id c r :: events s /\
     forall env' variety_ initialWeight_,
       registerBatchInitialData env' id variety_ initialWeight_ s' = None).
Proof.
  intros Hnow.
  assert (Hdup : forall c r s0 env' variety_ initialWeight_,
            registerBatchInitialData env' id variety_ initialWeight_
              (audited env id c r s0) = None).
  { intros. unfold registerBatchInitialData, batchTimestamp.
    rewrite audit_audited. cbn [timestamp].
    destruct (N.eqb_spec (block_timestamp env) 0); [contradiction | reflexivity]. }
  rewrite evaluateBatch_verdict.
  split; [|split].
  - rewrite auditVerdict_table. cbv zeta.
    destruct (dryVerdict s dIn) as [cd rd].
    destruct (N.ltb_spec 0 (initialWeight (batchOf s id)));
      destruct (N.ltb_spec 0 (resolvedFinalWeight s id wIn)); cbn [andb];
      try (destruct (MAX_TEMP_TRANSPORT_C s <? resolvedTemp s id tIn); discriminate).
    destruct (N.leb_spec
                (absDiff (initialWeight (batchOf s id))
                         (resolvedFinalWeight s id wIn) * 10000) MAX_UINT256);
      [|intros _; auto].
    destruct (MAX_TEMP_TRANSPORT_C s <? resolvedTemp s id tIn); [discriminate|].
    destruct (N.leb_spec (MAX_WEIGHT_DEVIATION_PCT s * 100) MAX_UINT256);
      [|intros _; auto].
    destruct (_ <? _); discriminate.
  - intros s'. destruct (auditVerdict _ _ _ _ _) as [[c r]|]; [|discriminate].
    intros [= <-]. rewrite audit_audited. split; [reflexivity | apply Hdup].
  - intros Hnone. rewrite auditVerdict_table.
    unfold resolvedTemp, resolvedFinalWeight.
    rewrite (batchOf_unwritten _ _ Hnone).
    cbn [initialWeight avgTemperature finalWeightReceived zeroBatch N.ltb N.compare andb].
    assert (Ht : (MAX_TEMP_TRANSPORT_C s <? (if negb (tIn =? 0) then tIn else 0))
                 = (MAX_TEMP_TRANSPORT_C s <? tIn)).
    { destruct (N.eqb_spec tIn 0); cbn [negb]; [subst|]; reflexivity. }
    rewrite Ht.
    destruct (MAX_TEMP_TRANSPORT_C s <? tIn).
    + eexists _, false, REASON_TEMP. split; [reflexivity|]. split; [reflexivity|].
      split; [unfold audited;
              now rewrite batchOf_emit, batchOf_setBatch, (batchOf_unwritten _ _ Hnone)|].
      split; [reflexivity|]. intros. apply Hdup.
    + destruct (dryVerdict s dIn) as [c r].
      eexists _, c, r. split; [reflexivity|]. split; [reflexivity|].
      split; [unfold audited;
              now rewrite batchOf_emit, batchOf_setBatch, (batchOf_unwritten _ _ Hnone)|].
      split; [reflexivity|]. intros. apply Hdup.
Qed.

Lemma evaluateBatch_needs_no_registration_witness :
  exists s', evaluateBatch Scenario.admin "GHOST" 0 0 0 Scenario.deployed = Some s' /\
             batchOf s' "GHOST" =
               withAudit zeroBatch (mkAuditResult true REASON_OK 1000) /\
             registerBatchInitialData Scenario.later "GHOST" "Hass" 100 s' = None.
Proof.
  destruct (evaluateBatch_needs_no_registration
              Scenario.admin Scenario.deployed "GHOST" 0 0 0) as (_ & _ & H).
  - vm_compute. discriminate.
  - destruct H as (s' & c & r & E & V & B & _ & D).
    + vm_compute. reflexivity.
    + exists s'. split; [exact E|]. split; [|apply D].
      rewrite B. vm_compute in V. injection V as -> ->. reflexivity.
Defined.

End ContractTheory.

(** * Properties of the float model *)

Module FloatTheory.

Import Float.
Local Open Scope Z_scope.

Lemma roundNearestEven_error n d :
  0 < d -> 2 * Z.abs (roundNearestEven n d * d - n) <= d.
Proof.
  intros Hd. unfold roundNearestEven.
  pose proof (Z.div_mod n d ltac:(lia)) as Hdm.
  pose proof (Z.mod_pos_bound n d Hd) as Hr.
  destruct (Z.ltb_spec (2 * (n mod d)) d).
  - nia.
  - destruct (Z.ltb_spec d (2 * (n mod d))).
    + nia.
    + destruct (Z.even (n / d)); nia.
Qed.

Lemma ilog2_lower a b :
  let L := ilog2 a b in
  if 0 <=? L then Zpos b * 2 ^ L <= Zpos a else Zpos b <= Zpos a * 2 ^ (- L).
Proof.
  unfold ilog2.
  set (la := Z.log2 (Zpos a)). set (lb := Z.log2 (Zpos b)).
  assert (Hla : 2 ^ la <= Zpos a < 2 ^ (la + 1)).
  { pose proof (Z.log2_spec (Zpos a) ltac:(lia)) as H.
    replace (la + 1) with (Z.succ la) by lia. exact H. }
  assert (Hlb : 2 ^ lb <= Zpos b < 2 ^ (lb + 1)).
  { pose proof (Z.log2_spec (Zpos b) ltac:(lia)) as H.
    replace (lb + 1) with (Z.succ lb) by lia. exact H. }
  assert (H0a : 0 <= la) by apply Z.log2_nonneg.
  assert (H0b : 0 <= lb) by apply Z.log2_nonneg.
  destruct (Z.leb_spec 0 (la - lb)) as [Hd | Hd].
  - destruct (Z.leb_spec (Zpos b * 2 ^ (la - lb)) (Zpos a)) as [Hc | Hc].
    + cbv zeta. destruct (Z.leb_spec 0 (la - lb)); [exact Hc | lia].
    + cbv zeta. destruct (Z.leb_spec 0 (la - lb - 1)) as [H1 | H1].
      * (* b * 2^(d-1) < 2^(lb+1) * 2^(d-1) = 2^la <= a *)
        assert (E : 2 ^ (lb + 1) * 2 ^ (la - lb - 1) = 2 ^ la).
        { rewrite <- Z.pow_add_r by lia. f_equal. lia. }
        assert (0 < 2 ^ (la - lb - 1)) by (apply Z.pow_pos_nonneg; lia).
        nia.
      * (* d = 0 *)
        assert (la - lb = 0) by lia.
        replace (- (la - lb - 1)) with 1 by lia.
        replace lb with la in Hlb by lia.
        change (2 ^ 1) with 2.
        rewrite Z.pow_add_r in Hlb by lia. change (2 ^ 1) with 2 in Hlb. lia.
  - destruct (Z.leb_spec (Zpos b) (Zpos a * 2 ^ (- (la - lb)))) as [Hc | Hc].
    + cbv zeta. destruct (Z.leb_spec 0 (la - lb)); [lia | exact Hc].
    + cbv zeta. destruct (Z.leb_spec 0 (la - lb - 1)) as [H1 | H1]; [lia|].
      (* b < 2^(lb+1) = 2^la * 2^(1-d) <= a * 2^(1-d) *)
      assert (E : 2 ^ la * 2 ^ (- (la - lb - 1)) = 2 ^ (lb + 1)).
      { rewrite <- Z.pow_add_r by lia. f_equal. lia. }
      assert (0 < 2 ^ (- (la - lb - 1))) by (apply Z.pow_pos_nonneg; lia).
      nia.
Qed.

Lemma ilog2_upper a b :
  let L := ilog2 a b + 1 in
  if 0 <=? L then Zpos a < Zpos b * 2 ^ L else Zpos a * 2 ^ (- L) < Zpos b.
Proof.
  unfold ilog2.
  set (la := Z.log2 (Zpos a)). set (lb := Z.log2 (Zpos b)).
  assert (Hla : 2 ^ la <= Zpos a < 2 ^ (la + 1)).
  { pose proof (Z.log2_spec (Zpos a) ltac:(lia)) as H.
    replace (la + 1) with (Z.succ la) by lia. exact H. }
  assert (Hlb : 2 ^ lb <= Zpos b < 2 ^ (lb + 1)).
  { pose proof (Z.log2_spec (Zpos b) ltac:(lia)) as H.
    replace (lb + 1) with (Z.succ lb) by lia. exact H. }
  assert (H0a : 0 <= la) by apply Z.log2_nonneg.
  assert (H0b : 0 <= lb) by apply Z.log2_nonneg.
  destruct (Z.leb_spec 0 (la - lb)) as [Hd | Hd].
  - destruct (Z.leb_spec (Zpos b * 2 ^ (la - lb)) (Zpos a)) as [Hc | Hc]; cbv zeta.
    + destruct (Z.leb_spec 0 (la - lb + 1)); [|lia].
      (* a < 2^(la+1) = 2^lb * 2^(d+1) <= b * 2^(d+1) *)
      assert (E : 2 ^ lb * 2 ^ (la - lb + 1) = 2 ^ (la + 1)).
      { rewrite <- Z.pow_add_r by lia. f_equal. lia. }
      assert (0 < 2 ^ (la - lb + 1)) by (apply Z.pow_pos_nonneg; lia).
      nia.
    + replace (la - lb - 1 + 1) with (la - lb) by lia.
      destruct (Z.leb_spec 0 (la - lb)); [exact Hc | lia].
  - destruct (Z.leb_spec (Zpos b) (Zpos a * 2 ^ (- (la - lb)))) as [Hc | Hc]; cbv zeta.
    + destruct (Z.leb_spec 0 (la - lb + 1)) as [H1 | H1].
      * assert (la - lb + 1 = 0) by lia.
        replace (la - lb + 1) with 0 by lia. change (2 ^ 0) with 1.
        replace (la + 1) with lb in Hla by lia. lia.
      * (* a * 2^(-(d+1)) < 2^(la+1) * 2^(-(d+1)) = 2^lb <= b *)
        assert (E : 2 ^ (la + 1) * 2 ^ (- (la - lb + 1)) = 2 ^ lb).
        { rewrite <- Z.pow_add_r by lia. f_equal. lia. }
        assert (0 < 2 ^ (- (la - lb + 1))) by (apply Z.pow_pos_nonneg; lia).
        nia.
    + replace (la - lb - 1 + 1) with (la - lb) by lia.
      destruct (Z.leb_spec 0 (la - lb)); [lia | exact Hc].
Qed.

(** After the scaling the quotient lies between [2^52] and [2^53]:
    the rounded integer is a significand of 53 bits. *)
Lemma scale_normal a b n d :
  scale a b (ilog2 a b - 52) = (n, d) -> 0 < d /\ d * 2 ^ 52 <= n.
Proof.
  pose proof (ilog2_lower a b) as HL. cbv zeta in HL.
  set (L := ilog2 a b) in *.
  unfold scale.
  destruct (Z.leb_spec 0 (L - 52)) as [He | He]; intros [= <- <-].
  - destruct (Z.leb_spec 0 L); [|lia].
    assert (0 < 2 ^ (L - 52)) by (apply Z.pow_pos_nonneg; lia).
    split; [lia|].
    replace (Zpos b * 2 ^ (L - 52) * 2 ^ 52) with (Zpos b * 2 ^ L); [exact HL|].
    rewrite <- Z.mul_assoc, <- Z.pow_add_r by lia. do 2 f_equal. lia.
  - split; [lia|].
    destruct (Z.leb_spec 0 L).
    + replace (2 ^ (- (L - 52))) with (2 ^ (52 - L)) by (f_equal; lia).
      assert (E : 2 ^ L * 2 ^ (52 - L) = 2 ^ 52).
      { rewrite <- Z.pow_add_r by lia. f_equal. lia. }
      assert (0 < 2 ^ (52 - L)) by (apply Z.pow_pos_nonneg; lia).
      assert (0 < 2 ^ L) by (apply Z.pow_pos_nonneg; lia).
      nia.
    + replace (2 ^ (- (L - 52))) with (2 ^ (- L) * 2 ^ 52).
      * assert (0 < 2 ^ 52) by (apply Z.pow_pos_nonneg; lia). nia.
      * rewrite <- Z.pow_add_r by lia. f_equal. lia.
Qed.

Lemma scale_below a b n d :
  scale a b (ilog2 a b - 52) = (n, d) -> n < d * 2 ^ 53.
Proof.
  pose proof (ilog2_upper a b) as HU. cbv zeta in HU.
  set (L := ilog2 a b) in *.
  unfold scale.
  destruct (Z.leb_spec 0 (L - 52)) as [He | He]; intros [= <- <-].
  - destruct (Z.leb_spec 0 (L + 1)); [|lia].
    replace (Zpos b * 2 ^ (L - 52) * 2 ^ 53) with (Zpos b * 2 ^ (L + 1)); [exact HU|].
    rewrite <- Z.mul_assoc, <- Z.pow_add_r by lia. do 2 f_equal. lia.
  - destruct (Z.leb_spec 0 (L + 1)).
    + (* a < b * 2^(L+1), times 2^(52-L) *)
      assert (E : 2 ^ (L + 1) * 2 ^ (- (L - 52)) = 2 ^ 53).
      { rewrite <- Z.pow_add_r by lia. f_equal. lia. }
      assert (0 < 2 ^ (- (L - 52))) by (apply Z.pow_pos_nonneg; lia).
      nia.
    + (* a * 2^(-(L+1)) < b, times 2^53 *)
      assert (E : 2 ^ (- (L + 1)) * 2 ^ 53 = 2 ^ (- (L - 52))).
      { rewrite <- Z.pow_add_r by lia. f_equal. lia. }
      assert (0 < 2 ^ 53) by (apply Z.pow_pos_nonneg; lia).
      nia.
Qed.

Lemma significand_range a b n d :
  scale a b (ilog2 a b - 52) = (n, d) ->
  2 ^ 52 <= roundNearestEven n d <= 2 ^ 53.
Proof.
  intros Es.
  pose proof (scale_normal _ _ _ _ Es) as [Hd Hlo].
  pose proof (scale_below _ _ _ _ Es) as Hhi.
  pose proof (roundNearestEven_error n d Hd) as Hm.
  change (2 ^ 53) with 9007199254740992 in *.
  change (2 ^ 52) with 4503599627370496 in *.
  nia.
Qed.

Lemma ldexp_nonneg_exp m e : 0 <= e -> (ldexp m e == inject_Z (m * 2 ^ e))%Q.
Proof.
  intros He. unfold ldexp. rewrite Qred_correct.
  destruct (Z.leb_spec 0 e); [reflexivity | lia].
Qed.

Lemma ldexp_neg_exp m e :
  e < 0 -> (ldexp m e * inject_Z (2 ^ (- e)) == inject_Z m)%Q.
Proof.
  intros He. unfold ldexp. rewrite Qred_correct.
  destruct (Z.leb_spec 0 e); [lia|].
  assert (0 < 2 ^ (- e)) by (apply Z.pow_pos_nonneg; lia).
  unfold Qeq, Qmult, inject_Z. cbn [Qnum Qden].
  rewrite Pos.mul_1_r, Z2Pos.id by assumption. lia.
Qed.

(** A positive rational is rounded with a relative error of at most
    [u]. *)
Lemma roundPos_error a b :
  ((Zpos a # b) * (1 - u) <= roundPos a b /\
   roundPos a b <= (Zpos a # b) * (1 + u))%Q.
Proof.
  unfold roundPos.
  destruct (scale a b (ilog2 a b - 52)) as [n d] eqn:Es.
  pose proof (scale_normal _ _ _ _ Es) as [Hd Hn].
  pose proof (roundNearestEven_error n d Hd) as Hm.
  set (m := roundNearestEven n d) in *.
  set (e := ilog2 a b - 52) in *.
  unfold scale in Es.
  destruct (Z.leb_spec 0 e) as [He | He]; injection Es as <- <-.
  - rewrite ldexp_nonneg_exp by assumption.
    assert (0 < 2 ^ e) by (apply Z.pow_pos_nonneg; lia).
    unfold u, Qle, Qmult, Qminus, Qplus, Qopp, inject_Z. cbn [Qnum Qden].
    rewrite !Pos2Z.inj_mul. change (Zpos (2 ^ 53)) with (2 ^ 53).
    change (2 ^ 53) with 9007199254740992 in *. change (2 ^ 52) with 4503599627370496 in *.
    set (K := 2 ^ e) in *. nia.
  - assert (HK : 0 < 2 ^ (- e)) by (apply Z.pow_pos_nonneg; lia).
    pose proof (ldexp_neg_exp m e He) as Hl.
    set (K := 2 ^ (- e)) in *.
    set (v := ldexp m e) in *.
    assert (HKq : (0 < inject_Z K)%Q) by (unfold Qlt, inject_Z; cbn; lia).
    assert (Hlo : ((Zpos a # b) * (1 - u) * inject_Z K <= inject_Z m)%Q).
    { unfold u, Qle, Qmult, Qminus, Qplus, Qopp, inject_Z. cbn [Qnum Qden].
      rewrite !Pos2Z.inj_mul. change (Zpos (2 ^ 53)) with (2 ^ 53).
      change (2 ^ 53) with 9007199254740992 in *.
      change (2 ^ 52) with 4503599627370496 in *. nia. }
    assert (Hhi : (inject_Z m <= (Zpos a # b) * (1 + u) * inject_Z K)%Q).
    { unfold u, Qle, Qmult, Qminus, Qplus, Qopp, inject_Z. cbn [Qnum Qden].
      rewrite !Pos2Z.inj_mul. change (Zpos (2 ^ 53)) with (2 ^ 53).
      change (2 ^ 53) with 9007199254740992 in *.
      change (2 ^ 52) with 4503599627370496 in *. nia. }
    rewrite <- Hl in Hlo, Hhi.
    split.
    + apply Qmult_le_r in Hlo; assumption.
    + apply Qmult_le_r in Hhi; assumption.
Qed.

Lemma RN_error x :
  (0 <= x -> x * (1 - u) <= RN x /\ RN x <= x * (1 + u))%Q.
Proof.
  intros Hx. unfold RN. destruct x as [num den]. cbn [Qnum Qden].
  destruct num as [|a|a].
  - unfold Qle, Qmult; cbn. lia.
  - apply roundPos_error.
  - unfold Qle in Hx. cbn in Hx. lia.
Qed.

Lemma RN_nonneg x : (0 <= x -> 0 <= RN x)%Q.
Proof.
  intros Hx. pose proof (RN_error x Hx) as [H _].
  unfold u in H. change (2 ^ 53)%positive with 9007199254740992%positive in H.
  lra.
Qed.

Lemma toFixedPos_bounds f x :
  (inject_Z (toFixedPos f x) <= x * inject_Z (10 ^ Z.of_nat f) + (1 # 2) /\
   x * inject_Z (10 ^ Z.of_nat f) + (1 # 2) < inject_Z (toFixedPos f x) + 1)%Q.
Proof.
  unfold toFixedPos. split.
  - apply Qfloor_le.
  - pose proof (Qlt_floor (x * inject_Z (10 ^ Z.of_nat f) + (1 # 2))) as H.
    rewrite inject_Z_plus in H. exact H.
Qed.

End FloatTheory.

(** * Properties of the classifier *)

Module ClassifierTheory.

Import Float FloatTheory Unicode Classifier.
Local Open Scope string_scope.
Local Open Scope list_scope.
Local Open Scope Z_scope.

(** ** A percentage is within a hundredth of the exact ratio *)

Lemma percentage_error c t :
  0 <= c <= t -> 0 < t ->
  (100 * (inject_Z c / inject_Z t) - (1 # 100) <= percentage c t /\
   percentage c t <= 100 * (inject_Z c / inject_Z t) + (1 # 100))%Q.
Proof.
  intros Hc Ht. unfold percentage, parseFixed, fmul, fdiv.
  set (q := (inject_Z c / inject_Z t)%Q).
  assert (Hq : (0 <= q /\ q <= 1)%Q).
  { unfold q. assert (0 < inject_Z t)%Q by (unfold Qlt, inject_Z; cbn; lia).
    split.
    - apply Qle_shift_div_l; [assumption|]. unfold Qle, inject_Z; cbn; lia.
    - apply Qle_shift_div_r; [assumption|]. unfold Qle, inject_Z; cbn; lia. }
  destruct Hq as [Hq0 Hq1].
  pose proof (RN_error q Hq0) as [H1l H1u].
  pose proof (RN_nonneg q Hq0) as H1p.
  set (x1 := RN q) in *.
  assert (Hx1 : (0 <= x1 * 100)%Q) by lra.
  pose proof (RN_error _ Hx1) as [H2l H2u].
  pose proof (RN_nonneg _ Hx1) as H2p.
  set (x2 := RN (x1 * 100)) in *.
  unfold toFixed.
  assert (Hb : Qle_bool 0 x2 = true) by (apply Qle_bool_iff; assumption).
  rewrite Hb.
  pose proof (toFixedPos_bounds 2 x2) as [H3l H3u].
  change (inject_Z (10 ^ Z.of_nat 2)) with 100%Q in *.
  set (n := toFixedPos 2 x2) in *.
  assert (Hn : (0 <= inject_Z n / 100)%Q).
  { assert (H : 0 <= n).
    { unfold n, toFixedPos. change 0 with (Qfloor 0). apply Qfloor_resp_le.
      change (inject_Z (10 ^ Z.of_nat 2)) with 100%Q. lra. }
    apply Qle_shift_div_l; [reflexivity|].
    rewrite Zle_Qle in H. change (inject_Z 0) with 0%Q in H. lra. }
  pose proof (RN_error _ Hn) as [H4l H4u].
  set (y := (inject_Z n / 100)%Q) in *.
  assert (Hy : (y * 100 == inject_Z n)%Q) by (unfold y; field).
  unfold u in *. clearbody q x1 x2 n y.
  change (2 ^ 53)%positive with 9007199254740992%positive in *.
  split; lra.
Qed.

(** ** Strings *)

Lemma eqb_spec (a b : Text) : reflect (a = b) (eqb a b).
Proof.
  revert b. induction a as [|x a IH]; intros [|y b]; cbn; try (constructor; congruence).
  destruct (N.eqb_spec x y) as [->|Hne]; cbn.
  - destruct (IH b) as [->|Hne]; constructor; congruence.
  - constructor. congruence.
Qed.

Lemma isSpace_spec c : isSpace c = true <-> In c whiteSpace.
Proof.
  unfold isSpace. rewrite existsb_exists. split.
  - intros (x & Hx & E). apply N.eqb_eq in E. now subst.
  - intros H. exists c. split; [assumption | apply N.eqb_refl].
Qed.

(** The upper case of a white space is itself. *)
Lemma upperChar_space c : isSpace c = true -> upperChar c = [c].
Proof.
  intros H. apply isSpace_spec in H. unfold whiteSpace in H. cbn [In] in H.
  repeat (destruct H as [<-|H]; [vm_compute; reflexivity|]). contradiction.
Qed.

(** No image of a run, and no code point of a special upper case,
    is a white space. *)
Lemma runs_off_spaces :
  forallb (fun run : N * N * N * N =>
             let '(first, last, _, image) := run in
             forallb (fun w => negb ((image <=? w) && (w <=? image + (last - first)))%N)
                     whiteSpace)
          simpleUppercase = true.
Proof. vm_compute. reflexivity. Qed.

Lemma specials_off_spaces :
  forallb (fun e : N * list N =>
             match snd e with
             | [] => false
             | l => forallb (fun d => negb (isSpace d)) l
             end)
          specialCasing = true.
Proof. vm_compute. reflexivity. Qed.

(** The upper case of another code point holds no white space, and
    is not empty. *)
Lemma upperChar_letter c :
  isSpace c = false ->
  upperChar c <> [] /\ List.Forall (fun d => isSpace d = false) (upperChar c).
Proof.
  intros Hc. unfold upperChar.
  destruct (List.find (inRun c) simpleUppercase) as [[[[first last] step] image]|] eqn:Er.
  - apply List.find_some in Er as [Hin Hrun].
    pose proof runs_off_spaces as Hall. rewrite forallb_forall in Hall.
    specialize (Hall _ Hin). cbn beta iota in Hall. rewrite forallb_forall in Hall.
    split; [discriminate|]. constructor; [|constructor].
    apply not_true_iff_false. intros Hs. apply isSpace_spec in Hs.
    specialize (Hall _ Hs). apply negb_true_iff, andb_false_iff in Hall.
    unfold inRun in Hrun. apply andb_true_iff in Hrun as [Hrun _].
    apply andb_true_iff in Hrun as [H1 H2].
    apply N.leb_le in H1, H2. destruct Hall as [H|H]; apply N.leb_gt in H; lia.
  - destruct (List.find (fun e => (fst e =? c)%N) specialCasing) as [e|] eqn:Es.
    + apply List.find_some in Es as [Hin _].
      pose proof specials_off_spaces as Hall. rewrite forallb_forall in Hall.
      specialize (Hall _ Hin). destruct (snd e) as [|d l]; [discriminate|].
      split; [discriminate|]. rewrite forallb_forall in Hall.
      apply List.Forall_forall. intros x Hx. specialize (Hall x Hx).
      now apply negb_true_iff in Hall.
    + split; [discriminate|]. now constructor.
Qed.

Lemma trimStart_letter l m :
  l <> [] -> List.Forall (fun d => isSpace d = false) l ->
  trimStart (l ++ m) = (l ++ m)%list.
Proof.
  destruct l as [|d l]; [contradiction|]. intros _ H.
  inversion_clear H as [|? ? Hd _]. cbn [app trimStart]. now rewrite Hd.
Qed.

Lemma trimEnd_letter l m :
  List.Forall (fun d => isSpace d = false) l ->
  trimEnd (l ++ m) = (l ++ trimEnd m)%list.
Proof.
  induction 1 as [|d l Hd _ IH]; [reflexivity|].
  cbn [app trimEnd]. rewrite IH.
  destruct (l ++ trimEnd m)%list; [now rewrite Hd | reflexivity].
Qed.

Lemma toUpperCase_nil s : toUpperCase s = [] -> s = [].
Proof.
  destruct s as [|c r]; [reflexivity|]. cbn [toUpperCase flat_map]. intros H.
  apply app_eq_nil in H as [H _]. destruct (isSpace c) eqn:Ec.
  - now rewrite upperChar_space in H.
  - now destruct (upperChar_letter c Ec).
Qed.

Lemma toUpperCase_trimStart s : toUpperCase (trimStart s) = trimStart (toUpperCase s).
Proof.
  induction s as [|c r IH]; [reflexivity|]. cbn [trimStart toUpperCase flat_map].
  destruct (isSpace c) eqn:Ec.
  - rewrite (upperChar_space c Ec). cbn [app trimStart]. now rewrite Ec.
  - destruct (upperChar_letter c Ec) as [Hne Hl].
    now rewrite (trimStart_letter _ _ Hne Hl).
Qed.

Lemma toUpperCase_trimEnd s : toUpperCase (trimEnd s) = trimEnd (toUpperCase s).
Proof.
  induction s as [|c r IH]; [reflexivity|]. cbn [trimEnd toUpperCase flat_map].
  fold (toUpperCase r).
  assert (forall x r', toUpperCase (x :: r') <> []) as Hne'.
  { intros x r' E. now apply toUpperCase_nil in E. }
  destruct (Bool.bool_dec (isSpace c) true) as [Ec|Ec].
  - rewrite (upperChar_space c Ec). cbn [app trimEnd]. rewrite <- IH.
    destruct (trimEnd r) as [|x r'].
    + cbn [toUpperCase flat_map]. now rewrite Ec.
    + specialize (Hne' x r'). cbn [toUpperCase flat_map] in Hne' |- *.
      rewrite (upperChar_space c Ec). cbn [app].
      now destruct (upperChar x ++ flat_map upperChar r').
  - apply not_true_is_false in Ec.
    destruct (upperChar_letter c Ec) as [Hne Hl].
    rewrite (trimEnd_letter _ _ Hl), <- IH.
    destruct (trimEnd r) as [|x r']; cbn [toUpperCase flat_map].
    + now rewrite Ec.
    + reflexivity.
Qed.

Lemma toUpperCase_trim s : toUpperCase (trim s) = trim (toUpperCase s).
Proof. unfold trim. now rewrite toUpperCase_trimEnd, toUpperCase_trimStart. Qed.

(** White space around a text is trimmed away, however much of it. *)
Lemma trimStart_spaces pre s :
  (forall c, In c pre -> isSpace c = true) -> trimStart (pre ++ s) = trimStart s.
Proof.
  induction pre as [|c pre IH]; intros H; [reflexivity|]. cbn [app trimStart].
  rewrite (H c (or_introl eq_refl)). apply IH. intros d Hd. apply H. now right.
Qed.

Lemma trimEnd_spaces_only post :
  (forall c, In c post -> isSpace c = true) -> trimEnd post = [].
Proof.
  induction post as [|c post IH]; intros H; [reflexivity|]. cbn [trimEnd].
  rewrite IH by (intros d Hd; apply H; now right).
  now rewrite (H c (or_introl eq_refl)).
Qed.

Lemma trimEnd_spaces s post :
  (forall c, In c post -> isSpace c = true) -> trimEnd (s ++ post) = trimEnd s.
Proof.
  intros H. induction s as [|c s IH]; cbn [app trimEnd].
  - now apply trimEnd_spaces_only.
  - now rewrite IH.
Qed.

Lemma trimStart_app s post :
  (forall c, In c post -> isSpace c = true) ->
  trimEnd (trimStart (s ++ post)) = trimEnd (trimStart s).
Proof.
  intros H. induction s as [|c s IH]; cbn [app trimStart].
  - pose proof (trimStart_spaces post [] H) as E. rewrite app_nil_r in E.
    cbn [app]. now rewrite E.
  - destruct (isSpace c); [exact IH|].
    exact (trimEnd_spaces (c :: s) post H).
Qed.

Lemma trim_padding pre s post :
  (forall c, In c pre -> isSpace c = true) ->
  (forall c, In c post -> isSpace c = true) ->
  trim (pre ++ s ++ post) = trim s.
Proof.
  intros Hpre Hpost. unfold trim.
  now rewrite trimStart_spaces, trimStart_app.
Qed.

Lemma findIndex_lt {A} (p : A -> bool) l i : findIndex p l = Some i -> (i < length l)%nat.
Proof.
  revert i. induction l as [|x r IH]; cbn; [discriminate|].
  intros i. destruct (p x).
  - intros [= <-]. lia.
  - destruct (findIndex p r) as [j|]; cbn; [|discriminate].
    intros [= <-]. specialize (IH j eq_refl). lia.
Qed.

(** ** The if chain is the classification *)

Lemma categoryOf_chain status :
  categoryOf status =
  if eqb status "OK" || eqb status "CONFORME" then Conformant
  else if eqb status "ALERTA" || eqb status "HALLAZGO" then MinorFinding
  else if eqb status "DESCARTE" || eqb status "NO_ADMITIDA"
          || eqb status "RECHAZADO" then NotAdmitted
  else Conformant.
Proof.
  unfold categoryOf, texts. cbn [map].
  destruct (eqb_spec status "OK") as [->|H1]; [reflexivity|].
  destruct (eqb_spec status "CONFORME") as [->|H2]; [reflexivity|].
  destruct (eqb_spec status "ALERTA") as [->|H3]; [reflexivity|].
  destruct (eqb_spec status "HALLAZGO") as [->|H4]; [reflexivity|].
  destruct (eqb_spec status "DESCARTE") as [->|H5]; [reflexivity|].
  destruct (eqb_spec status "NO_ADMITIDA") as [->|H6]; [reflexivity|].
  destruct (eqb_spec status "RECHAZADO") as [->|H7]; [reflexivity|].
  cbn [orb].
  rewrite !bool_decide_eq_false_2; [reflexivity| |];
    rewrite !elem_of_cons, elem_of_nil; tauto.
Qed.

Lemma countStatus_category status c :
  countStatus status c = addUnit (categoryOf status) c.
Proof.
  rewrite categoryOf_chain. unfold countStatus.
  repeat match goal with |- context [if ?b then _ else _] => destruct b end; reflexivity.
Qed.

Lemma countCategory_cons k u units :
  countCategory k (u :: units) =
  (if Category_eqb (categoryOf u) k then 1 else 0) + countCategory k units.
Proof.
  unfold countCategory. cbn [List.filter].
  destruct (Category_eqb (categoryOf u) k); cbn [length]; lia.
Qed.

Lemma countCategory_nonneg k units : 0 <= countCategory k units.
Proof. unfold countCategory. lia. Qed.

Lemma countCategory_total units :
  countCategory Conformant units + countCategory MinorFinding units
  + countCategory NotAdmitted units = Z.of_nat (length units).
Proof.
  induction units as [|x r IH]; [reflexivity|].
  rewrite !countCategory_cons. cbn [length].
  destruct (categoryOf x); cbn [Category_eqb]; lia.
Qed.

Lemma rowStatus_defined headers statusIndex values :
  (forall i, statusIndex = Some i -> (i < length headers)%nat) ->
  hasEnoughColumns headers values = true ->
  exists status, rowStatus statusIndex values = Some status.
Proof.
  intros Hi Hc. unfold rowStatus. destruct statusIndex as [i|]; [|eauto].
  specialize (Hi i eq_refl). unfold hasEnoughColumns in Hc.
  apply andb_true_iff in Hc. destruct Hc as [Hc _]. apply Nat.leb_le in Hc.
  destruct (nth_error values i) as [v|] eqn:E; cbn; [eauto|].
  apply nth_error_None in E. lia.
Qed.

(** The loop, from any counters: it never throws, and every counted
    row adds one to the total and one to the counter of the category
    of its status. *)
Lemma countRows_units headers statusIndex rows : forall c,
  (forall i, statusIndex = Some i -> (i < length headers)%nat) ->
  exists c', countRows headers statusIndex c rows = Some c' /\
    let units := unitsOfRows headers statusIndex rows in
    totalFrutas c' = totalFrutas c + Z.of_nat (length units) /\
    frutasConformes c' = frutasConformes c + countCategory Conformant units /\
    frutasConHallazgos c' = frutasConHallazgos c + countCategory MinorFinding units /\
    frutasNoAdmitidas c' = frutasNoAdmitidas c + countCategory NotAdmitted units.
Proof.
  induction rows as [|line rest IH]; intros c Hi.
  - exists c. split; [reflexivity|]. cbn. unfold countCategory. cbn. lia.
  - cbn [countRows unitsOfRows omap list_omap]. unfold countRow.
    destruct (hasEnoughColumns headers (rowValues line)) eqn:Hc.
    + destruct (rowStatus_defined _ _ _ Hi Hc) as [status Es]. rewrite Es.
      cbn [mbind option_bind].
      destruct (IH (countStatus status
                      (mkCounters (totalFrutas c + 1) (frutasConformes c)
                         (frutasConHallazgos c) (frutasNoAdmitidas c))) Hi)
        as (c' & E & Ht & Hk1 & Hk2 & Hk3).
      exists c'. split; [exact E|]. cbv zeta in *.
      fold (unitsOfRows headers statusIndex rest).
      rewrite !countCategory_cons. cbn [length].
      rewrite countStatus_category in Ht, Hk1, Hk2, Hk3.
      destruct (categoryOf status); cbn in Ht, Hk1, Hk2, Hk3 |- *; lia.
    + cbn [mbind option_bind].
      destruct (IH c Hi) as (c' & E & H). exists c'. split; [exact E | exact H].
Qed.

Lemma countCsv_units csvContent :
  exists c, countCsv csvContent = Some c /\
    let units := unitsOf csvContent in
    totalFrutas c = Z.of_nat (length units) /\
    frutasConformes c = countCategory Conformant units /\
    frutasConHallazgos c = countCategory MinorFinding units /\
    frutasNoAdmitidas c = countCategory NotAdmitted units.
Proof.
  unfold countCsv, unitsOf.
  destruct (csvLines csvContent) as [|header [|row rows]].
  - exists noCounts. split; [reflexivity|]. cbn. repeat split.
  - exists noCounts. split; [reflexivity|]. cbn. repeat split.
  - destruct (countRows_units (csvHeaders header) (csvStatusIndex (csvHeaders header))
                (row :: rows) noCounts) as (c & E & H).
    + intros i. apply findIndex_lt.
    + exists c. split; [exact E|]. cbn [totalFrutas frutasConformes frutasConHallazgos
                                         frutasNoAdmitidas noCounts] in H.
      cbv zeta in *. rewrite !Z.add_0_l in H. exact H.
Qed.

Lemma countUpload_sound file :
  let c := countUpload file in
  0 < totalFrutas c /\ 0 <= frutasConformes c /\ 0 <= frutasConHallazgos c /\
  0 <= frutasNoAdmitidas c /\
  frutasConformes c + frutasConHallazgos c + frutasNoAdmitidas c = totalFrutas c.
Proof.
  unfold countUpload. destruct file as [csvContent|]; cbn [mbind option_bind].
  - destruct (countCsv_units csvContent) as (c & E & Ht & H1 & H2 & H3).
    rewrite E. cbv zeta in *.
    pose proof (countCategory_total (unitsOf csvContent)) as Hsum.
    pose proof (countCategory_nonneg Conformant (unitsOf csvContent)).
    pose proof (countCategory_nonneg MinorFinding (unitsOf csvContent)).
    pose proof (countCategory_nonneg NotAdmitted (unitsOf csvContent)).
    unfold defaultIfEmpty.
    destruct (Z.eqb_spec (totalFrutas c) 0); cbn; lia.
  - cbn. lia.
Qed.

Lemma categoryOf_table status :
  (status ∈ texts ["OK"; "CONFORME"] -> categoryOf status = Conformant) /\
  (status ∈ texts ["ALERTA"; "HALLAZGO"] <-> categoryOf status = MinorFinding) /\
  (status ∈ texts ["DESCARTE"; "NO_ADMITIDA"; "RECHAZADO"] <->
   categoryOf status = NotAdmitted) /\
  (status ∉ texts ["ALERTA"; "HALLAZGO"; "DESCARTE"; "NO_ADMITIDA"; "RECHAZADO"] ->
   categoryOf status = Conformant).
Proof.
  rewrite categoryOf_chain. unfold texts. cbn [map].
  destruct (eqb_spec status "OK") as [->|H1];
  [|destruct (eqb_spec status "CONFORME") as [->|H2];
  [|destruct (eqb_spec status "ALERTA") as [->|H3];
  [|destruct (eqb_spec status "HALLAZGO") as [->|H4];
  [|destruct (eqb_spec status "DESCARTE") as [->|H5];
  [|destruct (eqb_spec status "NO_ADMITIDA") as [->|H6];
  [|destruct (eqb_spec status "RECHAZADO") as [->|H7]]]]]]];
  cbn [orb]; rewrite ?elem_of_cons, ?elem_of_nil;
  intuition (try discriminate; try congruence).
Qed.

(** C4: the loop never throws, and it assigns every unit (every data
    row it counts) to exactly one category, the one of its normalised
    status: OK and CONFORME are conformant, ALERTA and HALLAZGO minor
    findings, DESCARTE, NO_ADMITIDA and RECHAZADO not admitted, and
    every other status conformant.  The status of a row depends on
    its cells only up to letter case, and the white space around a
    cell does not count. *)
Theorem classifier_counts_by_category csvContent :
  exists c, countCsv csvContent = Some c /\
    let units := unitsOf csvContent in
    totalFrutas c = Z.of_nat (length units) /\
    frutasConformes c = countCategory Conformant units /\
    frutasConHallazgos c = countCategory MinorFinding units /\
    frutasNoAdmitidas c = countCategory NotAdmitted units /\
    frutasConformes c + frutasConHallazgos c + frutasNoAdmitidas c = totalFrutas c /\
    (forall status,
       (status ∈ texts ["OK"; "CONFORME"] -> categoryOf status = Conformant) /\
       (status ∈ texts ["ALERTA"; "HALLAZGO"] <-> categoryOf status = MinorFinding) /\
       (status ∈ texts ["DESCARTE"; "NO_ADMITIDA"; "RECHAZADO"] <->
        categoryOf status = NotAdmitted) /\
       (status ∉ texts ["ALERTA"; "HALLAZGO"; "DESCARTE"; "NO_ADMITIDA"; "RECHAZADO"] ->
        categoryOf status = Conformant)) /\
    (forall statusIndex values values',
       map toUpperCase values = map toUpperCase values' ->
       rowStatus statusIndex values = rowStatus statusIndex values') /\
    (forall pre cell post,
       (forall c, In c pre -> isSpace c = true) ->
       (forall c, In c post -> isSpace c = true) ->
       toUpperCase (trim (pre ++ cell ++ post)) = toUpperCase (trim cell)).
Proof.
  destruct (countCsv_units csvContent) as (c & E & Ht & H1 & H2 & H3).
  exists c. split; [exact E|]. cbv zeta in *.
  repeat (split; [assumption|]).
  split; [rewrite Ht, H1, H2, H3; apply countCategory_total|].
  split; [apply categoryOf_table|].
  split.
  - intros [i|] values values' Hm; [|reflexivity].
    unfold rowStatus.
    assert (Hn : nth_error (map toUpperCase values) i
                 = nth_error (map toUpperCase values') i) by now rewrite Hm.
    rewrite !nth_error_map in Hn.
    destruct (nth_error values i) as [a|], (nth_error values' i) as [b|];
      cbn in Hn |- *; try discriminate; [|reflexivity].
    injection Hn as Hn. now rewrite !toUpperCase_trim, Hn.
  - intros pre cell post Hpre Hpost. now rewrite trim_padding.
Qed.

Lemma ratios_sum_to_one a b c t :
  0 < t -> a + b + c = t ->
  (inject_Z a / inject_Z t + inject_Z b / inject_Z t + inject_Z c / inject_Z t == 1)%Q.
Proof.
  intros Ht <-. rewrite !inject_Z_plus.
  assert (~ (inject_Z a + inject_Z b + inject_Z c == 0)%Q).
  { rewrite <- !inject_Z_plus. unfold Qeq, inject_Z; cbn. lia. }
  field. assumption.
Qed.

Lemma classifier_counts_by_category_witness :
  exists c, countCsv Scenario.sampleCsv = Some c /\
    totalFrutas c = 6 /\ frutasConformes c = 3 /\
    frutasConHallazgos c = 1 /\ frutasNoAdmitidas c = 2.
Proof.
  destruct (classifier_counts_by_category Scenario.sampleCsv)
    as (c & E & Ht & H1 & H2 & H3 & _).
  exists c. split; [exact E|].
  rewrite Ht, H1, H2, H3. vm_compute. repeat split.
Defined.

(** C5: in every stored breakdown the three counts add up to the
    total, and the three percentages, each
    [parseFloat((count / total * 100).toFixed(2))] in binary64
    arithmetic, add up to 100 within 0.1. *)
Theorem quality_breakdown_invariant file :
  let q := calidadFruta file in
  conformes q + hallazgosMenores q + noAdmitidas q = total q /\
  (Qabs (porcentajeConformes q + porcentajeHallazgos q + porcentajeNoAdmitida q - 100)
   <= 1 # 10)%Q.
Proof.
  pose proof (countUpload_sound file) as (Ht & H1 & H2 & H3 & Hsum).
  cbv zeta in *. unfold calidadFruta.
  cbn [conformes hallazgosMenores noAdmitidas total
       porcentajeConformes porcentajeHallazgos porcentajeNoAdmitida].
  set (c := countUpload file) in *.
  split; [exact Hsum|].
  pose proof (percentage_error (frutasConformes c) (totalFrutas c) ltac:(lia) Ht) as [A1 A2].
  pose proof (percentage_error (frutasConHallazgos c) (totalFrutas c) ltac:(lia) Ht) as [B1 B2].
  pose proof (percentage_error (frutasNoAdmitidas c) (totalFrutas c) ltac:(lia) Ht) as [C1 C2].
  pose proof (ratios_sum_to_one _ _ _ _ Ht Hsum) as Hone.
  apply Qabs_Qle_condition.
  split; lra.
Qed.

(** C6: when the file has no data row that counts (or cannot be
    read), nothing is divided by zero and the upload does not fail:
    the breakdown is the single synthetic conformant unit, total 1,
    conformant 1, no findings, none not admitted, 100 % conformant;
    it is the breakdown of the record the upload makes, answers with
    and adds to the history, and the dashboard reads the lot as
    Conforme. *)
Theorem empty_input_default_unit io f userId st :
  unitsOfFile (Server.content f) = [] ->
  let oneUnit := mkCalidadFruta 1 1 0 0 0 100 0 [] in
  let record := Server.uploadRecord io f userId in
  calidadFruta (Server.content f) = oneUnit /\
  Server.calidadFruta record = Some oneUnit /\
  (Server.writable io = true ->
   Server.upload io (Some f) userId st =
     (Server.Success record,
      Server.mkStore (Server.history st ++ [record])
                     ({[ Server.path f ]} ∪ Server.files st))) /\
  Dashboard.determineBatchStatus (Server.toHistoryRecord record) = Dashboard.Conforme.
Proof.
  intros Hu.
  assert (Hc : match csvContent ← Server.content f; countCsv csvContent with
               | Some c => c = noCounts
               | None => True
               end).
  { destruct (Server.content f) as [csvContent|]; cbn [mbind option_bind]; [|exact I].
    destruct (countCsv_units csvContent) as (c & E & Ht & H1 & H2 & H3).
    rewrite E. cbn [unitsOfFile] in Hu. cbv zeta in *. rewrite Hu in *.
    destruct c. cbn in *. subst. reflexivity. }
  assert (calidadFruta (Server.content f) = mkCalidadFruta 1 1 0 0 0 100 0 []) as Eq.
  { unfold calidadFruta, defectosOf, countUpload.
    destruct (csvContent ← Server.content f; countCsv csvContent) as [c|];
      [subst c|]; reflexivity. }
  cbv zeta. unfold Server.uploadRecord at 1. cbn [Server.calidadFruta].
  split; [exact Eq|]. split; [now rewrite Eq|]. split.
  - intros Hw. unfold Server.upload, Server.saveHistory.
    cbn [Server.history Server.files]. now rewrite Hw.
  - unfold Dashboard.determineBatchStatus, Server.toHistoryRecord, Server.uploadRecord.
    cbn [Dashboard.calidadFruta Server.calidadFruta]. rewrite Eq. reflexivity.
Qed.

Lemma empty_input_default_unit_witness :
  Server.upload Server.online
    (Some (Server.mkUploadedFile "vacio.csv" "3-vacio.csv" 31 "uploads/3-vacio.csv"
             (Some (text "LOTE_ID,VARIEDAD,CALIDAD_STATUS"))))
    None Server.emptyStore
  = (Server.Success
       (Server.mkUploadRecord "3-c" "vacio.csv" "3-vacio.csv" 31 1762344000000
          "Completada" "0x3c3c3c3c3c3c3c3c" "anonymous" "uploads/3-vacio.csv"
          (Some (mkCalidadFruta 1 1 0 0 0 100 0 [])) None None),
     Server.mkStore
       [Server.mkUploadRecord "3-c" "vacio.csv" "3-vacio.csv" 31 1762344000000
          "Completada" "0x3c3c3c3c3c3c3c3c" "anonymous" "uploads/3-vacio.csv"
          (Some (mkCalidadFruta 1 1 0 0 0 100 0 [])) None None]
       ({[ "uploads/3-vacio.csv" ]} ∪ ∅)).
Proof.
  pose proof (empty_input_default_unit Server.online
    (Server.mkUploadedFile "vacio.csv" "3-vacio.csv" 31 "uploads/3-vacio.csv"
       (Some (text "LOTE_ID,VARIEDAD,CALIDAD_STATUS")))
    None Server.emptyStore) as H.
  cbv zeta in H. destruct H as (Eq & _ & Hup & _).
  - vm_compute. reflexivity.
  - rewrite (Hup eq_refl). unfold Server.uploadRecord.
    cbn [Server.content Server.originalname Server.filename Server.fileSize Server.path
         Server.history Server.emptyStore Server.files app] in Eq |- *.
    rewrite Eq. reflexivity.
Defined.

End ClassifierTheory.

(** * Properties of the dashboard *)

Module DashboardTheory.

Import Float FloatTheory Dashboard.
Local Open Scope string_scope.
Local Open Scope list_scope.
Local Open Scope Z_scope.

Arguments keyOf : simpl never.

Lemma gt_spec x y : gt x y = true <-> (y < x)%Q.
Proof.
  unfold gt. rewrite negb_true_iff. split.
  - intros H. apply Qnot_le_lt. intros Hle. apply Qle_bool_iff in Hle. congruence.
  - intros H. destruct (Qle_bool x y) eqn:E; [|reflexivity].
    apply Qle_bool_iff in E. exfalso. apply (Qlt_not_le _ _ H E).
Qed.

(** C7: the status of a record is derived from the classifier output
    alone: Pendiente when there is none; otherwise Descarte when the
    not-admitted percentage exceeds 15, else Hallazgo when it or the
    minor-findings percentage is positive, else Conforme.  Two records
    with the same classifier output have the same status, whatever
    verdict [simResult] carries. *)
Theorem status_from_classifier_only record :
  (calidadFruta record = None -> determineBatchStatus record = Pendiente) /\
  (forall q, calidadFruta record = Some q ->
     let notAdmittedPct := Classifier.porcentajeNoAdmitida q in
     let minorFindingsPct := Classifier.porcentajeHallazgos q in
     ((15 < notAdmittedPct)%Q -> determineBatchStatus record = Descarte) /\
     ((notAdmittedPct <= 15)%Q ->
      ((0 < notAdmittedPct)%Q \/ (0 < minorFindingsPct)%Q) ->
      determineBatchStatus record = Hallazgo) /\
     ((notAdmittedPct <= 0)%Q -> (minorFindingsPct <= 0)%Q ->
      determineBatchStatus record = Conforme)) /\
  (forall other, calidadFruta other = calidadFruta record ->
     determineBatchStatus other = determineBatchStatus record).
Proof.
  unfold determineBatchStatus.
  split; [intros ->; reflexivity|].
  split; [|intros other ->; reflexivity].
  intros q ->. cbv zeta.
  destruct (gt (Classifier.porcentajeNoAdmitida q) 15) eqn:E15;
  destruct (gt (Classifier.porcentajeHallazgos q) 0) eqn:EH;
  destruct (gt (Classifier.porcentajeNoAdmitida q) 0) eqn:EN;
  cbn [orb];
  repeat match goal with
  | H : gt _ _ = true |- _ => apply gt_spec in H
  | H : gt _ _ = false |- _ =>
      apply not_true_iff_false in H; rewrite gt_spec in H; apply Qnot_lt_le in H
  end;
  repeat split; intros; try reflexivity; exfalso; try lra;
  try (destruct H0; lra); try (destruct H1; lra).
Qed.

Lemma status_from_classifier_only_witness :
  determineBatchStatus (Scenario.lot Scenario.nov5_2024 8) = Hallazgo.
Proof.
  destruct (status_from_classifier_only (Scenario.lot Scenario.nov5_2024 8))
    as (_ & H & _).
  destruct (H _ eq_refl) as (_ & Hh & _).
  apply Hh.
  - vm_compute. discriminate.
  - right. vm_compute. reflexivity.
Defined.

(** C9, as stated, fails: for an empty history the breakdown holds no
    count at all, not three zero counts. *)
Lemma empty_history_has_no_breakdown_counts :
  breakdownData (breakdown (charts (processData Scenario.utc [] "Global"))) <> [0; 0; 0].
Proof. vm_compute. discriminate. Qed.

(** C9, amended: on an empty history [processData] returns, without
    any division, the summary with 0 audits completed, 0 rejected, a
    conformity of 0, an empty trend series and an empty breakdown (no
    label and no count); the three labelled counts are there for a
    non-empty history only. *)
Theorem empty_history_summary zoneOffset filter :
  processData zoneOffset [] filter =
    mkProcessed (mkKpis (Number 0) 0 "N/A" 0)
                (mkCharts (mkTrend [] []) (mkBreakdown [] []))
  /\
  (forall data, data <> [] ->
     let summary := processData zoneOffset data filter in
     completadas (kpis summary) = Z.of_nat (length data) /\
     0 < completadas (kpis summary) /\
     breakdownLabels (breakdown (charts summary)) = ["Descarte"; "Hallazgo"; "Conforme"] /\
     length (breakdownData (breakdown (charts summary))) = 3%nat).
Proof.
  split; [reflexivity|].
  intros data Hne. unfold processData.
  destruct (Z.eqb_spec (Z.of_nat (length data)) 0) as [E|_].
  - destruct data; [contradiction | discriminate].
  - cbn. repeat split. destruct data; [contradiction | cbn; lia].
Qed.

Lemma empty_history_summary_witness :
  completadas (kpis (processData Scenario.utc Scenario.yearApart "Global")) = 3.
Proof.
  destruct (empty_history_summary Scenario.utc "Global") as [_ H].
  destruct (H Scenario.yearApart) as [E _]; [discriminate|].
  rewrite E. reflexivity.
Defined.

(** ** The sort *)

Lemma insertByDate_perm r l : Permutation (r :: l) (insertByDate r l).
Proof.
  induction l as [|x rest IH]; cbn; [reflexivity|].
  destruct (date r <=? date x); [reflexivity|].
  rewrite perm_swap. now apply perm_skip.
Qed.

Lemma sortByDate_perm l : Permutation l (sortByDate l).
Proof.
  induction l as [|r rest IH]; cbn; [reflexivity|].
  rewrite <- insertByDate_perm. now apply perm_skip.
Qed.

Lemma insertByDate_sorted r l : Sorted byDate l -> Sorted byDate (insertByDate r l).
Proof.
  induction l as [|x rest IH]; cbn; intros Hs.
  - repeat constructor.
  - destruct (Z.leb_spec (date r) (date x)) as [Hle|Hgt].
    + constructor; [assumption|]. constructor. exact Hle.
    + inversion Hs as [|? ? Hrest Hhd]; subst.
      constructor; [now apply IH|].
      destruct rest as [|y rest']; cbn.
      * constructor. unfold byDate. lia.
      * destruct (Z.leb_spec (date r) (date y)).
        -- constructor. unfold byDate. lia.
        -- inversion Hhd; subst. constructor. assumption.
Qed.

Lemma sortByDate_sorted l : StronglySorted byDate (sortByDate l).
Proof.
  apply Sorted_StronglySorted.
  - intros a b c. unfold byDate. lia.
  - induction l as [|r rest IH]; cbn; [constructor|]. now apply insertByDate_sorted.
Qed.

(** ** The map of the buckets *)

Lemma DayKey_eqb_eq a b : DayKey_eqb a b = true <-> a = b.
Proof.
  unfold DayKey_eqb. destruct a as [a1 a2], b as [b1 b2]. cbn.
  rewrite andb_true_iff, !Z.eqb_eq. split; [intros [-> ->]; reflexivity|].
  intros [= -> ->]. split; reflexivity.
Qed.

Lemma DayKey_eqb_refl a : DayKey_eqb a a = true.
Proof. now apply DayKey_eqb_eq. Qed.

Lemma DayKey_eqb_sym a b : DayKey_eqb a b = DayKey_eqb b a.
Proof.
  destruct (DayKey_eqb a b) eqn:E.
  - apply DayKey_eqb_eq in E. subst. symmetry. apply DayKey_eqb_refl.
  - destruct (DayKey_eqb b a) eqn:E'; [|reflexivity].
    apply DayKey_eqb_eq in E'. subst. now rewrite DayKey_eqb_refl in E.
Qed.

Lemma mapHas_mapGet k m : mapHas k m = match mapGet k m with Some _ => true | None => false end.
Proof.
  induction m as [|[k' v] rest IH]; cbn; [reflexivity|].
  destruct (DayKey_eqb k' k); [reflexivity | exact IH].
Qed.

Lemma keysOf_bumpEntry k val m : keysOf (bumpEntry k val m) = keysOf m.
Proof.
  unfold keysOf.
  induction m as [|[k' [s c]] rest IH]; cbn; [reflexivity|].
  destruct (DayKey_eqb k' k); cbn; [reflexivity|]. now rewrite IH.
Qed.

Lemma mapGet_bumpEntry k val m k' :
  mapGet k' (bumpEntry k val m) =
  if DayKey_eqb k k' then option_map (bump val) (mapGet k' m) else mapGet k' m.
Proof.
  induction m as [|[k0 [s c]] rest IH]; cbn.
  - destruct (DayKey_eqb k k'); reflexivity.
  - destruct (DayKey_eqb k0 k) eqn:E0; cbn.
    + apply DayKey_eqb_eq in E0. subst k0.
      destruct (DayKey_eqb k k'); reflexivity.
    + destruct (DayKey_eqb k0 k') eqn:E1.
      * apply DayKey_eqb_eq in E1. subst k0.
        rewrite DayKey_eqb_sym, E0. reflexivity.
      * exact IH.
Qed.

Lemma mapGet_app k m k0 v :
  mapGet k (m ++ [(k0, v)]) =
  match mapGet k m with
  | Some x => Some x
  | None => if DayKey_eqb k0 k then Some v else None
  end.
Proof.
  induction m as [|[k1 v1] rest IH]; cbn; [reflexivity|].
  destruct (DayKey_eqb k1 k); [reflexivity | exact IH].
Qed.

Section Zone.

Variable zoneOffset : Z -> Z.


Lemma mapGet_trendStep m r k :
  mapGet k (trendStep zoneOffset m r) =
  if DayKey_eqb (keyOf zoneOffset r) k
  then Some (bump (conformityOf r) (default (0%Q, 0) (mapGet k m)))
  else mapGet k m.
Proof.
  unfold trendStep. rewrite mapGet_bumpEntry.
  destruct (DayKey_eqb (keyOf zoneOffset r) k) eqn:E.
  - apply DayKey_eqb_eq in E. rewrite E. rewrite mapHas_mapGet.
    destruct (mapGet k m) as [e|] eqn:G; cbn.
    + rewrite G. reflexivity.
    + rewrite mapGet_app, G, DayKey_eqb_refl. reflexivity.
  - destruct (mapHas (keyOf zoneOffset r) m); [reflexivity|].
    rewrite mapGet_app, E. destruct (mapGet k m); reflexivity.
Qed.

Lemma keysOf_trendStep m r :
  keysOf (trendStep zoneOffset m r) =
  if mapHas (keyOf zoneOffset r) m then keysOf m else keysOf m ++ [keyOf zoneOffset r].
Proof.
  unfold trendStep. rewrite keysOf_bumpEntry.
  destruct (mapHas _ m); [reflexivity|].
  unfold keysOf. rewrite map_app. reflexivity.
Qed.

Lemma mapHas_trendStep m r k :
  mapHas k (trendStep zoneOffset m r) = mapHas k m || DayKey_eqb (keyOf zoneOffset r) k.
Proof.
  rewrite !mapHas_mapGet, mapGet_trendStep.
  destruct (DayKey_eqb (keyOf zoneOffset r) k), (mapGet k m); reflexivity.
Qed.

Lemma bucketOf_cons k r l :
  bucketOf zoneOffset k (r :: l) =
  if DayKey_eqb (keyOf zoneOffset r) k then r :: bucketOf zoneOffset k l
  else bucketOf zoneOffset k l.
Proof. reflexivity. Qed.

(** The entry of a key after the loop: the fold of its bucket. *)
Lemma mapGet_fold l : forall m k,
  mapGet k (fold_left (trendStep zoneOffset) l m) =
  match bucketOf zoneOffset k l with
  | [] => mapGet k m
  | b => Some (fold_left (fun e r => bump (conformityOf r) e) b
                 (default (0%Q, 0) (mapGet k m)))
  end.
Proof.
  induction l as [|r rest IH]; intros m k; [reflexivity|].
  cbn [fold_left]. rewrite IH, bucketOf_cons, mapGet_trendStep.
  destruct (DayKey_eqb (keyOf zoneOffset r) k).
  - destruct (bucketOf zoneOffset k rest); reflexivity.
  - reflexivity.
Qed.

Lemma fold_bump b : forall s0 c0,
  fold_left (fun e r => bump (conformityOf r) e) b (s0, c0) =
  (fold_left fadd (map conformityOf b) s0, c0 + Z.of_nat (length b)).
Proof.
  induction b as [|r rest IH]; intros s0 c0; cbn [fold_left map length].
  - f_equal. lia.
  - unfold bump at 2. cbn [fst snd]. rewrite IH. f_equal. lia.
Qed.

Lemma filter_filter_and {A} (f g : A -> bool) l :
  List.filter f (List.filter g l) = List.filter (fun x => g x && f x) l.
Proof.
  induction l as [|x rest IH]; cbn; [reflexivity|].
  destruct (g x); cbn; [destruct (f x)|]; now rewrite IH.
Qed.

(** The keys after the loop: the old ones, then the new ones at their
    first occurrence. *)
Lemma keysOf_fold l : forall m,
  keysOf (fold_left (trendStep zoneOffset) l m) =
  keysOf m ++ List.filter (fun k => negb (mapHas k m))
                (firstOccurrences (map (keyOf zoneOffset) l)).
Proof.
  induction l as [|r rest IH]; intros m.
  - cbn. now rewrite app_nil_r.
  - cbn [fold_left map firstOccurrences List.filter].
    rewrite IH, keysOf_trendStep.
    set (k0 := keyOf zoneOffset r).
    set (X := firstOccurrences (map (keyOf zoneOffset) rest)).
    rewrite filter_filter_and.
    assert (E : List.filter (fun k => negb (mapHas k (trendStep zoneOffset m r))) X =
                List.filter (fun x => negb (DayKey_eqb x k0) && negb (mapHas x m)) X).
    { apply List.filter_ext. intros k. rewrite mapHas_trendStep. fold k0.
      rewrite (DayKey_eqb_sym k0 k). destruct (mapHas k m), (DayKey_eqb k k0); reflexivity. }
    rewrite E.
    destruct (mapHas k0 m); cbn [negb]; [reflexivity|].
    now rewrite <- app_assoc.
Qed.

End Zone.

Lemma In_firstOccurrences k l : In k (firstOccurrences l) <-> In k l.
Proof.
  induction l as [|x rest IH]; cbn; [tauto|].
  rewrite List.filter_In, IH, negb_true_iff.
  split.
  - intros [H|[H _]]; auto.
  - intros [H|H]; [auto|].
    destruct (DayKey_eqb k x) eqn:E; [|auto].
    apply DayKey_eqb_eq in E. auto.
Qed.

Lemma NoDup_firstOccurrences l : List.NoDup (firstOccurrences l).
Proof.
  induction l as [|x rest IH]; cbn; constructor.
  - rewrite List.filter_In, DayKey_eqb_refl. intros [_ H]. discriminate.
  - now apply List.NoDup_filter.
Qed.

(** A map without duplicate keys is the list of its keys, each with
    its entry. *)
Lemma entries_of_keys m :
  List.NoDup (keysOf m) ->
  m = map (fun k => (k, default (0%Q, 0) (mapGet k m))) (keysOf m).
Proof.
  induction m as [|[k v] rest IH]; cbn; [reflexivity|].
  intros Hnd. inversion Hnd as [|? ? Hk Hrest]; subst.
  rewrite DayKey_eqb_refl. cbn. f_equal.
  rewrite (IH Hrest) at 1. apply map_ext_in.
  intros k' Hin. destruct (DayKey_eqb k k') eqn:E; [|reflexivity].
  apply DayKey_eqb_eq in E. subst. contradiction.
Qed.

Lemma filter_split {A} (f : A -> bool) X : forall pre x post,
  List.filter f X = pre ++ x :: post ->
  exists pre' post', X = pre' ++ x :: post' /\
                     List.filter f pre' = pre /\ List.filter f post' = post.
Proof.
  induction X as [|a rest IH]; intros pre x post; cbn.
  - destruct pre; discriminate.
  - destruct (f a) eqn:Fa.
    + destruct pre as [|p pre]; cbn.
      * intros [= -> E]. exists [], rest. cbn. auto.
      * intros [= -> E]. destruct (IH _ _ _ E) as (pre' & post' & -> & <- & <-).
        exists (p :: pre'), post'. cbn. rewrite Fa. auto.
    + intros E. destruct (IH _ _ _ E) as (pre' & post' & -> & <- & <-).
      exists (a :: pre'), post'. cbn. rewrite Fa. auto.
Qed.

Section Trend.

Variable zoneOffset : Z -> Z.

Lemma In_bucketOf r k l :
  In r (bucketOf zoneOffset k l) <-> In r l /\ keyOf zoneOffset r = k.
Proof. unfold bucketOf. now rewrite List.filter_In, DayKey_eqb_eq. Qed.

Lemma firstOccurrences_order l :
  StronglySorted byDate l ->
  forall pre k1 post k2,
    firstOccurrences (map (keyOf zoneOffset) l) = pre ++ k1 :: post ->
    In k2 post ->
    exists r1, In r1 l /\ keyOf zoneOffset r1 = k1 /\
      forall r2, In r2 l -> keyOf zoneOffset r2 = k2 -> date r1 <= date r2.
Proof.
  induction l as [|r rest IH]; intros Hs pre k1 post k2; cbn [map firstOccurrences].
  - destruct pre; discriminate.
  - inversion Hs as [|? ? Hrest Hall]; subst.
    rewrite List.Forall_forall in Hall.
    destruct pre as [|p pre]; cbn [app].
    + intros [= <- _] _. exists r. split; [now left|]. split; [reflexivity|].
      intros r2 [<-|Hin] _; [lia | exact (Hall _ Hin)].
    + intros [= <- E] Hk2.
      destruct (filter_split _ _ _ _ _ E) as (pre' & post' & E' & _ & <-).
      apply List.filter_In in Hk2. destruct Hk2 as [Hk2 Hne].
      destruct (IH Hrest _ _ _ _ E' Hk2) as (r1 & Hin1 & Hk1 & Hle).
      exists r1. split; [now right|]. split; [exact Hk1|].
      intros r2 [<-|Hin2] Hkey; [|now apply Hle].
      rewrite Hkey, DayKey_eqb_refl in Hne. discriminate.
Qed.

Lemma trendMapSorted_keys data :
  keysOf (trendMapSorted zoneOffset data) =
  firstOccurrences (map (keyOf zoneOffset) (sortByDate data)).
Proof.
  unfold trendMapSorted. rewrite keysOf_fold. cbn [keysOf map app mapHas negb].
  induction (firstOccurrences _) as [|x rest IH]; cbn; [reflexivity|]. now rewrite IH.
Qed.

Lemma trendMapSorted_entry data k :
  In k (keysOf (trendMapSorted zoneOffset data)) ->
  let b := bucketOf zoneOffset k (sortByDate data) in
  mapGet k (trendMapSorted zoneOffset data) =
  Some (floatSum (map conformityOf b), Z.of_nat (length b)).
Proof.
  intros Hk b. unfold trendMapSorted. rewrite mapGet_fold. fold b.
  rewrite trendMapSorted_keys, In_firstOccurrences, in_map_iff in Hk.
  destruct Hk as (r & Hr & Hin).
  assert (Hb : In r b) by (apply In_bucketOf; auto).
  destruct b as [|r0 b0] eqn:Eb; [destruct Hb|].
  cbn [mapGet default]. rewrite fold_bump. reflexivity.
Qed.

(** C8, what [processData] computes: for a non-empty history, the
    lots are sorted by ascending date (stably) and grouped by the
    label of their local day, which spells the day of the month and
    the month but not the year.  There is one bucket per label, in the order in which the
    labels first occur in the sorted lots; its value is [toFixed(1)]
    of the float mean of the conformant percentages of its lots; two
    lots of the same calendar day are in the same single bucket; and
    a bucket placed before another one holds a lot that is not later
    than any lot of the other. *)
Theorem trend_series_by_day_label data filter :
  data <> [] ->
  let sorted := sortByDate data in
  let series := trend (charts (processData zoneOffset data filter)) in
  let bucket k := bucketOf zoneOffset k sorted in
  (Permutation data sorted /\ StronglySorted byDate sorted) /\
  (trendLabels series = firstOccurrences (map (keyOf zoneOffset) sorted) /\
   List.NoDup (trendLabels series)) /\
  trendData series =
    map (fun k => toFixed 1 (fdiv (floatSum (map conformityOf (bucket k)))
                                  (inject_Z (Z.of_nat (length (bucket k))))))
        (trendLabels series) /\
  (forall r k, In r (bucket k) <-> In r data /\ keyOf zoneOffset r = k) /\
  (forall r1 r2, In r1 data -> In r2 data ->
     calendarDay zoneOffset (date r1) = calendarDay zoneOffset (date r2) ->
     exists k, In k (trendLabels series) /\ In r1 (bucket k) /\ In r2 (bucket k)) /\
  (forall pre k1 post k2,
     trendLabels series = pre ++ k1 :: post -> In k2 post ->
     exists r1, In r1 (bucket k1) /\
       forall r2, In r2 (bucket k2) -> date r1 <= date r2).
Proof.
  intros Hne sorted series bucket.
  assert (Hperm : Permutation data sorted) by apply sortByDate_perm.
  assert (Hlabels : trendLabels series = keysOf (trendMapSorted zoneOffset data)).
  { unfold series, processData.
    destruct (Z.eqb_spec (Z.of_nat (length data)) 0) as [E|_]; [|reflexivity].
    destruct data; [contradiction | discriminate]. }
  assert (Hdata : trendData series =
            map (fun v : Q * Z => toFixed 1 (fdiv (fst v) (inject_Z (snd v))))
                (map snd (trendMapSorted zoneOffset data))).
  { unfold series, processData.
    destruct (Z.eqb_spec (Z.of_nat (length data)) 0) as [E|_]; [|reflexivity].
    destruct data; [contradiction | discriminate]. }
  assert (Hfo : trendLabels series = firstOccurrences (map (keyOf zoneOffset) sorted)).
  { rewrite Hlabels. apply trendMapSorted_keys. }
  assert (Hnd : List.NoDup (trendLabels series)).
  { rewrite Hfo. apply NoDup_firstOccurrences. }
  assert (Hbucket : forall r k, In r (bucket k) <-> In r data /\ keyOf zoneOffset r = k).
  { intros r k. unfold bucket. rewrite In_bucketOf.
    split; intros [Hin Hk]; split; try assumption.
    - eapply Permutation_in; [symmetry; exact Hperm | exact Hin].
    - eapply Permutation_in; [exact Hperm | exact Hin]. }
  split; [split; [exact Hperm | apply sortByDate_sorted]|].
  split; [split; assumption|].
  split; [|split; [exact Hbucket|split]].
  - rewrite Hdata, Hlabels.
    rewrite Hlabels in Hnd.
    rewrite (entries_of_keys _ Hnd) at 1.
    rewrite !map_map. apply map_ext_in. intros k Hk. cbn [snd].
    rewrite (trendMapSorted_entry data k Hk). reflexivity.
  - intros r1 r2 H1 H2 Hday. exists (keyOf zoneOffset r1).
    assert (Hk : keyOf zoneOffset r2 = keyOf zoneOffset r1).
    { unfold keyOf, dayKey. now rewrite Hday. }
    split; [|split; apply Hbucket; auto].
    rewrite Hfo, In_firstOccurrences. apply in_map.
    eapply Permutation_in; [exact Hperm | exact H1].
  - intros pre k1 post k2 E Hin.
    rewrite Hfo in E.
    destruct (firstOccurrences_order sorted (sortByDate_sorted data) _ _ _ _ E Hin)
      as (r1 & Hr1 & Hk1 & Hle).
    exists r1. split; [apply In_bucketOf; auto|].
    intros r2 Hr2. apply In_bucketOf in Hr2. destruct Hr2. now apply Hle.
Qed.

End Trend.

(** C8, where the code departs from it: the key of a bucket leaves
    out the year.  Of three lots uploaded on 5 November 2025 (50 %
    conformant), 5 November 2024 (100 %) and 6 November 2024 (80 %),
    the first two share the label "5 nov" although a year apart.  The
    series has two buckets, 75.0 and 80.0, the first of which holds
    the latest lot; grouping by calendar day gives three, 100.0, 80.0
    and 50.0. *)
Lemma trend_merges_years :
  let series := trend (charts (processData Scenario.utc Scenario.yearApart "Global")) in
  Scenario.yearApart <> [] /\
  calendarDay Scenario.utc Scenario.nov5_2024 = (2024, 11, 5) /\
  calendarDay Scenario.utc Scenario.nov5_2025 = (2025, 11, 5) /\
  trendLabels series = [(5, 11); (6, 11)] /\
  trendData series = [750; 800] /\
  trendByCalendarDay Scenario.utc Scenario.yearApart =
    [((2024, 11, 5), 1000); ((2024, 11, 6), 800); ((2025, 11, 5), 500)] /\
  trendData series <> map snd (trendByCalendarDay Scenario.utc Scenario.yearApart).
Proof. vm_compute. repeat split; discriminate. Qed.

Lemma trend_series_by_day_label_witness :
  let series := trend (charts (processData Scenario.utc Scenario.yearApart "Global")) in
  List.NoDup (trendLabels series) /\
  trendLabels series =
    firstOccurrences (map (keyOf Scenario.utc) (sortByDate Scenario.yearApart)).
Proof.
  destruct (trend_series_by_day_label Scenario.utc Scenario.yearApart "Global")
    as (_ & (Hfo & Hnd) & _).
  - discriminate.
  - split; [exact Hnd | exact Hfo].
Defined.

End DashboardTheory.

(** * Properties of the ledger *)

Module LedgerTheory.

Import Contract ContractTheory Ledger.
Local Open Scope string_scope.
Local Open Scope N_scope.
Local Open Scope list_scope.

(** ** What a call touches *)

Lemma lookup_setBatch_ne s id id' b :
  id <> id' -> batches (setBatch id b s) !! id' = batches s !! id'.
Proof. intros H. unfold setBatch. cbn. now rewrite lookup_insert_ne. Qed.

Lemma lookup_audited_ne env id c r s id' :
  id <> id' -> batches (audited env id c r s) !! id' = batches s !! id'.
Proof. intros H. unfold audited. cbn. now rewrite lookup_insert_ne. Qed.

Lemma batchOf_lookup s s' id :
  batches s' !! id = batches s !! id -> batchOf s' id = batchOf s id.
Proof. unfold batchOf. now intros ->. Qed.

Ltac by_registration s id :=
  destruct (N.eqb_spec (batchTimestamp s id) 0); cbn [negb require mbind option_bind].

(** A call leaves the storage of the lots it does not name as it was. *)
Lemma call_frames_other_lots env tx s s' id' :
  call env tx s = Some s' ->
  lotOf tx <> Some id' ->
  batches s' !! id' = batches s !! id'.
Proof.
  destruct tx as [id v w | id t | id w | a b c | id t w d | id o a];
    cbn [call lotOf]; intros Hcall Hne;
    try assert (Hid : id <> id') by congruence.
  - unfold registerBatchInitialData in Hcall. by_registration s id; [|discriminate].
    injection Hcall as <-. cbn. now rewrite lookup_insert_ne.
  - unfold updateTransportData in Hcall. by_registration s id; [discriminate|].
    injection Hcall as <-. now apply lookup_setBatch_ne.
  - unfold updateReceptionData in Hcall. by_registration s id; [discriminate|].
    rewrite evaluateBatch_verdict in Hcall.
    destruct (auditVerdict _ _ _ _ _) as [[c r]|]; [|discriminate].
    injection Hcall as <-.
    rewrite lookup_audited_ne by assumption. now apply lookup_setBatch_ne.
  - unfold setThresholds in Hcall.
    destruct (msg_sender env =? owner s); [|discriminate].
    injection Hcall as <-. reflexivity.
  - rewrite evaluateBatch_verdict in Hcall.
    destruct (auditVerdict _ _ _ _ _) as [[c r]|]; [|discriminate].
    injection Hcall as <-. now apply lookup_audited_ne.
  - unfold transferAsset in Hcall. by_registration s id; [discriminate|].
    injection Hcall as <-. reflexivity.
Qed.

Lemma auditVerdict_thresholds s s' t iw fw d :
  thresholds s' = thresholds s ->
  auditVerdict s' t iw fw d = auditVerdict s t iw fw d.
Proof.
  unfold thresholds. intros [= E1 E2 E3].
  unfold auditVerdict. now rewrite E1, E2, E3.
Qed.

Lemma agreeOn_setBatch id s t b :
  agreeOn (Some id) s t -> agreeOn (Some id) (setBatch id b s) (setBatch id b t).
Proof.
  intros (Ho & Ht & _). repeat split; try assumption.
  now rewrite !batchOf_setBatch.
Qed.

Lemma agreeOn_emit lot s t e e' :
  agreeOn lot s t -> agreeOn lot (emit e s) (emit e' t).
Proof. intros (Ho & Ht & Hb). repeat split; assumption. Qed.

(** [evaluateBatch] on two states that agree on the lot. *)
Lemma evaluateBatch_reads env id tIn wIn dIn s s' t :
  evaluateBatch env id tIn wIn dIn s = Some s' ->
  agreeOn (Some id) s t ->
  exists t' es, evaluateBatch env id tIn wIn dIn t = Some t' /\
    agreeOn (Some id) s' t' /\
    events s' = es ++ events s /\ events t' = es ++ events t.
Proof.
  intros Hcall Hagree. pose proof Hagree as (Ho & Ht & Hb).
  rewrite evaluateBatch_verdict in *.
  unfold resolvedTemp, resolvedFinalWeight in *. rewrite <- Hb.
  rewrite (auditVerdict_thresholds s t) by (symmetry; assumption).
  destruct (auditVerdict _ _ _ _ _) as [[c r]|]; [|discriminate].
  injection Hcall as <-. unfold audited. rewrite <- Hb.
  eexists _, [BatchAuditCompleted id c r]. split; [reflexivity|].
  split; [|split; reflexivity].
  now apply agreeOn_emit, agreeOn_setBatch.
Qed.

(** The outcome of a call depends on the lot it names, the owner and
    the thresholds, and on nothing else of the storage. *)
Lemma call_reads_one_lot env tx s s' t :
  call env tx s = Some s' ->
  agreeOn (lotOf tx) s t ->
  exists t' es, call env tx t = Some t' /\ agreeOn (lotOf tx) s' t' /\
    events s' = es ++ events s /\ events t' = es ++ events t.
Proof.
  destruct tx as [id v w | id tm | id w | a b c | id tm w d | id o a];
    cbn [call lotOf]; intros Hcall Hagree; pose proof Hagree as (Ho & Ht & Hb).
  - unfold registerBatchInitialData, batchTimestamp in *. rewrite <- Hb.
    destruct (timestamp (audit (batchOf s id)) =? 0);
      cbn [require mbind option_bind] in *; [|discriminate].
    injection Hcall as <-.
    eexists _, [BatchRegistered id (msg_sender env)]. split; [reflexivity|].
    split; [|split; reflexivity].
    now apply agreeOn_emit, agreeOn_setBatch.
  - unfold updateTransportData, batchTimestamp in *. rewrite <- Hb.
    destruct (timestamp (audit (batchOf s id)) =? 0);
      cbn [negb require mbind option_bind] in *; [discriminate|].
    injection Hcall as <-.
    eexists _, []. split; [reflexivity|]. split; [|split; reflexivity].
    now apply agreeOn_setBatch.
  - unfold updateReceptionData, batchTimestamp in *. rewrite <- Hb.
    destruct (timestamp (audit (batchOf s id)) =? 0);
      cbn [negb require mbind option_bind] in *; [discriminate|].
    destruct (evaluateBatch_reads _ _ _ _ _ _ _
                (setBatch id (withFinalWeightReceived (batchOf s id) w) t) Hcall)
      as (t' & es & E & Ha & E1 & E2).
    { now apply agreeOn_setBatch. }
    exists t', es. repeat split; try assumption; apply Ha.
  - unfold setThresholds in *. rewrite <- Ho.
    destruct (msg_sender env =? owner s);
      cbn [require mbind option_bind] in *; [|discriminate].
    injection Hcall as <-.
    eexists _, [ThresholdsUpdated (msg_sender env) a b c]. split; [reflexivity|].
    split; [|split; reflexivity].
    repeat split.
  - eapply evaluateBatch_reads; eassumption.
  - unfold transferAsset, batchTimestamp in *. rewrite <- Hb.
    destruct (timestamp (audit (batchOf s id)) =? 0);
      cbn [negb require mbind option_bind] in *; [discriminate|].
    injection Hcall as <-.
    eexists _, [AssetTransfer id (msg_sender env) o a]. split; [reflexivity|].
    split; [|split; reflexivity].
    now apply agreeOn_emit.
Qed.

(** X1: a call reads and writes the lot it names and no other.  It
    writes no other: the storage of every other id is as it was.  It
    reads no other: in any state with the same owner, the same
    thresholds and the same data of that lot the call succeeds as
    well, leaves the same data of the lot, the same owner and the same
    thresholds, and emits the same events. *)
Theorem call_touches_one_lot env tx s s' :
  call env tx s = Some s' ->
  (forall id', lotOf tx <> Some id' -> batches s' !! id' = batches s !! id') /\
  (forall t, agreeOn (lotOf tx) s t ->
     exists t' es, call env tx t = Some t' /\ agreeOn (lotOf tx) s' t' /\
       events s' = es ++ events s /\ events t' = es ++ events t).
Proof.
  intros Hcall. split.
  - intros id' Hne. eapply call_frames_other_lots; eassumption.
  - intros t Hagree. eapply call_reads_one_lot; eassumption.
Qed.

Lemma call_touches_one_lot_witness :
  let tx := UpdateReceptionData "L1" 90 in
  let s' := transact Scenario.twoLots (Scenario.later, tx) in
  batches s' !! "L2" =
    Some (mkBatchData "L2" "Fuerte" 7 50 0 600 (mkAuditResult false REASON_PENDING 1000)) /\
  audit (batchOf s' "L1") = mkAuditResult false REASON_WEIGHT 2000 /\
  exists t',
    call Scenario.later tx Scenario.loneLot = Some t' /\
    batchOf t' "L1" = batchOf s' "L1" /\
    events t' = BatchAuditCompleted "L1" false REASON_WEIGHT :: events Scenario.loneLot.
Proof.
  intros tx s'.
  assert (call Scenario.later tx Scenario.twoLots = Some s') as Hcall
    by (vm_compute; reflexivity).
  destruct (call_touches_one_lot Scenario.later tx Scenario.twoLots s' Hcall)
    as [Hwrites Hreads].
  split; [|split].
  - rewrite (Hwrites "L2") by discriminate. vm_compute. reflexivity.
  - vm_compute. reflexivity.
  - destruct (Hreads Scenario.loneLot) as (t' & es & Ht' & (_ & _ & Hlot) & Es & Et).
    { vm_compute. repeat split. }
    exists t'. split; [exact Ht'|]. split; [symmetry; exact Hlot|].
    rewrite Et. f_equal.
    assert (events s' = [BatchAuditCompleted "L1" false REASON_WEIGHT]
                          ++ events Scenario.twoLots) as Es'
      by (vm_compute; reflexivity).
    rewrite Es in Es'. apply app_inv_tail in Es'. rewrite Es'. reflexivity.
Defined.

(** ** The thresholds and the owner *)

Lemma call_keeps_owner env tx s s' : call env tx s = Some s' -> owner s' = owner s.
Proof.
  destruct tx as [id v w | id t | id w | a b c | id t w d | id o a]; cbn [call].
  - unfold registerBatchInitialData. by_registration s id; [|discriminate].
    now intros [= <-].
  - unfold updateTransportData. by_registration s id; [discriminate|]. now intros [= <-].
  - unfold updateReceptionData. by_registration s id; [discriminate|].
    rewrite evaluateBatch_verdict.
    destruct (auditVerdict _ _ _ _ _) as [[c r]|]; [|discriminate]. now intros [= <-].
  - unfold setThresholds. destruct (msg_sender env =? owner s); [|discriminate].
    now intros [= <-].
  - rewrite evaluateBatch_verdict.
    destruct (auditVerdict _ _ _ _ _) as [[c r]|]; [|discriminate]. now intros [= <-].
  - unfold transferAsset. by_registration s id; [discriminate|]. now intros [= <-].
Qed.

Lemma call_keeps_thresholds env tx s s' :
  call env tx s = Some s' ->
  ~ setsThresholdsAs (owner s) (env, tx) ->
  thresholds s' = thresholds s.
Proof.
  destruct tx as [id v w | id t | id w | a b c | id t w d | id o a];
    cbn [call setsThresholdsAs fst snd].
  - unfold registerBatchInitialData. by_registration s id; [|discriminate].
    now intros [= <-].
  - unfold updateTransportData. by_registration s id; [discriminate|]. now intros [= <-].
  - unfold updateReceptionData. by_registration s id; [discriminate|].
    rewrite evaluateBatch_verdict.
    destruct (auditVerdict _ _ _ _ _) as [[c r]|]; [|discriminate]. now intros [= <-].
  - unfold setThresholds. destruct (N.eqb_spec (msg_sender env) (owner s)); [|discriminate].
    intros _ H. contradiction.
  - rewrite evaluateBatch_verdict.
    destruct (auditVerdict _ _ _ _ _) as [[c r]|]; [|discriminate]. now intros [= <-].
  - unfold transferAsset. by_registration s id; [discriminate|]. now intros [= <-].
Qed.

Lemma transact_keeps_owner s c : owner (transact s c) = owner s.
Proof.
  unfold transact. destruct (call (fst c) (snd c) s) eqn:E; [|reflexivity].
  cbn. eapply call_keeps_owner; eassumption.
Qed.

Lemma execute_keeps_owner calls : forall s, owner (execute calls s) = owner s.
Proof.
  induction calls as [|c rest IH]; intros s; [reflexivity|].
  cbn [execute fold_left]. fold (execute rest (transact s c)).
  now rewrite IH, transact_keeps_owner.
Qed.

(** X2: the owner never changes, and the thresholds are those of the
    deployment until the owner calls [setThresholds]: no other call,
    and no call of [setThresholds] by somebody else, changes them.
    The owner's call replaces the three of them and nothing else. *)
Theorem thresholds_change_only_by_owner calls s :
  List.Forall (fun c => ~ setsThresholdsAs (owner s) c) calls ->
  owner (execute calls s) = owner s /\
  thresholds (execute calls s) = thresholds s /\
  (forall env a b c, msg_sender env <> owner s ->
     setThresholds env a b c s = None) /\
  (forall env a b c, msg_sender env = owner s ->
     exists s', setThresholds env a b c s = Some s' /\
       thresholds s' = (a, b, c) /\ owner s' = owner s /\ batches s' = batches s /\
       events s' = ThresholdsUpdated (owner s) a b c :: events s).
Proof.
  intros Hall. split; [apply execute_keeps_owner|]. split; [|split].
  - revert s Hall. induction calls as [|c rest IH]; intros s Hall; [reflexivity|].
    inversion Hall as [|? ? Hc Hrest]; subst.
    cbn [execute fold_left]. fold (execute rest (transact s c)).
    assert (Hstep : thresholds (transact s c) = thresholds s).
    { unfold transact. destruct (call (fst c) (snd c) s) eqn:E; [|reflexivity].
      cbn. eapply call_keeps_thresholds; [exact E|]. now destruct c. }
    rewrite IH; [exact Hstep|].
    rewrite transact_keeps_owner. exact Hrest.
  - intros env a b c Hne. unfold setThresholds.
    destruct (N.eqb_spec (msg_sender env) (owner s)); [contradiction | reflexivity].
  - intros env a b c He. unfold setThresholds.
    destruct (N.eqb_spec (msg_sender env) (owner s)); [|contradiction].
    cbn. eexists. split; [reflexivity|]. rewrite He. repeat split.
Qed.

Lemma thresholds_change_only_by_owner_witness :
  thresholds (execute [(mkEnv 8 3000, SetThresholds 0 0 0);
                       (Scenario.later, UpdateTransportData "L1" 900)]
                      Scenario.received) = (800, 5, 21).
Proof.
  destruct (thresholds_change_only_by_owner
              [(mkEnv 8 3000, SetThresholds 0 0 0);
               (Scenario.later, UpdateTransportData "L1" 900)] Scenario.received)
    as (_ & H & _).
  - repeat constructor; vm_compute; [discriminate | tauto].
  - rewrite H. vm_compute. reflexivity.
Defined.

(** ** Registration is for ever *)

Lemma call_keeps_registration env tx s s' id :
  block_timestamp env <> 0 ->
  batchTimestamp s id <> 0 ->
  call env tx s = Some s' ->
  batchTimestamp s' id <> 0 /\
  loteId (batchOf s' id) = loteId (batchOf s id) /\
  variety (batchOf s' id) = variety (batchOf s id) /\
  registeredBy (batchOf s' id) = registeredBy (batchOf s id) /\
  initialWeight (batchOf s' id) = initialWeight (batchOf s id).
Proof.
  intros Hnow Hreg Hcall.
  destruct (decide (lotOf tx = Some id)) as [Hlot | Hlot].
  2: { assert (E : batchOf s' id = batchOf s id).
       { apply batchOf_lookup. eapply call_frames_other_lots; eassumption. }
       unfold batchTimestamp. rewrite E. repeat split. exact Hreg. }
  destruct tx as [id0 v w | id0 t | id0 w | a b c | id0 t w d | id0 o a];
    cbn [lotOf] in Hlot; try discriminate; injection Hlot as ->; cbn [call] in Hcall.
  - unfold registerBatchInitialData in Hcall. by_registration s id; [contradiction|discriminate].
  - unfold updateTransportData in Hcall. by_registration s id; [discriminate|].
    injection Hcall as <-. unfold batchTimestamp. rewrite batchOf_setBatch.
    repeat split. exact Hreg.
  - unfold updateReceptionData in Hcall. by_registration s id; [discriminate|].
    rewrite evaluateBatch_verdict in Hcall.
    destruct (auditVerdict _ _ _ _ _) as [[c r]|]; [|discriminate].
    injection Hcall as <-. unfold batchTimestamp. rewrite audit_audited.
    unfold audited. rewrite batchOf_emit, !batchOf_setBatch. repeat split. exact Hnow.
  - rewrite evaluateBatch_verdict in Hcall.
    destruct (auditVerdict _ _ _ _ _) as [[c r]|]; [|discriminate].
    injection Hcall as <-. unfold batchTimestamp. rewrite audit_audited.
    unfold audited. rewrite batchOf_emit, !batchOf_setBatch. repeat split. exact Hnow.
  - unfold transferAsset in Hcall. by_registration s id; [discriminate|].
    injection Hcall as <-. repeat split. exact Hreg.
Qed.

(** X3: once a lot is registered, no sequence of calls (in blocks with
    a non-zero time) unregisters it or changes its id, variety,
    registrant or initial weight, and every later registration under
    its id reverts. *)
Theorem registered_lot_is_permanent calls s id :
  timed calls ->
  batchTimestamp s id <> 0 ->
  let s' := execute calls s in
  batchTimestamp s' id <> 0 /\
  loteId (batchOf s' id) = loteId (batchOf s id) /\
  variety (batchOf s' id) = variety (batchOf s id) /\
  registeredBy (batchOf s' id) = registeredBy (batchOf s id) /\
  initialWeight (batchOf s' id) = initialWeight (batchOf s id) /\
  forall env variety_ initialWeight_,
    registerBatchInitialData env id variety_ initialWeight_ s' = None.
Proof.
  intros Htimed Hreg. cbv zeta.
  assert (H : batchTimestamp (execute calls s) id <> 0 /\
    loteId (batchOf (execute calls s) id) = loteId (batchOf s id) /\
    variety (batchOf (execute calls s) id) = variety (batchOf s id) /\
    registeredBy (batchOf (execute calls s) id) = registeredBy (batchOf s id) /\
    initialWeight (batchOf (execute calls s) id) = initialWeight (batchOf s id)).
  { revert s Hreg. induction Htimed as [|c rest Hc Hrest IH]; intros s Hreg.
    - repeat split. exact Hreg.
    - cbn [execute fold_left]. fold (execute rest (transact s c)).
      assert (Hstep : batchTimestamp (transact s c) id <> 0 /\
        loteId (batchOf (transact s c) id) = loteId (batchOf s id) /\
        variety (batchOf (transact s c) id) = variety (batchOf s id) /\
        registeredBy (batchOf (transact s c) id) = registeredBy (batchOf s id) /\
        initialWeight (batchOf (transact s c) id) = initialWeight (batchOf s id)).
      { unfold transact. destruct (call (fst c) (snd c) s) eqn:E.
        - cbn. eapply call_keeps_registration; eassumption.
        - cbn. repeat split. exact Hreg. }
      destruct Hstep as (H0 & H1 & H2 & H3 & H4).
      destruct (IH _ H0) as (I0 & I1 & I2 & I3 & I4).
      rewrite I1, I2, I3, I4. auto. }
  destruct H as (H0 & H1 & H2 & H3 & H4).
  repeat (split; [assumption|]).
  intros env v w. unfold registerBatchInitialData.
  destruct (N.eqb_spec (batchTimestamp (execute calls s) id) 0); [contradiction|reflexivity].
Qed.

Lemma registered_lot_is_permanent_witness :
  let s' := execute [(Scenario.later, UpdateTransportData "L1" 900);
                     (Scenario.later, EvaluateBatch "L1" 0 0 25);
                     (mkEnv 9 4000, RegisterBatchInitialData "L1" "Fuerte" 5);
                     (mkEnv 9 4000, TransferAsset "L1" 9 1200)] Scenario.received in
  initialWeight (batchOf s' "L1") = 100 /\ variety (batchOf s' "L1") = "Hass".
Proof.
  destruct (registered_lot_is_permanent
              [(Scenario.later, UpdateTransportData "L1" 900);
               (Scenario.later, EvaluateBatch "L1" 0 0 25);
               (mkEnv 9 4000, RegisterBatchInitialData "L1" "Fuerte" 5);
               (mkEnv 9 4000, TransferAsset "L1" 9 1200)] Scenario.received "L1")
    as (_ & _ & Hv & _ & Hw & _).
  - repeat constructor; vm_compute; discriminate.
  - vm_compute. discriminate.
  - cbv zeta. rewrite Hv, Hw. vm_compute. split; reflexivity.
Defined.

(** ** The stored audit results *)

Lemma verdict_well_formed s t iw fw d c r :
  auditVerdict s t iw fw d = Some (c, r) ->
  wellFormedAudit (mkAuditResult c r 0) /\ r <> "" /\ r <> REASON_PENDING.
Proof.
  rewrite auditVerdict_table. unfold dryVerdict, wellFormedAudit. cbn [isCompliant reason].
  repeat match goal with
         | |- context [if ?b then _ else _] => destruct b
         end;
    intros [= <- <-]; cbn;
    (split; [split; [split; intros; (discriminate || reflexivity) | tauto]
            | split; discriminate]).
Qed.

Lemma call_keeps_audits_well_formed env tx s s' :
  (forall id, wellFormedAudit (audit (batchOf s id))) ->
  call env tx s = Some s' ->
  forall id, wellFormedAudit (audit (batchOf s' id)).
Proof.
  intros Hinv Hcall id.
  destruct (decide (lotOf tx = Some id)) as [Hlot | Hlot].
  2: { erewrite batchOf_lookup; [apply Hinv|].
       eapply call_frames_other_lots; eassumption. }
  destruct tx as [id0 v w | id0 t | id0 w | a b c | id0 t w d | id0 o a];
    cbn [lotOf] in Hlot; try discriminate; injection Hlot as ->; cbn [call] in Hcall.
  - unfold registerBatchInitialData in Hcall. by_registration s id; [|discriminate].
    injection Hcall as <-. rewrite batchOf_emit, batchOf_setBatch.
    unfold wellFormedAudit. cbn. split; [split; discriminate | tauto].
  - unfold updateTransportData in Hcall. by_registration s id; [discriminate|].
    injection Hcall as <-. rewrite batchOf_setBatch. apply Hinv.
  - unfold updateReceptionData in Hcall. by_registration s id; [discriminate|].
    rewrite evaluateBatch_verdict in Hcall.
    destruct (auditVerdict _ _ _ _ _) as [[c r]|] eqn:Ev; [|discriminate].
    injection Hcall as <-. rewrite audit_audited.
    apply verdict_well_formed in Ev. apply Ev.
  - rewrite evaluateBatch_verdict in Hcall.
    destruct (auditVerdict _ _ _ _ _) as [[c r]|] eqn:Ev; [|discriminate].
    injection Hcall as <-. rewrite audit_audited.
    apply verdict_well_formed in Ev. apply Ev.
  - unfold transferAsset in Hcall. by_registration s id; [discriminate|].
    injection Hcall as <-. apply Hinv.
Qed.

(** X4: in every state the contract can reach from its deployment,
    whatever the calls and their senders, the audit result stored
    for any id is compliant exactly when its reason is the one of
    conformity, and its reason is the empty one of an id never
    written, the pending one, or one of the four verdicts. *)
Theorem stored_audits_are_well_formed deployer a b c calls id :
  wellFormedAudit (audit (batchOf (execute calls (constructor deployer a b c)) id)).
Proof.
  assert (H : forall s, (forall id, wellFormedAudit (audit (batchOf s id))) ->
                        forall id, wellFormedAudit (audit (batchOf (execute calls s) id))).
  { induction calls as [|call_ rest IH]; intros s Hinv; [exact Hinv|].
    cbn [execute fold_left]. fold (execute rest (transact s call_)).
    apply IH. unfold transact.
    destruct (call (fst call_) (snd call_) s) eqn:E; [|exact Hinv].
    cbn. eapply call_keeps_audits_well_formed; eassumption. }
  apply H. intros id0. unfold batchOf, constructor. cbn.
  rewrite lookup_empty. cbn. unfold wellFormedAudit. cbn.
  split; [split; discriminate | tauto].
Qed.

(** ** What an evaluation leaves behind *)

(** X5: [evaluateBatch] stores the verdict and nothing of its inputs:
    the temperature, the weights and the other fields of the lot
    and the thresholds are as before, so that any evaluation made
    afterwards gives the verdict it would have given without it. *)
Theorem evaluation_leaves_no_trace env id t w d s s1 :
  evaluateBatch env id t w d s = Some s1 ->
  batchOf s1 id = withAudit (batchOf s id) (audit (batchOf s1 id)) /\
  thresholds s1 = thresholds s /\
  forall env' t' w' d',
    (s2 ← evaluateBatch env' id t' w' d' s1; Some (audit (batchOf s2 id))) =
    (s2 ← evaluateBatch env' id t' w' d' s; Some (audit (batchOf s2 id))).
Proof.
  rewrite evaluateBatch_verdict.
  destruct (auditVerdict _ _ _ _ _) as [[c r]|]; [|discriminate].
  intros [= <-].
  assert (Hb : batchOf (audited env id c r s) id =
               withAudit (batchOf s id) (mkAuditResult c r (block_timestamp env))).
  { unfold audited. now rewrite batchOf_emit, batchOf_setBatch. }
  split; [now rewrite Hb|]. split; [reflexivity|].
  intros env' t' w' d'. rewrite !evaluateBatch_verdict.
  unfold resolvedTemp, resolvedFinalWeight. rewrite Hb.
  cbn [withAudit initialWeight avgTemperature finalWeightReceived].
  rewrite (auditVerdict_thresholds s (audited env id c r s)) by reflexivity.
  destruct (auditVerdict _ _ _ _ _) as [[c' r']|]; [|reflexivity].
  cbn [mbind option_bind]. now rewrite !audit_audited.
Qed.

Lemma evaluation_leaves_no_trace_witness :
  exists s1, evaluateBatch Scenario.later "L1" 810 50 10 Scenario.received = Some s1 /\
             avgTemperature (batchOf s1 "L1") = 750 /\
             finalWeightReceived (batchOf s1 "L1") = 96.
Proof.
  destruct (evaluateBatch Scenario.later "L1" 810 50 10 Scenario.received) as [s1|] eqn:E;
    [|vm_compute in E; discriminate].
  exists s1. split; [reflexivity|].
  destruct (evaluation_leaves_no_trace _ _ _ _ _ _ _ E) as (Hb & _).
  rewrite Hb. vm_compute. split; reflexivity.
Defined.

(** ** The transfer *)

(** X6: [transferAsset] has no gate but the stored timestamp: it
    goes through for any lot that was registered, whatever its audit
    result, and for any id that was evaluated, registered or not; it
    only logs the transfer. *)
Theorem transfer_has_no_compliance_gate env id newOwner amountUSD s :
  (transferAsset env id newOwner amountUSD s = None <-> batchTimestamp s id = 0) /\
  (batchTimestamp s id <> 0 ->
   transferAsset env id newOwner amountUSD s =
     Some (emit (AssetTransfer id (msg_sender env) newOwner amountUSD) s)) /\
  (forall env0 t w d s1,
     block_timestamp env0 <> 0 ->
     evaluateBatch env0 id t w d s = Some s1 ->
     exists s2, transferAsset env id newOwner amountUSD s1 = Some s2 /\
                batches s2 = batches s1 /\ thresholds s2 = thresholds s1).
Proof.
  split; [|split].
  - unfold transferAsset. by_registration s id; split; intros; congruence.
  - intros H. unfold transferAsset. by_registration s id; [contradiction|reflexivity].
  - intros env0 t w d s1 Hnow. rewrite evaluateBatch_verdict.
    destruct (auditVerdict _ _ _ _ _) as [[c r]|]; [|discriminate].
    intros [= <-]. unfold transferAsset, batchTimestamp. rewrite audit_audited.
    cbn [timestamp].
    destruct (N.eqb_spec (block_timestamp env0) 0); [contradiction|].
    cbn. eexists. repeat split.
Qed.

Lemma transfer_has_no_compliance_gate_witness :
  exists s1 s2,
    evaluateBatch Scenario.admin "GHOST" 900 0 0 Scenario.deployed = Some s1 /\
    isCompliant (audit (batchOf s1 "GHOST")) = false /\
    transferAsset Scenario.later "GHOST" 9 1200 s1 = Some s2.
Proof.
  destruct (evaluateBatch Scenario.admin "GHOST" 900 0 0 Scenario.deployed)
    as [s1|] eqn:E; [|vm_compute in E; discriminate].
  destruct (transfer_has_no_compliance_gate Scenario.later "GHOST" 9 1200 Scenario.deployed)
    as (_ & _ & H).
  destruct (H Scenario.admin 900 0 0 s1) as (s2 & E2 & _); [vm_compute; discriminate | exact E|].
  exists s1, s2. split; [reflexivity|]. split; [|exact E2].
  vm_compute in E. injection E as <-. vm_compute. reflexivity.
Defined.

(** ** The verdict *)

(** X7: an evaluation ends with a compliant result exactly when the
    three checks pass: the temperature is at most the maximum; the
    weights are not both positive or the deviation, computed without
    overflow, is at most the allowed one; and no dry matter was given
    or it is at least the minimum.  Each bound is inclusive. *)
Theorem compliant_exactly_when_checks_pass env id t w d s :
  let temp := resolvedTemp s id t in
  let iw := initialWeight (batchOf s id) in
  let fw := resolvedFinalWeight s id w in
  (exists s', evaluateBatch env id t w d s = Some s' /\
              audit (batchOf s' id) = mkAuditResult true REASON_OK (block_timestamp env))
  <->
  temp <= MAX_TEMP_TRANSPORT_C s /\
  (iw = 0 \/ fw = 0 \/
   (absDiff iw fw * 10000 <= MAX_UINT256 /\
    MAX_WEIGHT_DEVIATION_PCT s * 100 <= MAX_UINT256 /\
    absDiff iw fw * 10000 / iw <= MAX_WEIGHT_DEVIATION_PCT s * 100)) /\
  (d = 0 \/ MIN_DRY_MATTER_PCT s <= d).
Proof.
  cbv zeta. rewrite evaluateBatch_verdict, auditVerdict_table. unfold dryVerdict.
  set (temp := resolvedTemp s id t). set (iw := initialWeight (batchOf s id)).
  set (fw := resolvedFinalWeight s id w).
  destruct (N.ltb_spec 0 d) as [Hd|Hd], (N.ltb_spec d (MIN_DRY_MATTER_PCT s)) as [Hm|Hm];
    cbn [andb];
    destruct (N.ltb_spec 0 iw) as [Hiw|Hiw], (N.ltb_spec 0 fw) as [Hfw|Hfw]; cbn [andb];
    try destruct (N.leb_spec (absDiff iw fw * 10000) MAX_UINT256) as [Hfit|Hfit];
    destruct (N.ltb_spec (MAX_TEMP_TRANSPORT_C s) temp) as [Ht|Ht];
    try destruct (N.leb_spec (MAX_WEIGHT_DEVIATION_PCT s * 100) MAX_UINT256) as [Hlim|Hlim];
    try destruct (N.ltb_spec (MAX_WEIGHT_DEVIATION_PCT s * 100) (absDiff iw fw * 10000 / iw))
       as [Hdev|Hdev];
    (split;
     [ intros (s' & E & Ha); try discriminate E; injection E as <-;
       rewrite audit_audited in Ha;
       try discriminate Ha; repeat split; try lia
     | intros (H1 & H2 & H3); try lia;
       try (eexists; split; [reflexivity | apply audit_audited]) ]).
  all: try (right; right; lia).
  all: try (destruct H2 as [H2|[H2|H2]]; lia).
  all: try (destruct H3; lia).
Qed.

Lemma deviation_of_received_weight iw delta :
  0 < delta -> delta < iw ->
  absDiff iw (iw - delta) = delta /\ absDiff iw (iw + delta) = delta.
Proof.
  intros H0 H1. unfold absDiff.
  destruct (N.ltb_spec (iw - delta) iw); [|lia].
  destruct (N.ltb_spec (iw + delta) iw); [lia|]. lia.
Qed.

(** X8: the deviation is the absolute difference over the initial
    weight: a lot received [delta] units short and the same lot
    received [delta] units over are evaluated alike. *)
Theorem deviation_is_symmetric env id t d s delta :
  let iw := initialWeight (batchOf s id) in
  0 < delta -> delta < iw -> iw + delta <= MAX_UINT256 ->
  evaluateBatch env id t (iw - delta) d s = evaluateBatch env id t (iw + delta) d s.
Proof.
  intros iw H0 H1 _.
  rewrite !evaluateBatch_verdict. unfold resolvedFinalWeight. fold iw.
  destruct (N.eqb_spec (iw - delta) 0); [lia|].
  destruct (N.eqb_spec (iw + delta) 0); [lia|]. cbn [negb].
  rewrite !auditVerdict_table.
  destruct (deviation_of_received_weight iw delta H0 H1) as [-> ->].
  destruct (N.ltb_spec 0 (iw - delta)); [|lia].
  destruct (N.ltb_spec 0 (iw + delta)); [|lia].
  reflexivity.
Qed.

Lemma deviation_is_symmetric_witness :
  evaluateBatch Scenario.later "L1" 0 90 0 Scenario.received =
  evaluateBatch Scenario.later "L1" 0 110 0 Scenario.received.
Proof.
  apply (deviation_is_symmetric Scenario.later "L1" 0 0 Scenario.received 10);
    vm_compute; first [reflexivity | discriminate].
Defined.

(** X9: a reception update never blames the dry matter, which it
    does not pass on; and the reception of a zero weight skips the
    weight check as well, so that the temperature alone decides. *)
Theorem reception_never_blames_dry_matter env id w s s' :
  updateReceptionData env id w s = Some s' ->
  let a := audit (batchOf s' id) in
  In (isCompliant a, reason a)
     [(true, REASON_OK); (false, REASON_TEMP); (false, REASON_WEIGHT)] /\
  (w = 0 ->
   (isCompliant a, reason a) =
   if MAX_TEMP_TRANSPORT_C s <? avgTemperature (batchOf s id)
   then (false, REASON_TEMP) else (true, REASON_OK)).
Proof.
  unfold updateReceptionData. by_registration s id; [discriminate|].
  rewrite evaluateBatch_verdict, auditVerdict_table.
  unfold resolvedTemp, resolvedFinalWeight, dryVerdict. rewrite batchOf_setBatch.
  cbn [N.eqb negb avgTemperature initialWeight finalWeightReceived
       withFinalWeightReceived N.ltb N.compare andb].
  replace (if negb (w =? 0) then w else w) with w by (destruct (negb _); reflexivity).
  intros Hs. cbv zeta. split.
  - revert Hs.
    repeat match goal with
           | |- context [if ?b then _ else _] => destruct b
           end; intros [= <-]; rewrite audit_audited; cbn; tauto.
  - intros ->. revert Hs. cbn [N.ltb N.compare andb].
    rewrite andb_false_r.
    destruct (_ <? _); intros [= <-]; now rewrite audit_audited.
Qed.

Lemma reception_never_blames_dry_matter_witness :
  exists s', updateReceptionData Scenario.later "L1" 0 Scenario.received = Some s' /\
    In (isCompliant (audit (batchOf s' "L1")), reason (audit (batchOf s' "L1")))
       [(true, REASON_OK); (false, REASON_TEMP); (false, REASON_WEIGHT)].
Proof.
  destruct (updateReceptionData Scenario.later "L1" 0 Scenario.received) as [s'|] eqn:E;
    [|vm_compute in E; discriminate].
  exists s'. split; [reflexivity|].
  exact (proj1 (reception_never_blames_dry_matter _ _ _ _ _ E)).
Defined.

End LedgerTheory.

(** * Rounding and the integers *)

Module FloatFacts.

Import Float FloatTheory.
Local Open Scope Z_scope.

(** Rounding to the nearest integer does not cross an integer. *)
Lemma roundNearestEven_le n d M :
  0 < d -> n <= M * d -> roundNearestEven n d <= M.
Proof.
  intros Hd Hn. unfold roundNearestEven.
  pose proof (Z.div_mod n d ltac:(lia)) as E.
  pose proof (Z.mod_pos_bound n d Hd) as B.
  assert (n / d <= M) by (apply Z.div_le_upper_bound; lia).
  destruct (Z.ltb_spec (2 * (n mod d)) d); [lia|].
  assert (n / d < M) by nia.
  destruct (Z.ltb_spec d (2 * (n mod d))); [lia|].
  destruct (Z.even (n / d)); lia.
Qed.

Lemma roundNearestEven_ge n d M :
  0 < d -> M * d <= n -> M <= roundNearestEven n d.
Proof.
  intros Hd Hn. unfold roundNearestEven.
  assert (M <= n / d) by (apply Z.div_le_lower_bound; lia).
  destruct (_ <? _); [lia|]. destruct (_ <? _); [lia|].
  destruct (Z.even _); lia.
Qed.

Lemma ldexp_le m e K :
  (if 0 <=? e then m * 2 ^ e <= K else m <= K * 2 ^ (- e)) ->
  (ldexp m e <= inject_Z K)%Q.
Proof.
  destruct (Z.leb_spec 0 e) as [He|He]; intros H.
  - rewrite ldexp_nonneg_exp by lia. now rewrite <- Zle_Qle.
  - pose proof (ldexp_neg_exp m e He) as E.
    assert (0 < 2 ^ (- e)) as HP by (apply Z.pow_pos_nonneg; lia).
    apply Qmult_lt_0_le_reg_r with (z := inject_Z (2 ^ (- e))).
    + now rewrite <- (Zlt_Qlt 0).
    + rewrite E, <- inject_Z_mult. now rewrite <- Zle_Qle.
Qed.

Lemma ldexp_ge m e K :
  (if 0 <=? e then K <= m * 2 ^ e else K * 2 ^ (- e) <= m) ->
  (inject_Z K <= ldexp m e)%Q.
Proof.
  destruct (Z.leb_spec 0 e) as [He|He]; intros H.
  - rewrite ldexp_nonneg_exp by lia. now rewrite <- Zle_Qle.
  - pose proof (ldexp_neg_exp m e He) as E.
    assert (0 < 2 ^ (- e)) as HP by (apply Z.pow_pos_nonneg; lia).
    apply Qmult_lt_0_le_reg_r with (z := inject_Z (2 ^ (- e))).
    + now rewrite <- (Zlt_Qlt 0).
    + rewrite E, <- inject_Z_mult. now rewrite <- Zle_Qle.
Qed.

(** An integer below 2^53 is a float: rounding does not cross it. *)
Lemma roundPos_le_int a b K :
  K < 2 ^ 53 -> (Zpos a # b <= inject_Z K)%Q -> (roundPos a b <= inject_Z K)%Q.
Proof.
  intros HK Hx. unfold Qle in Hx. cbn in Hx.
  unfold roundPos. destruct (scale a b (ilog2 a b - 52)) as [n d] eqn:Es.
  pose proof (scale_normal _ _ _ _ Es) as [Hd Hn].
  unfold scale in Es. apply ldexp_le.
  destruct (Z.leb_spec 0 (ilog2 a b - 52)) as [He|He]; injection Es as <- <-.
  - assert (0 < 2 ^ (ilog2 a b - 52)) as HP by (apply Z.pow_pos_nonneg; lia).
    assert (ilog2 a b - 52 = 0) as E0.
    { destruct (Z.eq_dec (ilog2 a b - 52) 0) as [|Hne]; [assumption|exfalso].
      assert (2 ^ 1 <= 2 ^ (ilog2 a b - 52)) by (apply Z.pow_le_mono_r; lia).
      change (2 ^ 1) with 2 in *. change (2 ^ 52) with 4503599627370496 in *.
      change (2 ^ 53) with 9007199254740992 in *. nia. }
    rewrite E0 in *. change (2 ^ 0) with 1 in *. rewrite Z.mul_1_r.
    apply roundNearestEven_le; lia.
  - apply roundNearestEven_le; [lia|]. nia.
Qed.

Lemma roundPos_ge_int a b K :
  K < 2 ^ 53 -> (inject_Z K <= Zpos a # b)%Q -> (inject_Z K <= roundPos a b)%Q.
Proof.
  intros HK Hx. unfold Qle in Hx. cbn in Hx.
  unfold roundPos. destruct (scale a b (ilog2 a b - 52)) as [n d] eqn:Es.
  pose proof (scale_normal _ _ _ _ Es) as [Hd Hn].
  pose proof (significand_range _ _ _ _ Es) as [Hm _].
  unfold scale in Es. apply ldexp_ge.
  destruct (Z.leb_spec 0 (ilog2 a b - 52)) as [He|He]; injection Es as <- <-.
  - destruct (Z.eq_dec (ilog2 a b - 52) 0) as [E0|Hne].
    + rewrite E0 in *. change (2 ^ 0) with 1 in *. rewrite Z.mul_1_r.
      apply roundNearestEven_ge; lia.
    + assert (2 ^ 1 <= 2 ^ (ilog2 a b - 52)) by (apply Z.pow_le_mono_r; lia).
      change (2 ^ 1) with 2 in *. change (2 ^ 52) with 4503599627370496 in *.
      change (2 ^ 53) with 9007199254740992 in *. nia.
  - apply roundNearestEven_ge; [lia|]. nia.
Qed.

Lemma RN_le_int x K :
  0 <= K < 2 ^ 53 -> (x <= inject_Z K)%Q -> (RN x <= inject_Z K)%Q.
Proof.
  intros [H0 HK] Hx. destruct x as [[|a|a] b]; unfold RN; cbn [Qnum Qden].
  - now rewrite <- (Zle_Qle 0).
  - now apply roundPos_le_int.
  - pose proof (roundPos_error a b) as [Hlo _].
    assert (0 <= roundPos a b)%Q.
    { eapply Qle_trans; [|exact Hlo]. apply Qmult_le_0_compat; [easy|].
      unfold u. unfold Qle. cbn. lia. }
    rewrite Zle_Qle in H0. change (inject_Z 0) with 0%Q in H0. lra.
Qed.

Lemma RN_ge_int x K :
  0 <= K < 2 ^ 53 -> (inject_Z K <= x)%Q -> (inject_Z K <= RN x)%Q.
Proof.
  intros [H0 HK] Hx. destruct x as [[|a|a] b]; unfold RN; cbn [Qnum Qden].
  - unfold Qle in *. cbn in *. lia.
  - now apply roundPos_ge_int.
  - exfalso. unfold Qle in Hx. cbn in Hx. lia.
Qed.

(** The floats of the integers below 2^53 are these integers. *)
Lemma RN_int x K :
  - 2 ^ 53 < K < 2 ^ 53 -> (x == inject_Z K)%Q -> (RN x == inject_Z K)%Q.
Proof.
  intros HK Hx. destruct (Z.le_gt_cases 0 K) as [H0|H0].
  - apply Qle_antisym; [apply RN_le_int | apply RN_ge_int]; try lia;
      rewrite Hx; apply Qle_refl.
  - destruct x as [[|a|a] b].
    + exfalso. unfold Qeq in Hx. cbn in Hx. lia.
    + exfalso. unfold Qeq in Hx. cbn in Hx. lia.
    + unfold RN. cbn [Qnum Qden].
      assert (Zpos a # b == inject_Z (- K))%Q as Hy.
      { unfold Qeq in *. cbn in *. lia. }
      assert (roundPos a b == inject_Z (- K))%Q as E.
      { apply Qle_antisym; [apply roundPos_le_int | apply roundPos_ge_int];
          try lia; rewrite Hy; apply Qle_refl. }
      rewrite E, inject_Z_opp. ring.
Qed.

(** [toFixed] does not cross a multiple of its unit. *)
Lemma toFixed_le f x M :
  0 <= M -> (x * inject_Z (10 ^ Z.of_nat f) <= inject_Z M)%Q -> toFixed f x <= M.
Proof.
  intros HM H. unfold toFixed.
  assert (0 < 10 ^ Z.of_nat f) as HP by (apply Z.pow_pos_nonneg; lia).
  rewrite Zlt_Qlt in HP. change (inject_Z 0) with 0%Q in HP.
  destruct (Qle_bool 0 x) eqn:E0.
  - pose proof (toFixedPos_bounds f x) as [Hlo _].
    assert (inject_Z (toFixedPos f x) < inject_Z (M + 1))%Q as Hlt.
    { rewrite inject_Z_plus. change (inject_Z 1) with 1%Q. lra. }
    rewrite <- Zlt_Qlt in Hlt. lia.
  - assert (~ 0 <= x)%Q as Hneg by (rewrite <- Qle_bool_iff, E0; discriminate).
    pose proof (toFixedPos_bounds f (- x)) as [_ Hhi].
    assert (0 <= - x * inject_Z (10 ^ Z.of_nat f))%Q.
    { apply Qmult_le_0_compat; lra. }
    assert (inject_Z (-1) < inject_Z (toFixedPos f (- x)))%Q as Hlt.
    { change (inject_Z (-1)) with (-1)%Q. lra. }
    rewrite <- Zlt_Qlt in Hlt. lia.
Qed.

Lemma toFixed_ge f x M :
  0 <= M -> (inject_Z M <= x * inject_Z (10 ^ Z.of_nat f))%Q -> M <= toFixed f x.
Proof.
  intros HM H. unfold toFixed.
  assert (0 < 10 ^ Z.of_nat f) as HP by (apply Z.pow_pos_nonneg; lia).
  rewrite Zlt_Qlt in HP. change (inject_Z 0) with 0%Q in HP.
  rewrite Zle_Qle in HM. change (inject_Z 0) with 0%Q in HM.
  destruct (Qle_bool 0 x) eqn:E0.
  - pose proof (toFixedPos_bounds f x) as [_ Hhi].
    assert (inject_Z M < inject_Z (toFixedPos f x + 1))%Q as Hlt.
    { rewrite inject_Z_plus. change (inject_Z 1) with 1%Q. lra. }
    rewrite <- Zlt_Qlt in Hlt. lia.
  - assert (~ 0 <= x)%Q as Hneg by (rewrite <- Qle_bool_iff, E0; discriminate).
    exfalso. apply Hneg.
    apply Qnot_lt_le. intros Hx.
    assert (0 < (- x) * inject_Z (10 ^ Z.of_nat f))%Q; [|lra].
    apply Qmult_lt_0_compat; lra.
Qed.

Lemma parseFixed_le f n K :
  0 <= K < 2 ^ 53 -> n <= K * 10 ^ Z.of_nat f -> (parseFixed f n <= inject_Z K)%Q.
Proof.
  intros HK Hn. apply RN_le_int; [assumption|].
  assert (0 < 10 ^ Z.of_nat f) as HP by (apply Z.pow_pos_nonneg; lia).
  apply Qle_shift_div_r.
  - now rewrite <- (Zlt_Qlt 0).
  - rewrite <- inject_Z_mult, <- Zle_Qle. lia.
Qed.

Lemma parseFixed_ge f n K :
  0 <= K < 2 ^ 53 -> K * 10 ^ Z.of_nat f <= n -> (inject_Z K <= parseFixed f n)%Q.
Proof.
  intros HK Hn. apply RN_ge_int; [assumption|].
  assert (0 < 10 ^ Z.of_nat f) as HP by (apply Z.pow_pos_nonneg; lia).
  apply Qle_shift_div_l.
  - now rewrite <- (Zlt_Qlt 0).
  - rewrite <- inject_Z_mult, <- Zle_Qle. lia.
Qed.

End FloatFacts.

(** * Properties of the stored quality *)

Module QualityFacts.

Import Float FloatTheory FloatFacts Unicode Classifier ClassifierTheory Csv.
Local Open Scope string_scope.
Local Open Scope list_scope.
Local Open Scope Z_scope.

(** ** The percentages *)

Lemma ratio_range c t :
  0 <= c <= t -> 0 < t -> (0 <= inject_Z c / inject_Z t /\ inject_Z c / inject_Z t <= 1)%Q.
Proof.
  intros Hc Ht.
  assert (0 < inject_Z t)%Q by (now rewrite <- (Zlt_Qlt 0)).
  split.
  - apply Qle_shift_div_l; [assumption|]. rewrite Qmult_0_l, <- (Zle_Qle 0). lia.
  - apply Qle_shift_div_r; [assumption|]. rewrite Qmult_1_l, <- Zle_Qle. lia.
Qed.

Lemma percentage_range c t :
  0 <= c <= t -> 0 < t -> isPercentage (percentage c t).
Proof.
  intros Hc Ht. destruct (ratio_range c t Hc Ht) as [H0 H1].
  unfold percentage, fmul, fdiv.
  set (r := RN (inject_Z c / inject_Z t)).
  assert (0 <= r /\ r <= 1)%Q as [Hr0 Hr1].
  { split; [now apply RN_nonneg | now apply (RN_le_int _ 1)]. }
  set (p := RN (r * 100)).
  assert (0 <= p /\ p <= 100)%Q as [Hp0 Hp1].
  { split; [apply RN_nonneg; lra | apply (RN_le_int _ 100); [lia|]].
    change (inject_Z 100) with 100%Q. lra. }
  clearbody r p. split.
  - apply (parseFixed_ge 2 _ 0); [lia|]. apply toFixed_ge; [lia|].
    change (inject_Z (0 * 10 ^ Z.of_nat 2)) with 0%Q.
    change (inject_Z (10 ^ Z.of_nat 2)) with 100%Q. lra.
  - apply (parseFixed_le 2 _ 100); [lia|]. apply toFixed_le; [lia|].
    change (inject_Z (100 * 10 ^ Z.of_nat 2)) with 10000%Q.
    change (inject_Z (10 ^ Z.of_nat 2)) with 100%Q. lra.
Qed.

(** All the fruits, and none of them. *)
Lemma percentage_all t : 0 < t -> (percentage t t == 100)%Q.
Proof.
  intros Ht. unfold percentage, fmul, fdiv.
  assert (0 < inject_Z t)%Q by (now rewrite <- (Zlt_Qlt 0)).
  assert (RN (inject_Z t / inject_Z t) == 1)%Q as Hr.
  { apply (RN_int _ 1); [lia|]. field. lra. }
  set (r := RN (inject_Z t / inject_Z t)) in *. clearbody r.
  assert (RN (r * 100) == 100)%Q as Hp.
  { apply (RN_int _ 100); [lia|]. rewrite Hr. reflexivity. }
  set (p := RN (r * 100)) in *. clearbody p.
  assert (toFixed 2 p = 10000) as ->.
  { apply Z.le_antisymm; [apply toFixed_le | apply toFixed_ge]; try lia;
      rewrite Hp; apply Qle_refl. }
  reflexivity.
Qed.

Lemma percentage_none t : (percentage 0 t == 0)%Q.
Proof.
  unfold percentage, fmul, fdiv.
  assert (RN (inject_Z 0 / inject_Z t) == 0)%Q as Hr.
  { apply (RN_int _ 0); [lia|]. unfold Qdiv. now rewrite Qmult_0_l. }
  set (r := RN (inject_Z 0 / inject_Z t)) in *. clearbody r.
  assert (RN (r * 100) == 0)%Q as Hp.
  { apply (RN_int _ 0); [lia|]. rewrite Hr. reflexivity. }
  set (p := RN (r * 100)) in *. clearbody p.
  assert (toFixed 2 p = 0) as ->.
  { apply Z.le_antisymm; [apply toFixed_le | apply toFixed_ge]; try lia;
      rewrite Hp; apply Qle_refl. }
  reflexivity.
Qed.

(** A share below one in 40000 is printed as 0.00. *)
Lemma percentage_vanishes c t :
  0 <= c -> 0 < t -> 40000 * c <= t -> (percentage c t == 0)%Q.
Proof.
  intros Hc Ht Hsmall. unfold percentage, fmul, fdiv.
  assert (0 < inject_Z t)%Q as HtQ by (now rewrite <- (Zlt_Qlt 0)).
  assert (0 <= inject_Z c / inject_Z t /\ inject_Z c / inject_Z t <= 1 # 40000)%Q
    as [Hx0 Hx1].
  { split.
    - apply Qle_shift_div_l; [assumption|]. rewrite Qmult_0_l, <- (Zle_Qle 0). lia.
    - apply Qle_shift_div_r; [assumption|].
      rewrite Zle_Qle, inject_Z_mult in Hsmall.
      change (inject_Z 40000) with 40000%Q in Hsmall. lra. }
  pose proof (RN_error _ Hx0) as [_ Hr1]. pose proof (RN_nonneg _ Hx0) as Hr0.
  set (r := RN (inject_Z c / inject_Z t)) in *.
  set (x := (inject_Z c / inject_Z t)%Q) in *. clearbody r x.
  assert (0 <= r * 100)%Q as Hy0 by lra.
  pose proof (RN_error _ Hy0) as [_ Hp1]. pose proof (RN_nonneg _ Hy0) as Hp0.
  set (p := RN (r * 100)) in *. clearbody p.
  unfold u in *. change (2 ^ 53)%positive with 9007199254740992%positive in *.
  assert (r <= 1 # 39999)%Q as Hr by lra.
  assert (p <= 1 # 399)%Q as Hp by lra.
  assert (toFixed 2 p = 0) as ->.
  { apply Z.le_antisymm; [|apply toFixed_ge; [lia|]].
    - unfold toFixed. rewrite (proj2 (Qle_bool_iff 0 p) Hp0).
      pose proof (toFixedPos_bounds 2 p) as [Hlo _].
      change (inject_Z (10 ^ Z.of_nat 2)) with 100%Q in Hlo.
      assert (inject_Z (toFixedPos 2 p) < inject_Z 1)%Q as Hlt
        by (change (inject_Z 1) with 1%Q; lra).
      rewrite <- Zlt_Qlt in Hlt. lia.
    - change (inject_Z (10 ^ Z.of_nat 2)) with 100%Q.
      change (inject_Z 0) with 0%Q. lra. }
  reflexivity.
Qed.

Lemma conformity_range file : isPercentage (porcentajeConformes (calidadFruta file)).
Proof.
  pose proof (countUpload_sound file) as (Ht & Hc & Hh & Hn & Hsum).
  cbv zeta in *. cbn [porcentajeConformes calidadFruta].
  apply percentage_range; lia.
Qed.

(** ** The counters *)

Lemma counters_eq (a b : Counters) :
  totalFrutas a = totalFrutas b -> frutasConformes a = frutasConformes b ->
  frutasConHallazgos a = frutasConHallazgos b ->
  frutasNoAdmitidas a = frutasNoAdmitidas b -> a = b.
Proof. destruct a, b; cbn; congruence. Qed.

Lemma countCategory_perm k units units' :
  Permutation units units' -> countCategory k units = countCategory k units'.
Proof.
  intros H. unfold countCategory. f_equal.
  induction H; cbn; try (destruct (Category_eqb _ k)); cbn; try lia.
  destruct (Category_eqb (categoryOf x) k); cbn; lia.
Qed.

Lemma unitsOfRows_perm headers statusIndex rows rows' :
  Permutation rows rows' ->
  Permutation (unitsOfRows headers statusIndex rows)
              (unitsOfRows headers statusIndex rows').
Proof.
  intros H. unfold unitsOfRows.
  induction H; cbn.
  - constructor.
  - destruct (if hasEnoughColumns _ _ then _ else _); [now constructor | assumption].
  - destruct (if hasEnoughColumns headers (rowValues x) then _ else _),
             (if hasEnoughColumns headers (rowValues y) then _ else _);
      try reflexivity. apply perm_swap.
  - etransitivity; eassumption.
Qed.

Lemma csvStatusIndex_lt headers i :
  csvStatusIndex headers = Some i -> (i < length headers)%nat.
Proof. apply findIndex_lt. Qed.

Lemma countRows_perm headers c rows rows' :
  Permutation rows rows' ->
  countRows headers (csvStatusIndex headers) c rows =
  countRows headers (csvStatusIndex headers) c rows'.
Proof.
  intros H.
  destruct (countRows_units headers _ rows c (csvStatusIndex_lt headers))
    as (c1 & -> & H1 & H2 & H3 & H4).
  destruct (countRows_units headers _ rows' c (csvStatusIndex_lt headers))
    as (c2 & -> & G1 & G2 & G3 & G4).
  pose proof (unitsOfRows_perm headers (csvStatusIndex headers) _ _ H) as Hu.
  f_equal. apply counters_eq; try congruence.
  - rewrite H1, G1. now rewrite (Permutation_length Hu).
  - rewrite H2, G2. now rewrite (countCategory_perm _ _ _ Hu).
  - rewrite H3, G3. now rewrite (countCategory_perm _ _ _ Hu).
  - rewrite H4, G4. now rewrite (countCategory_perm _ _ _ Hu).
Qed.

(** X10: the order of the data lines of a file does not matter: two
    files with the same header line whose data lines are the same up
    to their order are stored with the same quality. *)
Theorem row_order_is_irrelevant a b header rows rows' :
  csvLines a = header :: rows -> csvLines b = header :: rows' ->
  Permutation rows rows' ->
  calidadFruta (Some a) = calidadFruta (Some b).
Proof.
  intros Ha Hb H.
  assert (countCsv a = countCsv b) as E.
  { unfold countCsv. rewrite Ha, Hb.
    destruct H; try reflexivity.
    - apply countRows_perm. now constructor.
    - apply countRows_perm. apply perm_swap.
    - destruct l as [|x l].
      + apply Permutation_nil in H. subst. cbn in H0.
        apply Permutation_nil in H0. now subst.
      + destruct l'' as [|z l''].
        * exfalso. apply Permutation_sym, Permutation_nil in H0. subst.
          apply Permutation_sym, Permutation_nil in H. discriminate.
        * apply countRows_perm. etransitivity; eassumption. }
  unfold calidadFruta, countUpload, defectosOf. cbn [mbind option_bind].
  rewrite E. reflexivity.
Qed.

Lemma row_order_is_irrelevant_witness :
  calidadFruta (Some (Scenario.csvOf 1 2)) = calidadFruta (Some Scenario.reordered).
Proof.
  apply (row_order_is_irrelevant _ _ (text "FRUTA_ID,CALIDAD_STATUS")
           (texts ["F-1,OK"; "F-1,ALERTA"; "F-1,ALERTA"])
           (texts ["F-1,ALERTA"; "F-1,OK"; "F-1,ALERTA"])).
  - vm_compute. reflexivity.
  - vm_compute. reflexivity.
  - apply perm_swap.
Defined.

(** ** A file without a status column *)

Lemma units_without_column csvContent :
  statusColumn csvContent = None ->
  countCategory MinorFinding (unitsOf csvContent) = 0 /\
  countCategory NotAdmitted (unitsOf csvContent) = 0.
Proof.
  unfold statusColumn, unitsOf.
  destruct (csvLines csvContent) as [|header [|row rows]]; try (intros _; split; reflexivity).
  intros ->. generalize (row :: rows). intros l. unfold unitsOfRows, rowStatus.
  induction l as [|line l IH]; [split; reflexivity|]. cbn [omap list_omap].
  destruct (hasEnoughColumns _ _); [|exact IH].
  rewrite !countCategory_cons. cbn. exact IH.
Qed.

Lemma upload_counts csvContent :
  let c := countUpload (Some csvContent) in
  frutasConHallazgos c = countCategory MinorFinding (unitsOf csvContent) /\
  frutasNoAdmitidas c = countCategory NotAdmitted (unitsOf csvContent).
Proof.
  destruct (countCsv_units csvContent) as (c & E & Ht & _ & Hh & Hn).
  unfold countUpload. cbn [mbind option_bind]. rewrite E.
  unfold defaultIfEmpty. destruct (totalFrutas c =? 0); cbn; auto.
Qed.

Lemma status_of_percentages record q :
  Dashboard.calidadFruta record = Some q ->
  (porcentajeNoAdmitida q == 0)%Q -> (porcentajeHallazgos q == 0)%Q ->
  Dashboard.determineBatchStatus record = Dashboard.Conforme.
Proof.
  intros E Hn Hh. unfold Dashboard.determineBatchStatus. rewrite E.
  assert (forall x y, (x == 0)%Q -> (0 <= y)%Q -> gt x y = false) as Hgt.
  { intros x y Hx Hy. unfold gt. apply negb_false_iff, Qle_bool_iff. rewrite Hx. exact Hy. }
  rewrite !Hgt by (assumption || easy). reflexivity.
Qed.

(** X11: a file none of whose headers is CALIDAD_STATUS is read as a
    lot of conformant fruits only: the record has no finding, no
    fruit that is not admitted and no defect, its conformity is 100
    and the dashboard gives it the status Conforme. *)
Theorem no_status_column_means_conformant csvContent record :
  statusColumn csvContent = None ->
  Dashboard.calidadFruta record = Some (calidadFruta (Some csvContent)) ->
  let q := calidadFruta (Some csvContent) in
  conformes q = total q /\ hallazgosMenores q = 0 /\ noAdmitidas q = 0 /\
  (porcentajeConformes q == 100)%Q /\ defectos q = [] /\
  Dashboard.determineBatchStatus record = Dashboard.Conforme.
Proof.
  intros Hcol Hrec q.
  destruct (units_without_column _ Hcol) as [Uh Un].
  destruct (upload_counts csvContent) as [Ch Cn]. cbv zeta in Ch, Cn.
  rewrite Uh in Ch. rewrite Un in Cn.
  pose proof (countUpload_sound (Some csvContent)) as (Ht & Hc & _ & _ & Hsum).
  cbv zeta in Ht, Hc, Hsum.
  assert (conformes q = total q) as Eq by (subst q; cbn; lia).
  assert (hallazgosMenores q = 0) as Eh by exact Ch.
  assert (noAdmitidas q = 0) as En by exact Cn.
  repeat split; try assumption.
  - subst q. cbn [porcentajeConformes calidadFruta].
    cbn [conformes total calidadFruta] in Eq. rewrite Eq. now apply percentage_all.
  - subst q. cbn [defectos calidadFruta]. unfold defectosOf.
    destruct (_ ≫= _); [|reflexivity]. rewrite Ch, Cn. reflexivity.
  - apply (status_of_percentages record q Hrec); subst q;
      cbn [porcentajeNoAdmitida porcentajeHallazgos calidadFruta];
      rewrite ?Ch, ?Cn; apply percentage_none.
Qed.

Lemma no_status_column_means_conformant_witness :
  Dashboard.determineBatchStatus
    (Dashboard.mkHistoryRecord "lote.csv" Scenario.nov5_2024 "user-1" None
       (Some (calidadFruta (Some Scenario.noStatusColumn))))
  = Dashboard.Conforme.
Proof.
  apply (no_status_column_means_conformant Scenario.noStatusColumn).
  - vm_compute. reflexivity.
  - reflexivity.
Defined.

(** ** The stored numbers *)

(** X12: the three percentages of a stored record, and the
    percentage of each of its defects, lie between 0 and 100,
    whatever the file. *)
Theorem stored_percentages_are_percentages file :
  let q := calidadFruta file in
  isPercentage (porcentajeConformes q) /\ isPercentage (porcentajeHallazgos q) /\
  isPercentage (porcentajeNoAdmitida q) /\
  List.Forall (fun d => isPercentage (porcentaje d)) (defectos q).
Proof.
  pose proof (countUpload_sound file) as (Ht & Hc & Hh & Hn & Hsum).
  cbv zeta in *. cbn [porcentajeConformes porcentajeHallazgos porcentajeNoAdmitida
                      defectos calidadFruta].
  repeat split; try (apply percentage_range; lia).
  unfold defectosOf. destruct (_ ≫= _); [|constructor].
  apply List.Forall_app. split.
  - destruct (0 <? _); [|constructor]. constructor; [|constructor].
    cbn. apply percentage_range; lia.
  - destruct (0 <? _); [|constructor]. constructor; [|constructor].
    cbn. apply percentage_range; lia.
Qed.

(** X13: the defects of a stored record account for the fruits that
    are not conformant: their quantities are positive and add up to
    the total less the conformant fruits; a record without defects
    is one of conformant fruits only. *)
Theorem defects_account_for_nonconformant_fruit file :
  let q := calidadFruta file in
  defectiveFruits q = total q - conformes q /\
  List.Forall (fun d => 0 < cantidad d) (defectos q) /\
  (defectos q = [] <-> conformes q = total q).
Proof.
  pose proof (countUpload_sound file) as (Ht & Hc & Hh & Hn & Hsum).
  cbv zeta in *. unfold defectiveFruits.
  cbn [defectos total conformes calidadFruta].
  unfold defectosOf.
  destruct file as [csvContent|]; cbn [mbind option_bind].
  - destruct (countCsv_units csvContent) as (c & E & _). rewrite E.
    destruct (Z.ltb_spec 0 (frutasNoAdmitidas (countUpload (Some csvContent)))),
             (Z.ltb_spec 0 (frutasConHallazgos (countUpload (Some csvContent))));
      cbn; (split; [lia|]); (split; [repeat constructor; cbn; lia|]);
      (split; [first [discriminate | intros _; lia] | first [reflexivity | intros; lia]]).
  - cbn. repeat split; try constructor; lia.
Qed.

(** ** Files of many rows *)

Lemma split_line sep line :
  ~ In sep line -> split sep line = [line].
Proof.
  induction line as [|c r IH]; intros H; [reflexivity|].
  cbn [split]. destruct (N.eqb_spec c sep) as [->|_].
  - exfalso. apply H. now left.
  - rewrite IH; [reflexivity|]. intros Hin. apply H. now right.
Qed.

Lemma split_lines sep line rest :
  ~ In sep line -> split sep (line ++ sep :: rest) = line :: split sep rest.
Proof.
  induction line as [|c r IH]; intros H.
  - cbn [app split]. now rewrite N.eqb_refl.
  - cbn [app split]. destruct (N.eqb_spec c sep) as [->|_].
    + exfalso. apply H. now left.
    + rewrite IH; [reflexivity|]. intros Hin. apply H. now right.
Qed.

(** The lines of [fileOf header rows] are the header and the rows. *)
Lemma split_fileOf header rows :
  ~ In newline header -> List.Forall (fun row => ~ In newline row) rows ->
  split newline (Scenario.fileOf header rows) = header :: rows.
Proof.
  unfold Scenario.fileOf. intros Hh Hrows. revert header Hh.
  induction Hrows as [|row rows Hrow _ IH]; intros header Hh.
  - cbn [map concat]. rewrite app_nil_r. now apply split_line.
  - cbn [map concat]. rewrite <- app_comm_cons.
    rewrite split_lines by assumption. now rewrite IH.
Qed.

Lemma filter_all {A} (p : A -> bool) l :
  List.Forall (fun x => p x = true) l -> List.filter p l = l.
Proof.
  induction 1 as [|x l Hx _ IH]; [reflexivity|]. cbn. now rewrite Hx, IH.
Qed.

Lemma Forall_repeat {A} (P : A -> Prop) x n : P x -> List.Forall P (repeat x n).
Proof. intros H. induction n; constructor; assumption. Qed.

Lemma countRow_status headers statusIndex c line status :
  hasEnoughColumns headers (rowValues line) = true ->
  rowStatus statusIndex (rowValues line) = Some status ->
  countRow headers statusIndex c line =
  Some (countStatus status
          (mkCounters (totalFrutas c + 1) (frutasConformes c)
                      (frutasConHallazgos c) (frutasNoAdmitidas c))).
Proof. intros H1 H2. unfold countRow. rewrite H1, H2. reflexivity. Qed.

(** [n] rows of the same line, of a status that is counted as [k]. *)
Lemma countRows_repeat headers statusIndex line status k n :
  hasEnoughColumns headers (rowValues line) = true ->
  rowStatus statusIndex (rowValues line) = Some status ->
  (forall c, countStatus status c = addUnit k c) ->
  forall c rest,
  countRows headers statusIndex c (repeat line n ++ rest) =
  countRows headers statusIndex
    (Nat.iter n (fun c => addUnit k
       (mkCounters (totalFrutas c + 1) (frutasConformes c)
                   (frutasConHallazgos c) (frutasNoAdmitidas c))) c) rest.
Proof.
  intros H1 H2 H3. induction n as [|n IH]; intros c rest; [reflexivity|].
  cbn [repeat app countRows].
  rewrite (countRow_status _ _ _ _ _ H1 H2), H3. cbn [mbind option_bind].
  rewrite IH. f_equal.
  exact (Nat.iter_swap n _
           (fun c => addUnit k
              (mkCounters (totalFrutas c + 1) (frutasConformes c)
                          (frutasConHallazgos c) (frutasNoAdmitidas c))) c).
Qed.

Lemma iter_conformant n c :
  Nat.iter n (fun c => addUnit Conformant
     (mkCounters (totalFrutas c + 1) (frutasConformes c)
                 (frutasConHallazgos c) (frutasNoAdmitidas c))) c =
  mkCounters (totalFrutas c + Z.of_nat n) (frutasConformes c + Z.of_nat n)
             (frutasConHallazgos c) (frutasNoAdmitidas c).
Proof.
  induction n as [|n IH].
  - destruct c. cbn. f_equal; lia.
  - rewrite Nat.iter_succ, IH. cbn. f_equal; lia.
Qed.

Lemma iter_finding n c :
  Nat.iter n (fun c => addUnit MinorFinding
     (mkCounters (totalFrutas c + 1) (frutasConformes c)
                 (frutasConHallazgos c) (frutasNoAdmitidas c))) c =
  mkCounters (totalFrutas c + Z.of_nat n) (frutasConformes c)
             (frutasConHallazgos c + Z.of_nat n) (frutasNoAdmitidas c).
Proof.
  induction n as [|n IH].
  - destruct c. cbn. f_equal; lia.
  - rewrite Nat.iter_succ, IH. cbn. f_equal; lia.
Qed.

(** The counters of a file of [ok] conformant fruits and [alerta]
    findings. *)
Lemma countUpload_csvOf ok alerta :
  (0 < ok + alerta)%nat ->
  countUpload (Some (Scenario.csvOf ok alerta)) =
  mkCounters (Z.of_nat ok + Z.of_nat alerta) (Z.of_nat ok) (Z.of_nat alerta) 0.
Proof.
  intros Hpos.
  set (header := text "FRUTA_ID,CALIDAD_STATUS").
  set (okRow := text "F-1,OK"). set (alertaRow := text "F-1,ALERTA").
  set (rows := repeat okRow ok ++ repeat alertaRow alerta).
  assert (csvLines (Scenario.csvOf ok alerta) = header :: rows) as Hlines.
  { unfold csvLines, Scenario.csvOf. fold header okRow alertaRow rows.
    rewrite split_fileOf.
    - apply (filter_all _ (header :: rows)). constructor; [reflexivity|].
      apply List.Forall_app. split; apply Forall_repeat; reflexivity.
    - vm_compute. intuition discriminate.
    - apply List.Forall_app. split; apply Forall_repeat;
        vm_compute; intuition discriminate. }
  assert (exists row rest, rows = row :: rest) as (row & rest & Hrows).
  { subst rows. destruct ok as [|ok]; [destruct alerta as [|alerta]; [lia|]|];
      cbn [repeat app]; eauto. }
  unfold countUpload, countCsv. cbn [mbind option_bind].
  rewrite Hlines, Hrows, <- Hrows. subst rows.
  set (headers := csvHeaders header).
  rewrite (countRows_repeat headers _ okRow (text "OK") Conformant);
    [|reflexivity|reflexivity|reflexivity].
  rewrite <- (app_nil_r (repeat alertaRow alerta)).
  rewrite (countRows_repeat headers _ alertaRow (text "ALERTA") MinorFinding);
    [|reflexivity|reflexivity|reflexivity].
  rewrite iter_conformant, iter_finding. cbn [countRows].
  cbn [totalFrutas frutasConformes frutasConHallazgos frutasNoAdmitidas noCounts].
  unfold defaultIfEmpty. cbn [totalFrutas].
  destruct (Z.eqb_spec (0 + Z.of_nat ok + Z.of_nat alerta) 0) as [E|_]; [lia|].
  f_equal; lia.
Qed.

Lemma countUpload_oneIn40000 :
  countUpload (Some Scenario.oneIn40000) = mkCounters 40001 40000 1 0.
Proof.
  unfold Scenario.oneIn40000. rewrite countUpload_csvOf by lia.
  rewrite N_nat_Z. reflexivity.
Qed.

(** X14: a share of findings or of fruits not admitted below one in
    40000 is stored as 0: the dashboard gives the lot the status
    Conforme, as it does a lot without any. *)
Theorem rare_defects_are_rounded_away file record :
  let q := calidadFruta file in
  Dashboard.calidadFruta record = Some q ->
  40000 * hallazgosMenores q <= total q -> 40000 * noAdmitidas q <= total q ->
  (porcentajeHallazgos q == 0)%Q /\ (porcentajeNoAdmitida q == 0)%Q /\
  Dashboard.determineBatchStatus record = Dashboard.Conforme.
Proof.
  pose proof (countUpload_sound file) as (Ht & Hc & Hh & Hn & Hsum).
  cbv zeta in *. cbn [porcentajeHallazgos porcentajeNoAdmitida hallazgosMenores
                      noAdmitidas total calidadFruta].
  intros Hrec H1 H2.
  assert (percentage (frutasConHallazgos (countUpload file))
            (totalFrutas (countUpload file)) == 0)%Q as E1
    by (apply percentage_vanishes; lia).
  assert (percentage (frutasNoAdmitidas (countUpload file))
            (totalFrutas (countUpload file)) == 0)%Q as E2
    by (apply percentage_vanishes; lia).
  repeat split; try assumption.
  apply (status_of_percentages record _ Hrec); assumption.
Qed.

Lemma rare_defects_are_rounded_away_witness :
  let q := calidadFruta (Some Scenario.oneIn40000) in
  total q = 40001 /\ hallazgosMenores q = 1 /\
  (porcentajeHallazgos q == 0)%Q /\
  Dashboard.determineBatchStatus Scenario.rareFinding = Dashboard.Conforme.
Proof.
  cbv zeta. split; [|split].
  - cbn [total calidadFruta]. rewrite countUpload_oneIn40000. reflexivity.
  - cbn [hallazgosMenores calidadFruta]. rewrite countUpload_oneIn40000. reflexivity.
  - assert (forall A B C : Prop, A /\ B /\ C -> A /\ C) as drop by tauto.
    apply (drop _ _ _
             (rare_defects_are_rounded_away (Some Scenario.oneIn40000)
                Scenario.rareFinding eq_refl
                ltac:(cbn [hallazgosMenores total calidadFruta];
                      rewrite countUpload_oneIn40000; cbn; lia)
                ltac:(cbn [noAdmitidas total calidadFruta];
                      rewrite countUpload_oneIn40000; cbn; lia))).
Defined.

End QualityFacts.

(** * Properties of the summary *)

Module SummaryFacts.

Import Float FloatTheory FloatFacts Dashboard DashboardTheory Charting Csv.
Local Open Scope string_scope.
Local Open Scope Z_scope.

(** ** The counts of the statuses *)

Lemma lotsOf_cons st r data :
  lotsOf st (r :: data) =
  (match determineBatchStatus r, st with
   | Conforme, Conforme | Hallazgo, Hallazgo
   | Descarte, Descarte | Pendiente, Pendiente => 1
   | _, _ => 0
   end) + lotsOf st data.
Proof.
  unfold lotsOf. cbn [List.filter].
  destruct (determineBatchStatus r), st; cbn [length]; lia.
Qed.

Lemma lotsOf_nonneg st data : 0 <= lotsOf st data.
Proof. unfold lotsOf. lia. Qed.

Lemma lotsOf_total data :
  lotsOf Conforme data + lotsOf Hallazgo data + lotsOf Descarte data
  + lotsOf Pendiente data = Z.of_nat (length data).
Proof.
  induction data as [|r data IH]; [reflexivity|].
  rewrite !lotsOf_cons. cbn [length]. destruct (determineBatchStatus r); lia.
Qed.

Lemma totals_fold data : forall acc,
  let acc' := fold_left totalsStep data acc in
  rejectedCount acc' = rejectedCount acc + lotsOf Descarte data /\
  nConforme (statusCounts acc') = nConforme (statusCounts acc) + lotsOf Conforme data /\
  nHallazgo (statusCounts acc') = nHallazgo (statusCounts acc) + lotsOf Hallazgo data /\
  nDescarte (statusCounts acc') = nDescarte (statusCounts acc) + lotsOf Descarte data /\
  nPendiente (statusCounts acc') = nPendiente (statusCounts acc) + lotsOf Pendiente data /\
  totalConformitySum acc' =
    fold_left fadd (map conformityOf data) (totalConformitySum acc).
Proof.
  induction data as [|r data IH]; intros acc; cbn [fold_left map].
  - cbv zeta. unfold lotsOf. cbn. repeat split; lia.
  - cbv zeta in *. specialize (IH (totalsStep acc r)).
    destruct IH as (I1 & I2 & I3 & I4 & I5 & I6).
    rewrite I1, I2, I3, I4, I5, I6, !lotsOf_cons. unfold totalsStep.
    destruct (determineBatchStatus r); cbn; repeat split; lia.
Qed.

Lemma processData_nonempty zoneOffset data filter :
  data <> [] ->
  processData zoneOffset data filter =
    let acc := fold_left totalsStep data (mkTotals 0 0 (mkStatusCounts 0 0 0 0)) in
    let m := trendMapSorted zoneOffset data in
    mkProcessed
      (mkKpis (Fixed (toFixed 1 (fdiv (totalConformitySum acc)
                                   (inject_Z (Z.of_nat (length data))))))
              (rejectedCount acc) "N/A" (Z.of_nat (length data)))
      (mkCharts (mkTrend (map fst m)
                   (map (fun v => toFixed 1 (fdiv (fst v) (inject_Z (snd v)))) (map snd m)))
                (mkBreakdown ["Descarte"; "Hallazgo"; "Conforme"]
                   [nDescarte (statusCounts acc); nHallazgo (statusCounts acc);
                    nConforme (statusCounts acc)])).
Proof.
  intros H. unfold processData.
  destruct (Z.eqb_spec (Z.of_nat (length data)) 0) as [E|_]; [|reflexivity].
  destruct data; [contradiction | discriminate].
Qed.

Lemma breakdown_of_nonempty zoneOffset data filter :
  data <> [] ->
  breakdownData (breakdown (charts (processData zoneOffset data filter))) =
    [lotsOf Descarte data; lotsOf Hallazgo data; lotsOf Conforme data] /\
  breakdownLabels (breakdown (charts (processData zoneOffset data filter))) =
    ["Descarte"; "Hallazgo"; "Conforme"].
Proof.
  intros H. rewrite (processData_nonempty _ _ _ H). cbv zeta.
  destruct (totals_fold data (mkTotals 0 0 (mkStatusCounts 0 0 0 0)))
    as (I1 & I2 & I3 & I4 & _).
  cbn [charts breakdown breakdownData breakdownLabels].
  rewrite I2, I3, I4. split; reflexivity.
Qed.

Lemma summary_kpis zoneOffset data filter :
  rechazados (kpis (processData zoneOffset data filter)) = lotsOf Descarte data /\
  completadas (kpis (processData zoneOffset data filter)) = Z.of_nat (length data).
Proof.
  destruct data as [|r data]; [split; reflexivity|].
  rewrite processData_nonempty by discriminate. cbv zeta.
  destruct (totals_fold (r :: data) (mkTotals 0 0 (mkStatusCounts 0 0 0 0)))
    as (I1 & _).
  cbn [kpis rechazados completadas]. rewrite I1. split; reflexivity.
Qed.

Lemma lotsOf_perm st data data' :
  Permutation data data' -> lotsOf st data = lotsOf st data'.
Proof.
  induction 1; rewrite ?lotsOf_cons; lia.
Qed.

(** The summary reads the date and the quality of a record. *)
Lemma totalsStep_alike acc r r' :
  alike r r' -> totalsStep acc r = totalsStep acc r'.
Proof.
  intros [_ E]. unfold totalsStep, determineBatchStatus, conformityOf. now rewrite E.
Qed.

Lemma trendStep_alike zoneOffset m r r' :
  alike r r' -> trendStep zoneOffset m r = trendStep zoneOffset m r'.
Proof.
  intros [Ed Ec]. unfold trendStep, keyOf, conformityOf. now rewrite Ed, Ec.
Qed.

Lemma insertByDate_alike a b l l' :
  alike a b -> Forall2 alike l l' ->
  Forall2 alike (insertByDate a l) (insertByDate b l').
Proof.
  intros Hab. induction 1 as [|x y l l' Hxy Hl IH]; cbn.
  - constructor; [assumption | constructor].
  - destruct Hab as (Ed & ?), Hxy as (Ed' & ?). rewrite Ed, Ed'.
    destruct (date b <=? date y).
    + constructor; [now split|]. constructor; [now split | assumption].
    + constructor; [now split|]. apply IH.
Qed.

Lemma sortByDate_alike l l' :
  Forall2 alike l l' -> Forall2 alike (sortByDate l) (sortByDate l').
Proof.
  induction 1; cbn; [constructor | now apply insertByDate_alike].
Qed.

Lemma fold_totalsStep_alike l l' :
  Forall2 alike l l' ->
  forall acc, fold_left totalsStep l acc = fold_left totalsStep l' acc.
Proof.
  induction 1 as [|a b l l' Hab _ IH]; intros acc; cbn; [reflexivity|].
  now rewrite (totalsStep_alike acc a b Hab).
Qed.

Lemma fold_trendStep_alike zoneOffset l l' :
  Forall2 alike l l' ->
  forall m, fold_left (trendStep zoneOffset) l m = fold_left (trendStep zoneOffset) l' m.
Proof.
  induction 1 as [|a b l l' Hab _ IH]; intros m; cbn; [reflexivity|].
  now rewrite (trendStep_alike zoneOffset m a b Hab).
Qed.

Lemma processData_alike zoneOffset l l' filter :
  Forall2 alike l l' ->
  processData zoneOffset l filter = processData zoneOffset l' filter.
Proof.
  intros H. unfold processData, trendMapSorted.
  rewrite (Forall2_length _ _ _ H).
  rewrite (fold_totalsStep_alike _ _ H).
  rewrite (fold_trendStep_alike zoneOffset _ _ (sortByDate_alike _ _ H)).
  reflexivity.
Qed.

(** Two records of different dates are put in place in any order. *)
Lemma insertByDate_comm a b l :
  date a <> date b ->
  insertByDate a (insertByDate b l) = insertByDate b (insertByDate a l).
Proof.
  intros Hne. induction l as [|x l IH]; cbn.
  - destruct (Z.leb_spec (date a) (date b)), (Z.leb_spec (date b) (date a));
      try reflexivity; lia.
  - destruct (Z.leb_spec (date b) (date x)), (Z.leb_spec (date a) (date x)); cbn;
      destruct (Z.leb_spec (date a) (date b)), (Z.leb_spec (date b) (date a));
      try lia; try reflexivity;
      repeat match goal with
             | |- context [date ?u <=? date ?v] =>
                 destruct (Z.leb_spec (date u) (date v)); try lia
             end; try reflexivity.
    all: now rewrite IH.
Qed.

(** X15: the summary counts each lot once: the breakdown gives the
    numbers of the lots of the statuses Descarte, Hallazgo and
    Conforme, the rejected lots are those of the status Descarte, and
    the lots the breakdown leaves out are the pending ones. *)
Theorem breakdown_counts_lots_by_status zoneOffset data filter :
  data <> [] ->
  let summary := processData zoneOffset data filter in
  breakdownData (breakdown (charts summary)) =
    [lotsOf Descarte data; lotsOf Hallazgo data; lotsOf Conforme data] /\
  rechazados (kpis summary) = lotsOf Descarte data /\
  lotsOf Descarte data + lotsOf Hallazgo data + lotsOf Conforme data
    = completadas (kpis summary) - lotsOf Pendiente data.
Proof.
  intros H. cbv zeta. rewrite (processData_nonempty _ _ _ H). cbv zeta.
  destruct (totals_fold data (mkTotals 0 0 (mkStatusCounts 0 0 0 0)))
    as (I1 & I2 & I3 & I4 & _).
  cbn [kpis charts breakdown breakdownData rechazados completadas].
  rewrite I1, I2, I3, I4. cbn [rejectedCount statusCounts nConforme nHallazgo nDescarte].
  pose proof (lotsOf_total data). repeat split; lia.
Qed.

Lemma breakdown_counts_lots_by_status_witness :
  breakdownData (breakdown (charts (processData Scenario.utc Scenario.yearApart "Global")))
  = [lotsOf Descarte Scenario.yearApart; lotsOf Hallazgo Scenario.yearApart;
     lotsOf Conforme Scenario.yearApart].
Proof.
  apply (breakdown_counts_lots_by_status Scenario.utc Scenario.yearApart "Global").
  discriminate.
Defined.

(** X16: the breakdown chart shows "Sin datos" exactly when no lot
    has a status other than Pendiente, an empty history included;
    otherwise it shows the three counts under their labels. *)
Theorem breakdown_chart_without_data zoneOffset data filter :
  let chart := updateBreakdownChart (breakdown (charts (processData zoneOffset data filter))) in
  (lotsOf Pendiente data = Z.of_nat (length data) ->
   chart = mkDoughnut [1] ["Sin datos"] ["#e5e7eb"]) /\
  (lotsOf Pendiente data <> Z.of_nat (length data) ->
   chart = mkDoughnut
             [lotsOf Descarte data; lotsOf Hallazgo data; lotsOf Conforme data]
             ["Descarte"; "Hallazgo"; "Conforme"]
             ["#ef4444"; "#f59e0b"; "#10b981"]).
Proof.
  cbv zeta. destruct data as [|r data].
  - split; [reflexivity|]. intros H. now contradiction H.
  - assert (r :: data <> []) as Hne by discriminate.
    pose proof (breakdown_of_nonempty zoneOffset (r :: data) filter Hne)
      as [Hd Hl].
    unfold updateBreakdownChart. rewrite Hd, Hl. cbn [existsb].
    pose proof (lotsOf_total (r :: data)) as Hsum.
    pose proof (lotsOf_nonneg Descarte (r :: data)).
    pose proof (lotsOf_nonneg Hallazgo (r :: data)).
    pose proof (lotsOf_nonneg Conforme (r :: data)).
    destruct (Z.ltb_spec 0 (lotsOf Descarte (r :: data))),
             (Z.ltb_spec 0 (lotsOf Hallazgo (r :: data))),
             (Z.ltb_spec 0 (lotsOf Conforme (r :: data)));
      cbn [orb]; split; intros Hp; try reflexivity; exfalso; lia.
Qed.

Lemma breakdown_chart_without_data_witness :
  chartLabels (updateBreakdownChart
     (breakdown (charts (processData Scenario.utc
        [mkHistoryRecord "lote.csv" Scenario.nov5_2024 "user-1" None None] "Global"))))
  = ["Sin datos"].
Proof.
  pose proof (breakdown_chart_without_data Scenario.utc
    [mkHistoryRecord "lote.csv" Scenario.nov5_2024 "user-1" None None] "Global") as [H _].
  rewrite H; reflexivity.
Defined.

(** ** The averages *)

Lemma sum_range vals : forall s0 k,
  (0 <= s0 /\ s0 <= inject_Z (100 * k))%Q -> 0 <= k ->
  List.Forall isPercentage vals ->
  100 * (k + Z.of_nat (length vals)) < 2 ^ 53 ->
  (0 <= fold_left fadd vals s0 /\
   fold_left fadd vals s0 <= inject_Z (100 * (k + Z.of_nat (length vals))))%Q.
Proof.
  induction vals as [|v vals IH]; intros s0 k Hs Hk Hv Hn; cbn [fold_left length] in *.
  - now rewrite Z.add_0_r.
  - inversion_clear Hv as [|? ? [Hv0 Hv1] Hvs].
    replace (k + Z.of_nat (S (length vals))) with ((k + 1) + Z.of_nat (length vals)) in * by lia.
    apply IH; try assumption; try lia.
    destruct Hs as [Hs0 Hs1]. unfold fadd. split.
    + apply RN_nonneg. lra.
    + apply RN_le_int; [lia|].
      replace (100 * (k + 1)) with (100 * k + 100) by lia.
      rewrite inject_Z_plus. change (inject_Z 100) with 100%Q. lra.
Qed.

Lemma mean_range vals :
  List.Forall isPercentage vals -> 100 * Z.of_nat (length vals) < 2 ^ 53 ->
  isTenths (toFixed 1 (fdiv (floatSum vals) (inject_Z (Z.of_nat (length vals))))).
Proof.
  intros Hv Hn. unfold floatSum.
  destruct (sum_range vals 0 0) as [H0 H1]; try assumption; try lia.
  { split; apply Qle_refl. }
  rewrite Z.add_0_l in H1.
  set (s := fold_left fadd vals 0%Q) in *. clearbody s.
  set (n := Z.of_nat (length vals)) in *.
  assert (0 <= n) as Hn0 by lia. clearbody n.
  assert (0 <= s / inject_Z n /\ s / inject_Z n <= 100)%Q as [Hq0 Hq1].
  { destruct (Z.eq_dec n 0) as [->|Hne].
    - unfold Qdiv. change (/ inject_Z 0)%Q with 0%Q. rewrite Qmult_0_r. split; easy.
    - assert (0 < inject_Z n)%Q by (rewrite <- (Zlt_Qlt 0); lia).
      rewrite inject_Z_mult in H1. change (inject_Z 100) with 100%Q in H1. split.
      + apply Qle_shift_div_l; [assumption|]. lra.
      + apply Qle_shift_div_r; [assumption|]. lra. }
  unfold fdiv.
  pose proof (RN_nonneg _ Hq0) as Hr0.
  pose proof (RN_le_int _ 100 ltac:(lia) Hq1) as Hr1.
  change (inject_Z 100) with 100%Q in Hr1.
  set (r := RN (s / inject_Z n)) in *. clearbody r. split.
  - apply toFixed_ge; [lia|]. change (inject_Z (10 ^ Z.of_nat 1)) with 10%Q.
    change (inject_Z 0) with 0%Q. lra.
  - apply toFixed_le; [lia|]. change (inject_Z (10 ^ Z.of_nat 1)) with 10%Q.
    change (inject_Z 1000) with 1000%Q. lra.
Qed.

Lemma mean_conformity_range b :
  List.Forall (fun r => isPercentage (conformityOf r)) b ->
  100 * Z.of_nat (length b) < 2 ^ 53 ->
  isTenths (toFixed 1 (fdiv (floatSum (map conformityOf b))
                            (inject_Z (Z.of_nat (length b))))).
Proof.
  intros Hv Hn. rewrite <- (length_map conformityOf b).
  apply mean_range; [now apply List.Forall_map | now rewrite length_map].
Qed.

Lemma Forall_bucketOf zoneOffset (P : HistoryRecord -> Prop) k data :
  List.Forall P data -> List.Forall P (bucketOf zoneOffset k (sortByDate data)).
Proof.
  rewrite !List.Forall_forall. intros H r Hr.
  apply In_bucketOf in Hr as [Hr _]. apply H.
  eapply Permutation_in; [apply Permutation_sym, sortByDate_perm | exact Hr].
Qed.

Lemma length_bucketOf zoneOffset k data :
  (length (bucketOf zoneOffset k (sortByDate data)) <= length data)%nat.
Proof.
  unfold bucketOf. etransitivity; [apply List.filter_length_le|].
  now rewrite <- (Permutation_length (sortByDate_perm data)).
Qed.

Lemma conformidad_range zoneOffset data filter :
  List.Forall (fun r => isPercentage (conformityOf r)) data ->
  100 * Z.of_nat (length data) < 2 ^ 53 ->
  shownConformity (conformidad (kpis (processData zoneOffset data filter))).
Proof.
  intros Hv Hn. destruct data as [|r0 data0]; [reflexivity|].
  set (data := r0 :: data0) in *.
  assert (data <> []) as Hne by discriminate. clearbody data.
  rewrite (processData_nonempty _ _ _ Hne). cbv zeta.
  cbn [kpis conformidad shownConformity].
  destruct (totals_fold data (mkTotals 0 0 (mkStatusCounts 0 0 0 0)))
    as (_ & _ & _ & _ & _ & ->).
  cbn [totalConformitySum]. now apply mean_conformity_range.
Qed.

Lemma trendData_range zoneOffset data filter :
  List.Forall (fun r => isPercentage (conformityOf r)) data ->
  100 * Z.of_nat (length data) < 2 ^ 53 ->
  List.Forall isTenths (trendData (trend (charts (processData zoneOffset data filter)))).
Proof.
  intros Hv Hn. destruct data as [|r0 data0]; [constructor|].
  set (data := r0 :: data0) in *.
  assert (data <> []) as Hne by discriminate. clearbody data.
  rewrite (processData_nonempty _ _ _ Hne). cbv zeta.
  cbn [charts trend trendData].
  pose proof (trendMapSorted_keys zoneOffset data) as Hk.
  assert (List.NoDup (keysOf (trendMapSorted zoneOffset data))) as Hnd
    by (rewrite Hk; apply NoDup_firstOccurrences).
  rewrite (entries_of_keys _ Hnd) at 1.
  rewrite !List.map_map. apply List.Forall_map, List.Forall_forall.
  intros k Hin. cbn [fst snd].
  rewrite (trendMapSorted_entry zoneOffset data k Hin).
  unfold default, from_option, id. cbn [fst snd].
  apply mean_conformity_range.
  - now apply Forall_bucketOf.
  - pose proof (length_bucketOf zoneOffset k data). lia.
Qed.

(** X17: when the conformity of every lot is a percentage, so are
    the numbers of the summary: the average conformity and every
    value of the trend lie between 0.0 and 100.0, and the trend has a
    value for each of its labels. *)
Theorem summary_shows_percentages zoneOffset data filter :
  List.Forall (fun r => isPercentage (conformityOf r)) data ->
  100 * Z.of_nat (length data) < 2 ^ 53 ->
  let summary := processData zoneOffset data filter in
  shownConformity (conformidad (kpis summary)) /\
  List.Forall isTenths (trendData (trend (charts summary))) /\
  length (trendData (trend (charts summary))) = length (trendLabels (trend (charts summary))).
Proof.
  intros Hv Hn. cbv zeta.
  split; [now apply conformidad_range|].
  split; [now apply trendData_range|].
  destruct data as [|r data]; [reflexivity|].
  rewrite processData_nonempty by discriminate. cbv zeta.
  cbn [charts trend trendData trendLabels]. now rewrite !length_map.
Qed.

Lemma summary_shows_percentages_witness :
  shownConformity
    (conformidad (kpis (processData Scenario.utc Scenario.yearApart "Global"))).
Proof.
  apply (summary_shows_percentages Scenario.utc Scenario.yearApart "Global").
  - repeat constructor; vm_compute; discriminate.
  - vm_compute. reflexivity.
Defined.

End SummaryFacts.

(** * Properties of the server *)

Module ServerFacts.

Import Float FloatTheory FloatFacts Server.
Import DashboardTheory Charting SummaryFacts Csv QualityFacts.
Local Open Scope string_scope.
Local Open Scope Z_scope.

(** ** The listing *)

Lemma insertRecent_perm r l : Permutation (r :: l) (insertRecent r l).
Proof.
  induction l as [|x l IH]; cbn; [reflexivity|].
  destruct (date x <=? date r); [reflexivity|].
  rewrite perm_swap. now apply perm_skip.
Qed.

Lemma sortRecentFirst_perm l : Permutation l (sortRecentFirst l).
Proof.
  induction l as [|r l IH]; cbn; [constructor|].
  rewrite <- insertRecent_perm. now apply perm_skip.
Qed.

Lemma insertRecent_sorted r l :
  StronglySorted recentFirst l -> StronglySorted recentFirst (insertRecent r l).
Proof.
  induction 1 as [|x l Hl IH Hx]; cbn.
  - repeat constructor.
  - destruct (Z.leb_spec (date x) (date r)).
    + constructor; [now constructor|].
      constructor; [assumption|].
      eapply List.Forall_impl; [|exact Hx]. unfold recentFirst. intros; lia.
    + constructor; [assumption|].
      rewrite <- (insertRecent_perm r l). constructor; [|assumption].
      unfold recentFirst. lia.
Qed.

Lemma sortRecentFirst_sorted l : StronglySorted recentFirst (sortRecentFirst l).
Proof.
  induction l as [|r l IH]; cbn; [constructor | now apply insertRecent_sorted].
Qed.

Lemma In_ofUser userId h r :
  In r (ofUser userId h) <->
  In r h /\ (truthy userId = true -> Some (processedBy r) = userId).
Proof.
  unfold ofUser. destruct userId as [u|]; cbn [truthy default].
  - destruct (String.eqb_spec u "") as [->|Hne]; cbn [negb].
    + split; [intros H; split; [exact H | intros [=]] | intros [H _]; exact H].
    + rewrite List.filter_In. split; intros [H1 H2]; split; try assumption.
      * intros _. apply String.eqb_eq in H2. now rewrite H2.
      * apply String.eqb_eq. specialize (H2 eq_refl). now injection H2.
  - split; [intros H; split; [exact H | intros [=]] | intros [H _]; exact H].
Qed.

Lemma In_getHistory userId st r :
  In r (data (getHistory userId st)) <->
  In r (history st) /\ (truthy userId = true -> Some (processedBy r) = userId).
Proof.
  unfold getHistory. cbn [data]. rewrite <- In_ofUser.
  split; apply Permutation_in;
    [apply Permutation_sym, sortRecentFirst_perm | apply sortRecentFirst_perm].
Qed.

(** X18: the listing of the history holds the records of the user
    asked for, each as often as the history does and no other, the
    most recent first; without a user (or with the empty one) it
    holds the whole history.  Its count is its length. *)
Theorem history_lists_user_records_recent_first userId st :
  let listing := getHistory userId st in
  StronglySorted recentFirst (data listing) /\
  Permutation (ofUser userId (history st)) (data listing) /\
  count listing = Z.of_nat (length (data listing)) /\
  (forall r, In r (data listing) <->
     In r (history st) /\ (truthy userId = true -> Some (processedBy r) = userId)) /\
  (truthy userId = false -> Permutation (history st) (data listing)).
Proof.
  cbv zeta. unfold getHistory. cbn [data count].
  split; [apply sortRecentFirst_sorted|].
  split; [apply sortRecentFirst_perm|].
  split; [reflexivity|].
  split.
  - intros r. apply (In_getHistory userId st r).
  - intros H. unfold ofUser. rewrite H. apply sortRecentFirst_perm.
Qed.

Lemma history_lists_user_records_recent_first_witness :
  data (getHistory (Some "")
          (mkStore [mkUploadRecord "1-a" "lote.csv" "1-lote.csv" 120 Scenario.nov5_2024
                      "Completada" "0xabc" "user-1" "uploads/1-lote.csv" None None None] ∅))
  = [mkUploadRecord "1-a" "lote.csv" "1-lote.csv" 120 Scenario.nov5_2024
       "Completada" "0xabc" "user-1" "uploads/1-lote.csv" None None None].
Proof.
  pose proof (history_lists_user_records_recent_first (Some "")
    (mkStore [mkUploadRecord "1-a" "lote.csv" "1-lote.csv" 120 Scenario.nov5_2024
                "Completada" "0xabc" "user-1" "uploads/1-lote.csv" None None None] ∅))
    as (_ & _ & _ & _ & H).
  specialize (H eq_refl). cbn [history] in H.
  apply Permutation_sym, Permutation_length_1_inv in H. exact H.
Defined.

(** ** Looking a record up *)

Lemma findIndex_None {A} (p : A -> bool) l :
  Classifier.findIndex p l = None <-> forall x, In x l -> p x = false.
Proof.
  induction l as [|a l IH]; cbn.
  - split; [intros _ x [] | reflexivity].
  - destruct (p a) eqn:Ea.
    + split; [discriminate|]. intros H. specialize (H a (or_introl eq_refl)). congruence.
    + destruct (Classifier.findIndex p l); cbn.
      * split; [discriminate|]. intros H.
        assert (Some n = None) as [=]. apply IH. intros x Hx. apply H. now right.
      * split; [|reflexivity]. intros _ x [<-|Hx]; [assumption|]. now apply IH.
Qed.

Lemma findIndex_Some {A} (p : A -> bool) l i :
  Classifier.findIndex p l = Some i ->
  exists x, l !! i = Some x /\ p x = true /\
            List.find p l = Some x /\
            forall y, In y (take i l) -> p y = false.
Proof.
  revert i. induction l as [|a l IH]; cbn; [discriminate|]. intros i.
  destruct (p a) eqn:Ea.
  - intros [= <-]. exists a. cbn. repeat split; try assumption. intros y [].
  - destruct (Classifier.findIndex p l) as [j|]; cbn; [|discriminate].
    intros [= <-]. destruct (IH j eq_refl) as (x & H1 & H2 & H3 & H4).
    exists x. cbn. repeat split; try assumption.
    intros y [<-|Hy]; [assumption | now apply H4].
Qed.

Lemma lookup_In {A} (l : list A) i x : l !! i = Some x -> In x l.
Proof.
  revert i. induction l as [|a l IH]; intros [|i]; cbn; try discriminate.
  - intros [= ->]. now left.
  - intros H. right. now apply IH with i.
Qed.








(** ** The simulation *)

Lemma sameLot_refl a : sameLot a a.
Proof. repeat split. Qed.

Lemma sameLot_withSimulation record result at_ :
  sameLot record (withSimulation record result at_).
Proof. repeat split. Qed.

Lemma Forall2_sameLot_refl h : Forall2 sameLot h h.
Proof. induction h; constructor; auto using sameLot_refl. Qed.

Lemma Forall2_sameLot_insert h i record updated :
  h !! i = Some record -> sameLot record updated ->
  Forall2 sameLot h (<[i := updated]> h).
Proof.
  revert i. induction h as [|a h IH]; intros [|i]; cbn; try discriminate.
  - intros [= ->] H. constructor; [assumption | apply Forall2_sameLot_refl].
  - intros Hi H. constructor; [apply sameLot_refl | now apply IH].
Qed.

Lemma ofUser_sameLot userId h h' :
  Forall2 sameLot h h' -> Forall2 sameLot (ofUser userId h) (ofUser userId h').
Proof.
  unfold ofUser. destruct (truthy userId); [|trivial].
  induction 1 as [|a b h h' (Hd & Hc & Hp) _ IH]; cbn; [constructor|].
  rewrite Hp. destruct (String.eqb _ _); [constructor|]; try assumption.
  now repeat split.
Qed.

Lemma insertRecent_sameLot a b l l' :
  sameLot a b -> Forall2 sameLot l l' ->
  Forall2 sameLot (insertRecent a l) (insertRecent b l').
Proof.
  intros Hab. induction 1 as [|x y l l' Hxy Hl IH]; cbn.
  - constructor; [assumption | constructor].
  - destruct Hab as (Ed & ?), Hxy as (Ed' & ?). rewrite Ed, Ed'.
    destruct (date y <=? date b).
    + constructor; [now repeat split|]. constructor; [now repeat split | assumption].
    + constructor; [now repeat split|]. apply IH.
Qed.

Lemma sortRecentFirst_sameLot l l' :
  Forall2 sameLot l l' -> Forall2 sameLot (sortRecentFirst l) (sortRecentFirst l').
Proof.
  induction 1; cbn; [constructor | now apply insertRecent_sameLot].
Qed.

Lemma fetch_sameLot userId st st' :
  Forall2 sameLot (history st) (history st') ->
  Forall2 alike (fetchHistoryData userId st) (fetchHistoryData userId st').
Proof.
  intros H. unfold fetchHistoryData, getHistory. cbn [data].
  assert (Forall2 sameLot (sortRecentFirst (ofUser userId (history st)))
                          (sortRecentFirst (ofUser userId (history st')))) as Hs.
  { apply sortRecentFirst_sameLot. now apply ofUser_sameLot. }
  induction Hs as [|a b l l' (Hd & Hc & _) _ IH]; cbn; constructor; try assumption.
  now split.
Qed.

Lemma find_insert (p : UploadRecord -> bool) h i updated :
  Classifier.findIndex p h = Some i -> p updated = true ->
  List.find p (<[i := updated]> h) = Some updated.
Proof.
  revert i. induction h as [|a h IH]; cbn; [discriminate|]. intros i.
  destruct (p a) eqn:Ea.
  - intros [= <-] Hu. cbn. now rewrite Hu.
  - destruct (Classifier.findIndex p h) as [j|]; cbn; [|discriminate].
    intros [= <-] Hu. cbn. rewrite Ea. now apply IH.
Qed.

(** X21: a simulation result sent for a lot of the history is
    stored in its record and is what the lot is then read with; no
    record is added or lost, and the summary of the dashboard is what
    it was, for every user. *)
Theorem simulation_result_changes_no_summary io lote result st :
  writable io = true -> lote <> "" -> result <> "" ->
  (exists record, In record (history st) /\ id record = lote) ->
  exists updated st',
    updateSimulation io (Some lote) (Some result) st = (Success updated, st') /\
    simResult updated = Some result /\ lastSimulation updated = Some (now io) /\
    getBatch lote st' = Success updated /\
    length (history st') = length (history st) /\
    files st' = files st /\
    forall zoneOffset userId filter,
      Dashboard.processData zoneOffset (fetchHistoryData userId st') filter =
      Dashboard.processData zoneOffset (fetchHistoryData userId st) filter.
Proof.
  intros Hw Hl Hr (record & Hin & Hid).
  destruct (Classifier.findIndex (hasId lote) (history st)) as [i|] eqn:Ei.
  2: { exfalso. rewrite findIndex_None in Ei. specialize (Ei record Hin).
       unfold hasId in Ei. apply String.eqb_neq in Ei. contradiction. }
  destruct (findIndex_Some _ _ _ Ei) as (x & Hx & Hp & _ & _).
  exists (withSimulation x result (now io)),
         (mkStore (<[i := withSimulation x result (now io)]> (history st)) (files st)).
  split; [|split; [reflexivity|split; [reflexivity|split; [|split; [|split]]]]].
  - unfold updateSimulation, truthy.
    apply String.eqb_neq in Hl, Hr. rewrite Hl, Hr.
    cbn [negb orb default from_option Datatypes.id]. rewrite Ei, Hx.
    unfold saveHistory. rewrite Hw. reflexivity.
  - unfold getBatch. cbn [history].
    now rewrite (find_insert _ _ _ (withSimulation x result (now io)) Ei Hp).
  - cbn [history]. now rewrite length_insert.
  - reflexivity.
  - intros zoneOffset userId filter. symmetry.
    apply processData_alike, fetch_sameLot. cbn [history].
    apply Forall2_sameLot_insert with x; [assumption|].
    apply sameLot_withSimulation.
Qed.

Lemma simulation_result_changes_no_summary_witness :
  exists updated st',
    updateSimulation online (Some "1-a") (Some "Hallazgo") disk = (Success updated, st') /\
    simResult updated = Some "Hallazgo".
Proof.
  destruct (simulation_result_changes_no_summary online "1-a" "Hallazgo" disk)
    as (updated & st' & H1 & H2 & _).
  - reflexivity.
  - discriminate.
  - discriminate.
  - exists lotA. split; [left|]; reflexivity.
  - exists updated, st'. split; assumption.
Defined.

(** ** The statistics *)

Lemma critical_alert_is_rejected record :
  isCriticalAlert record = true ->
  Dashboard.determineBatchStatus (toHistoryRecord record) = Dashboard.Descarte.
Proof.
  unfold isCriticalAlert, Dashboard.determineBatchStatus. cbn [toHistoryRecord Dashboard.calidadFruta].
  destruct (calidadFruta record) as [q|]; [|discriminate].
  intros H. apply gt_spec in H.
  assert (gt (Classifier.porcentajeNoAdmitida q) 15 = true) as ->; [|reflexivity].
  apply gt_spec. lra.
Qed.

Lemma critical_alerts_le h :
  Z.of_nat (length (List.filter isCriticalAlert h))
  <= lotsOf Dashboard.Descarte (map toHistoryRecord h).
Proof.
  induction h as [|r h IH]; [reflexivity|]. cbn [List.filter map].
  rewrite lotsOf_cons. destruct (isCriticalAlert r) eqn:E.
  - rewrite (critical_alert_is_rejected r E). cbn [length]. lia.
  - destruct (Dashboard.determineBatchStatus _); lia.
Qed.

Lemma lotsOf_le st data : lotsOf st data <= Z.of_nat (length data).
Proof.
  pose proof (lotsOf_total data).
  pose proof (lotsOf_nonneg Dashboard.Conforme data).
  pose proof (lotsOf_nonneg Dashboard.Hallazgo data).
  pose proof (lotsOf_nonneg Dashboard.Descarte data).
  pose proof (lotsOf_nonneg Dashboard.Pendiente data).
  destruct st; lia.
Qed.

(** X22: the statistics and the summary of the dashboard agree on
    the number of the lots of a user; a critical alert of the
    statistics (more than 20 % not admitted) is a rejected lot of the
    summary (more than 15 %), so that there are at most as many; and
    three transactions are counted for each lot. *)
Theorem critical_alerts_are_rejected_lots zoneOffset userId filter st :
  let stats := getStats userId st in
  let summary := Dashboard.processData zoneOffset (fetchHistoryData userId st) filter in
  lotesActivos stats = Dashboard.completadas (Dashboard.kpis summary) /\
  transaccionesConfirmadas stats = 3 * lotesActivos stats /\
  0 <= alertasCriticas stats <= Dashboard.rechazados (Dashboard.kpis summary) /\
  Dashboard.rechazados (Dashboard.kpis summary) <= lotesActivos stats.
Proof.
  cbv zeta.
  destruct (summary_kpis zoneOffset (fetchHistoryData userId st) filter) as [-> ->].
  unfold getStats, fetchHistoryData, getHistory.
  cbn [lotesActivos transaccionesConfirmadas alertasCriticas data].
  set (h := ofUser userId (history st)).
  pose proof (sortRecentFirst_perm h) as Hp.
  rewrite length_map, <- (Permutation_length Hp).
  rewrite <- (lotsOf_perm _ _ _ (Permutation_map toHistoryRecord Hp)).
  pose proof (critical_alerts_le h).
  pose proof (lotsOf_le Dashboard.Descarte (map toHistoryRecord h)) as Hle.
  rewrite length_map in Hle. repeat split; lia.
Qed.

(** ** The events *)

Lemma insertEvent_perm e l : Permutation (e :: l) (insertEvent e l).
Proof.
  induction l as [|x l IH]; cbn; [reflexivity|].
  destruct (fecha x <=? fecha e); [reflexivity|].
  rewrite perm_swap. now apply perm_skip.
Qed.

Lemma sortEvents_perm l : Permutation l (sortEvents l).
Proof.
  induction l as [|e l IH]; cbn; [constructor|].
  rewrite <- insertEvent_perm. now apply perm_skip.
Qed.

Lemma insertEvent_sorted e l :
  StronglySorted eventsRecentFirst l -> StronglySorted eventsRecentFirst (insertEvent e l).
Proof.
  induction 1 as [|x l Hl IH Hx]; cbn.
  - repeat constructor.
  - destruct (Z.leb_spec (fecha x) (fecha e)).
    + constructor; [now constructor|].
      constructor; [assumption|].
      eapply List.Forall_impl; [|exact Hx]. unfold eventsRecentFirst. intros; lia.
    + constructor; [assumption|].
      rewrite <- (insertEvent_perm e l). constructor; [|assumption].
      unfold eventsRecentFirst. lia.
Qed.

Lemma sortEvents_sorted l : StronglySorted eventsRecentFirst (sortEvents l).
Proof.
  induction l as [|e l IH]; cbn; [constructor | now apply insertEvent_sorted].
Qed.

Lemma length_concat_imap {A B} (f : nat -> A -> list B) n l :
  (forall i x, length (f i x) = n) -> length (concat (imap f l)) = (n * length l)%nat.
Proof.
  revert f. induction l as [|a l IH]; intros f Hf; cbn [imap concat length]; [lia|].
  rewrite length_app, Hf, IH; [lia|]. intros i x. apply Hf.
Qed.

Lemma In_concat_imap {A B} (f : nat -> A -> list B) l e :
  In e (concat (imap f l)) <-> exists i x, l !! i = Some x /\ In e (f i x).
Proof.
  revert f. induction l as [|a l IH]; intros f; cbn [imap concat].
  - split; [intros [] | intros (i & x & H & _); discriminate].
  - rewrite List.in_app_iff, IH. split.
    + intros [H|(i & x & H1 & H2)].
      * exists 0%nat, a. now split.
      * exists (S i), x. now split.
    + intros ([|i] & x & H1 & H2).
      * injection H1 as ->. now left.
      * right. exists i, x. now split.
Qed.

Lemma length_traceabilityEvents hashes h :
  length (traceabilityEvents hashes h) = (3 * length h)%nat.
Proof. unfold traceabilityEvents. now apply length_concat_imap. Qed.

Lemma In_traceabilityEvents hashes h e :
  In e (traceabilityEvents hashes h) <->
  exists i record, h !! i = Some record /\ In e (eventsOf (hashes i) record).
Proof. unfold traceabilityEvents. apply In_concat_imap. Qed.

Lemma In_lookup {A} (l : list A) x : In x l -> exists i, l !! i = Some x.
Proof.
  induction l as [|a l IH]; [intros []|]. intros [->|H].
  - now exists 0%nat.
  - destruct (IH H) as [i Hi]. now exists (S i).
Qed.

(** X23: the traceability listing holds the three events of each
    lot of the user and nothing else, as many events as the
    statistics count transactions: the harvest two days before the
    upload, the reception one day before, and the upload, under the
    lot's label and confirmed; the most recent event comes first. *)
Theorem traceability_has_three_events_per_lot hashes userId st :
  let trace := getTraceability hashes userId st in
  let lots := ofUser userId (history st) in
  let label record :=
    (Unicode.text "AVO-" ++ Classifier.toUpperCase (Unicode.text (prefix 8 (id record))))%list in
  traceCount trace = Z.of_nat (length (traceData trace)) /\
  traceCount trace = transaccionesConfirmadas (getStats userId st) /\
  StronglySorted eventsRecentFirst (traceData trace) /\
  Permutation (traceabilityEvents hashes lots) (traceData trace) /\
  (forall record, In record lots ->
     forall kind, In kind [("Cosecha", 2); ("Recepción", 1); ("Carga de Datos", 0)] ->
       exists e, In e (traceData trace) /\
         evento e = fst kind /\ loteId e = label record /\
         fecha e = date record - snd kind * dayMs) /\
  (forall e, In e (traceData trace) ->
     estadoTx e = "Confirmado" /\
     exists record, In record lots /\ loteId e = label record /\
       date record - 2 * dayMs <= fecha e <= date record).
Proof.
  cbv zeta. unfold getTraceability, getStats.
  cbn [traceCount traceData transaccionesConfirmadas].
  set (h := ofUser userId (history st)).
  pose proof (sortEvents_perm (traceabilityEvents hashes h)) as Hp.
  split; [reflexivity|]. split.
  { rewrite <- (Permutation_length Hp), length_traceabilityEvents. lia. }
  split; [apply sortEvents_sorted|]. split; [exact Hp|]. split.
  - intros record Hin kind Hkind. destruct (In_lookup _ _ Hin) as [i Hi].
    assert (forall e, In e (eventsOf (hashes i) record) ->
                      In e (sortEvents (traceabilityEvents hashes h))) as Hall.
    { intros e He. apply (Permutation_in _ Hp), In_traceabilityEvents. eauto. }
    cbn [In] in Hkind. destruct Hkind as [<-|[<-|[<-|[]]]];
      eexists; (split; [apply Hall|]).
    1: left; reflexivity. 1: cbn; repeat split; lia.
    1: right; left; reflexivity. 1: cbn; repeat split; lia.
    1: right; right; left; reflexivity. cbn; repeat split; lia.
  - intros e He. apply (Permutation_in _ (Permutation_sym Hp)) in He.
    apply In_traceabilityEvents in He as (i & record & Hi & He).
    cbn [eventsOf In] in He.
    assert (In record h) as Hin by now apply lookup_In with i.
    destruct He as [<-|[<-|[<-|[]]]]; cbn [estadoTx loteId fecha];
      (split; [reflexivity|]); exists record; unfold dayMs;
      (split; [exact Hin | split; [reflexivity | lia]]).
Qed.

(** ** The order of the listing and the trend *)

Lemma sortByDate_insertRecent r l :
  Dashboard.sortByDate (map toHistoryRecord (insertRecent r l)) =
  Dashboard.insertByDate (toHistoryRecord r) (Dashboard.sortByDate (map toHistoryRecord l)).
Proof.
  induction l as [|x l IH]; cbn [insertRecent]; [reflexivity|].
  destruct (Z.leb_spec (date x) (date r)); [reflexivity|].
  cbn [map Dashboard.sortByDate fold_right]. fold (Dashboard.sortByDate (map toHistoryRecord (insertRecent r l))).
  rewrite IH. fold (Dashboard.sortByDate (map toHistoryRecord l)).
  apply insertByDate_comm. cbn. lia.
Qed.

Lemma sortByDate_sortRecentFirst l :
  Dashboard.sortByDate (map toHistoryRecord (sortRecentFirst l)) =
  Dashboard.sortByDate (map toHistoryRecord l).
Proof.
  induction l as [|r l IH]; [reflexivity|].
  cbn [sortRecentFirst fold_right]. fold (sortRecentFirst l).
  rewrite sortByDate_insertRecent, IH. reflexivity.
Qed.

(** X24: the charts of the dashboard do not depend on the order in
    which the server lists the lots: the trend and the breakdown of
    the listing, which has the most recent lot first, are those of
    the lots in the order of the history file. *)
Theorem charts_ignore_listing_order zoneOffset userId filter st :
  let listed := fetchHistoryData userId st in
  let stored := map toHistoryRecord (ofUser userId (history st)) in
  Dashboard.charts (Dashboard.processData zoneOffset listed filter) =
  Dashboard.charts (Dashboard.processData zoneOffset stored filter).
Proof.
  cbv zeta. unfold fetchHistoryData, getHistory. cbn [data].
  set (h := ofUser userId (history st)).
  pose proof (Permutation_map toHistoryRecord (sortRecentFirst_perm h)) as Hp.
  destruct h as [|r h].
  { reflexivity. }
  set (l := r :: h) in *.
  assert (map toHistoryRecord l <> []) as H1 by discriminate.
  assert (map toHistoryRecord (sortRecentFirst l) <> []) as H2.
  { intros E. rewrite E in Hp. apply Permutation_sym, Permutation_nil in Hp. contradiction. }
  clearbody l.
  rewrite (processData_nonempty _ _ _ H1), (processData_nonempty _ _ _ H2). cbv zeta.
  cbn [Dashboard.charts]. unfold Dashboard.trendMapSorted.
  rewrite sortByDate_sortRecentFirst.
  destruct (totals_fold (map toHistoryRecord l)
              (Dashboard.mkTotals 0 0 (Dashboard.mkStatusCounts 0 0 0 0)))
    as (_ & -> & -> & -> & _).
  destruct (totals_fold (map toHistoryRecord (sortRecentFirst l))
              (Dashboard.mkTotals 0 0 (Dashboard.mkStatusCounts 0 0 0 0)))
    as (_ & -> & -> & -> & _).
  now rewrite !(lotsOf_perm _ _ _ Hp).
Qed.

(** ** The histories the server makes *)

Lemma orElse_nonempty x d : d <> "" -> orElse x d <> "".
Proof.
  intros Hd. unfold orElse. destruct x as [s|]; [|assumption].
  destruct (String.eqb_spec s ""); assumption.
Qed.

Lemma Forall_splice1 {A} (P : A -> Prop) i l :
  List.Forall P l -> List.Forall P (splice1 i l).
Proof.
  intros H. unfold splice1. apply List.Forall_app. split.
  - rewrite List.Forall_forall in *. intros x Hx. apply H.
    apply list_elem_of_In in Hx. apply list_elem_of_In.
    now apply (subseteq_take i l).
  - rewrite List.Forall_forall in *. intros x Hx. apply H.
    apply list_elem_of_In in Hx. apply list_elem_of_In.
    now apply (subseteq_drop (S i) l).
Qed.

Lemma Forall_list_insert {A} (P : A -> Prop) i x l :
  List.Forall P l -> P x -> List.Forall P (<[i := x]> l).
Proof.
  intros H Hx. revert i. induction H as [|a l Ha Hl IH]; intros [|i]; cbn;
    constructor; auto.
Qed.

Lemma handle_uploaded st r :
  List.Forall uploaded (history st) -> List.Forall uploaded (history (handle st r)).
Proof.
  intros H. destruct r as [io file userId | io recordId | io lote_ result]; cbn [handle].
  - unfold upload. destruct file as [f|]; [|assumption].
    unfold saveHistory. cbn [history files].
    destruct (writable io); cbn [snd history]; [|assumption].
    apply List.Forall_app. split; [assumption|]. constructor; [|constructor].
    split; [now eexists | apply orElse_nonempty; discriminate].
  - unfold deleteHistory.
    destruct (Classifier.findIndex _ _) as [i|]; [|assumption].
    destruct (history st !! i) as [x|]; [|assumption].
    unfold saveHistory. cbn [snd].
    destruct (writable io); cbn [fst history].
    + now apply Forall_splice1.
    + now destruct (_ && _).
  - unfold updateSimulation.
    destruct (_ || _); [assumption|].
    destruct (Classifier.findIndex _ _) as [i|]; [|assumption].
    destruct (history st !! i) as [x|] eqn:Hx; [|assumption].
    unfold saveHistory. destruct (writable io); cbn [snd history]; [|assumption].
    apply Forall_list_insert; [assumption|].
    rewrite List.Forall_forall in H. apply (H x). now apply lookup_In with i.
Qed.

Lemma serve_uploaded requests : forall st,
  List.Forall uploaded (history st) ->
  List.Forall uploaded (history (serve requests st)).
Proof.
  induction requests as [|r requests IH]; intros st H; [assumption|].
  apply IH. now apply handle_uploaded.
Qed.

Lemma fetch_of_uploaded userId st :
  List.Forall uploaded (history st) ->
  List.Forall (fun r => Dashboard.determineBatchStatus r <> Dashboard.Pendiente /\
                        isPercentage (Dashboard.conformityOf r))
              (fetchHistoryData userId st).
Proof.
  intros H. unfold fetchHistoryData. apply List.Forall_map, List.Forall_forall.
  intros r Hr.
  apply In_getHistory in Hr as [Hr _].
  rewrite List.Forall_forall in H. destruct (H r Hr) as [[file E] _].
  unfold Dashboard.determineBatchStatus, Dashboard.conformityOf.
  cbn [toHistoryRecord Dashboard.calidadFruta]. rewrite E. split.
  - destruct (gt _ 15); [discriminate|]. destruct (_ || _); discriminate.
  - apply conformity_range.
Qed.

Lemma lotsOf_Pendiente_none data :
  List.Forall (fun r => Dashboard.determineBatchStatus r <> Dashboard.Pendiente) data ->
  lotsOf Dashboard.Pendiente data = 0.
Proof.
  induction 1 as [|r data Hr _ IH]; [reflexivity|].
  rewrite lotsOf_cons, IH.
  destruct (Dashboard.determineBatchStatus r) eqn:E; try reflexivity. contradiction.
Qed.

(** X25: whatever the requests served from an empty history, every
    record has the quality of a file and a user, so that the
    dashboard finds no pending lot: the counts of its breakdown add
    up to the number of the lots; and its average conformity and the
    values of its trend lie between 0.0 and 100.0. *)
Theorem served_history_is_classified requests zoneOffset userId filter :
  let st := serve requests emptyStore in
  let listed := fetchHistoryData userId st in
  let summary := Dashboard.processData zoneOffset listed filter in
  List.Forall uploaded (history st) /\
  lotsOf Dashboard.Pendiente listed = 0 /\
  fold_right Z.add 0 (Dashboard.breakdownData (Dashboard.breakdown (Dashboard.charts summary)))
    = Dashboard.completadas (Dashboard.kpis summary) /\
  (100 * Z.of_nat (length (history st)) < 2 ^ 53 ->
   shownConformity (Dashboard.conformidad (Dashboard.kpis summary)) /\
   List.Forall isTenths (Dashboard.trendData (Dashboard.trend (Dashboard.charts summary)))).
Proof.
  cbv zeta.
  assert (List.Forall uploaded (history (serve requests emptyStore))) as Hu
    by (apply serve_uploaded; constructor).
  set (st := serve requests emptyStore) in *. clearbody st.
  pose proof (fetch_of_uploaded userId st Hu) as Hf.
  assert (lotsOf Dashboard.Pendiente (fetchHistoryData userId st) = 0) as Hp.
  { apply lotsOf_Pendiente_none. eapply List.Forall_impl; [|exact Hf]. now intros r []. }
  split; [assumption|]. split; [assumption|]. split.
  - destruct (summary_kpis zoneOffset (fetchHistoryData userId st) filter) as [_ ->].
    destruct (fetchHistoryData userId st) as [|r l] eqn:E; [reflexivity|].
    destruct (breakdown_of_nonempty zoneOffset (r :: l) filter) as [-> _]; [discriminate|].
    pose proof (lotsOf_total (r :: l)). cbn [fold_right]. lia.
  - intros Hn.
    assert (List.Forall (fun r => isPercentage (Dashboard.conformityOf r))
              (fetchHistoryData userId st)) as Hc.
    { eapply List.Forall_impl; [|exact Hf]. now intros r []. }
    assert (100 * Z.of_nat (length (fetchHistoryData userId st)) < 2 ^ 53) as Hlen.
    { unfold fetchHistoryData, getHistory. cbn [data]. rewrite length_map.
      rewrite <- (Permutation_length (sortRecentFirst_perm _)).
      assert (length (ofUser userId (history st)) <= length (history st))%nat; [|lia].
      unfold ofUser. destruct (truthy userId); [apply List.filter_length_le | lia]. }
    split; [now apply conformidad_range | now apply trendData_range].
Qed.

End ServerFacts.

(** * Properties of the analysis *)

Module AnalysisFacts.

Import Float FloatTheory FloatFacts Analysis.
Local Open Scope string_scope.
Local Open Scope Z_scope.

(** ** Comparisons *)

Lemma ge_spec x y : ge x y = true <-> (y <= x)%Q.
Proof. unfold ge. apply Qle_bool_iff. Qed.

Lemma ge_false x y : ge x y = false <-> (x < y)%Q.
Proof.
  rewrite <- not_true_iff_false, ge_spec. split.
  - apply Qnot_le_lt.
  - intros H1 H2. apply (Qlt_irrefl x). eapply Qlt_le_trans; eassumption.
Qed.

Lemma gt_false x y : gt x y = false <-> (x <= y)%Q.
Proof. unfold gt. rewrite negb_false_iff. apply Qle_bool_iff. Qed.

(** ** What is shown of a score *)

(** The number read back from the text of a score is not below a
    whole bound the score is not below. *)
Lemma shown_ge q T :
  0 <= T < 2 ^ 53 -> (inject_Z T <= q)%Q -> (inject_Z T <= parseFixed 1 (toFixed 1 q))%Q.
Proof.
  intros HT Hq. apply parseFixed_ge; [assumption|].
  apply toFixed_ge; [lia|]. rewrite inject_Z_mult.
  change (inject_Z (10 ^ Z.of_nat 1)) with 10%Q. lra.
Qed.

Lemma shown_le q T :
  0 <= T < 2 ^ 53 -> (q <= inject_Z T)%Q -> (parseFixed 1 (toFixed 1 q) <= inject_Z T)%Q.
Proof.
  intros HT Hq. apply parseFixed_le; [assumption|].
  apply toFixed_le; [lia|]. rewrite inject_Z_mult.
  change (inject_Z (10 ^ Z.of_nat 1)) with 10%Q. lra.
Qed.

Lemma classify_rank q :
  rank (fst (classify q)) =
  if ge q 95 then 4 else if ge q 85 then 3 else if ge q 70 then 2
  else if ge q 50 then 1 else 0.
Proof. unfold classify. repeat destruct (ge q _); reflexivity. Qed.

Lemma classification_analyzeQuality batch :
  classification (analyzeQuality batch) =
  fst (classify (pct (from_option Classifier.conformes 0 (Dashboard.calidadFruta batch))
                     (from_option Classifier.total 0 (Dashboard.calidadFruta batch)))).
Proof. unfold analyzeQuality. now destruct (classify _). Qed.

Lemma qualityScore_analyzeQuality batch :
  qualityScore (analyzeQuality batch) =
  toFixed 1 (pct (from_option Classifier.conformes 0 (Dashboard.calidadFruta batch))
                 (from_option Classifier.total 0 (Dashboard.calidadFruta batch))).
Proof. unfold analyzeQuality. now destruct (classify _). Qed.

Lemma noAdmitidasPct_analyzeQuality batch :
  noAdmitidasPct (analyzeQuality batch) =
  toFixed 1 (pct (from_option Classifier.noAdmitidas 0 (Dashboard.calidadFruta batch))
                 (from_option Classifier.total 0 (Dashboard.calidadFruta batch))).
Proof. unfold analyzeQuality. now destruct (classify _). Qed.

Lemma rank_shown q : rank (fst (classify q)) <= rank (fst (classify (parseFixed 1 (toFixed 1 q)))).
Proof.
  rewrite !classify_rank.
  assert (forall T, 0 <= T < 2 ^ 53 -> ge q (inject_Z T) = true ->
                    ge (parseFixed 1 (toFixed 1 q)) (inject_Z T) = true) as H.
  { intros T HT Hq. apply ge_spec. apply shown_ge; [assumption|]. now apply ge_spec. }
  pose proof (H 95 ltac:(lia)) as H95. pose proof (H 85 ltac:(lia)) as H85.
  pose proof (H 70 ltac:(lia)) as H70. pose proof (H 50 ltac:(lia)) as H50.
  change (inject_Z 95) with 95%Q in *. change (inject_Z 85) with 85%Q in *.
  change (inject_Z 70) with 70%Q in *. change (inject_Z 50) with 50%Q in *.
  destruct (ge q 95); [rewrite H95 by reflexivity; lia|].
  destruct (ge q 85); [rewrite H85 by reflexivity; destruct (ge _ 95); lia|].
  destruct (ge q 70);
    [rewrite H70 by reflexivity; destruct (ge _ 95), (ge _ 85); lia|].
  destruct (ge q 50);
    [rewrite H50 by reflexivity; destruct (ge _ 95), (ge _ 85), (ge _ 70); lia|].
  destruct (ge _ 95), (ge _ 85), (ge _ 70), (ge _ 50); lia.
Qed.

(** X26: the shelf life reads the quality score back from its
    text, rounded to one decimal, while the class is given to the
    score itself: the class the shelf life reckons with is never
    below the class of the lot, and it can be above it: a lot of
    10000 fruits, 9496 of them conformant, is EXCELENTE and is given
    the shelf life of a PREMIUM lot. *)
Theorem rounded_score_is_never_a_lower_class :
  (forall batch,
     let analysis := analyzeQuality batch in
     rank (classification analysis)
     <= rank (fst (classify (parseFixed 1 (qualityScore analysis))))) /\
  (exists batch,
     let analysis := analyzeQuality batch in
     classification analysis = EXCELENTE /\
     fst (classify (parseFixed 1 (qualityScore analysis))) = PREMIUM /\
     forall zoneOffset today, days (predictShelfLife zoneOffset today batch) = 21).
Proof.
  split.
  - intros batch. cbv zeta.
    rewrite classification_analyzeQuality, qualityScore_analyzeQuality.
    apply rank_shown.
  - exists (Dashboard.mkHistoryRecord "lote.csv" 0 "user-1" None
              (Some (Classifier.mkCalidadFruta 10000 9496 504 0 0 (9496 # 100) (504 # 100) []))).
    cbv zeta. split; [vm_compute; reflexivity|]. split; [vm_compute; reflexivity|].
    intros zoneOffset today. vm_compute. reflexivity.
Qed.

(** ** The percentages of the analysis *)

Lemma pct_error c t :
  0 <= c -> 0 < t ->
  (100 * (inject_Z c / inject_Z t) * (1 - u) * (1 - u) <= pct c t /\
   pct c t <= 100 * (inject_Z c / inject_Z t) * (1 + u) * (1 + u))%Q.
Proof.
  intros Hc Ht. unfold pct. destruct (Z.ltb_spec 0 t); [|lia].
  unfold fmul, fdiv.
  assert (0 <= inject_Z c / inject_Z t)%Q as Hx.
  { apply Qle_shift_div_l; [now rewrite <- (Zlt_Qlt 0)|].
    rewrite Qmult_0_l, <- (Zle_Qle 0). lia. }
  pose proof (RN_error _ Hx) as [Hr0 Hr1]. pose proof (RN_nonneg _ Hx) as Hr.
  set (x := (inject_Z c / inject_Z t)%Q) in *. clearbody x.
  set (r := RN x) in *. clearbody r.
  assert (0 <= r * 100)%Q as Hy by lra.
  pose proof (RN_error _ Hy) as [Hp0 Hp1].
  set (p := RN (r * 100)) in *. clearbody p.
  unfold u in *. change (2 ^ 53)%positive with 9007199254740992%positive in *.
  split; lra.
Qed.

Lemma pct_range c t : 0 <= c <= t -> (0 <= pct c t /\ pct c t <= 100)%Q.
Proof.
  intros Hc. unfold pct. destruct (Z.ltb_spec 0 t) as [Ht|Ht]; [|split; easy].
  assert (0 < inject_Z t)%Q as HtQ by (now rewrite <- (Zlt_Qlt 0)).
  assert (0 <= inject_Z c / inject_Z t /\ inject_Z c / inject_Z t <= 1)%Q as [H0 H1].
  { split.
    - apply Qle_shift_div_l; [assumption|]. rewrite Qmult_0_l, <- (Zle_Qle 0). lia.
    - apply Qle_shift_div_r; [assumption|]. rewrite Qmult_1_l, <- Zle_Qle. lia. }
  unfold fmul, fdiv.
  pose proof (RN_nonneg _ H0) as Hr0.
  pose proof (RN_le_int _ 1 ltac:(lia) H1) as Hr1. change (inject_Z 1) with 1%Q in Hr1.
  set (r := RN (inject_Z c / inject_Z t)) in *. clearbody r.
  split; [apply RN_nonneg; lra | apply (RN_le_int _ 100); [lia|]].
  change (inject_Z 100) with 100%Q. lra.
Qed.

Lemma ratio_sum a b t :
  0 <= a -> 0 <= b -> 0 < t -> a + b <= t ->
  (inject_Z a / inject_Z t + inject_Z b / inject_Z t <= 1)%Q.
Proof.
  intros Ha Hb Ht Hs.
  assert (0 < inject_Z t)%Q as HtQ by (now rewrite <- (Zlt_Qlt 0)).
  assert (inject_Z a / inject_Z t + inject_Z b / inject_Z t
          == inject_Z (a + b) / inject_Z t)%Q as E
    by (rewrite inject_Z_plus; field; lra).
  rewrite E. apply Qle_shift_div_r; [assumption|]. rewrite Qmult_1_l, <- Zle_Qle. lia.
Qed.

(** The text of a number just above a whole one is that of the
    whole number. *)
Lemma toFixed_below f x M :
  0 <= M -> (x * inject_Z (10 ^ Z.of_nat f) < inject_Z M + (1 # 2))%Q -> toFixed f x <= M.
Proof.
  intros HM H. unfold toFixed.
  assert (0 < 10 ^ Z.of_nat f) as HP by (apply Z.pow_pos_nonneg; lia).
  rewrite Zlt_Qlt in HP. change (inject_Z 0) with 0%Q in HP.
  destruct (Qle_bool 0 x) eqn:E0.
  - pose proof (toFixedPos_bounds f x) as [Hlo _].
    assert (inject_Z (toFixedPos f x) < inject_Z (M + 1))%Q as Hlt.
    { rewrite inject_Z_plus. change (inject_Z 1) with 1%Q. lra. }
    rewrite <- Zlt_Qlt in Hlt. lia.
  - assert (~ 0 <= x)%Q as Hneg by (rewrite <- Qle_bool_iff, E0; discriminate).
    pose proof (toFixedPos_bounds f (- x)) as [_ Hhi].
    assert (0 <= - x * inject_Z (10 ^ Z.of_nat f))%Q.
    { apply Qmult_le_0_compat; lra. }
    assert (inject_Z (-1) < inject_Z (toFixedPos f (- x)))%Q as Hlt.
    { change (inject_Z (-1)) with (-1)%Q. lra. }
    rewrite <- Zlt_Qlt in Hlt. lia.
Qed.

Section Today.

Variable zoneOffset : Z -> Z.
Variable today : Z.

Lemma predictShelfLife_eq batch :
  predictShelfLife zoneOffset today batch =
  let shown := parseFixed 1 (qualityScore (analyzeQuality batch)) in
  let d := adjustForDefects (parseFixed 1 (noAdmitidasPct (analyzeQuality batch)))
             (daysOfScore shown) in
  mkShelfLife d (Dashboard.calendarDay zoneOffset (today + d * 24 * 60 * 60 * 1000))
    (urgencyOf d) (if ge shown 70 then "Alta" else "Media").
Proof. reflexivity. Qed.

(** X27: a PREMIUM lot whose counts are those of a partition of its
    fruits has at most 5.0 % of fruits not admitted, so that nothing
    is taken off its shelf life: it is predicted 21 days, without
    urgency and with a high confidence. *)
Theorem premium_lot_keeps_three_weeks batch q :
  Dashboard.calidadFruta batch = Some q -> consistent q ->
  classification (analyzeQuality batch) = PREMIUM ->
  noAdmitidasPct (analyzeQuality batch) <= 50 /\
  days (predictShelfLife zoneOffset today batch) = 21 /\
  urgency (predictShelfLife zoneOffset today batch) = normal /\
  confidence (predictShelfLife zoneOffset today batch) = "Alta".
Proof.
  intros Eq (Hc & Hh & Hn & Hsum & Hbig) Hclass.
  rewrite classification_analyzeQuality, Eq in Hclass. cbn [from_option] in Hclass.
  assert (ge (pct (Classifier.conformes q) (Classifier.total q)) 95 = true) as H95.
  { unfold classify in Hclass. repeat destruct (ge _ _); (reflexivity || discriminate). }
  apply ge_spec in H95.
  assert (0 < Classifier.total q) as Ht.
  { destruct (Z.ltb_spec 0 (Classifier.total q)) as [|Hle]; [assumption|exfalso].
    unfold pct in H95. destruct (Z.ltb_spec 0 (Classifier.total q)); [lia|].
    apply (Qlt_irrefl 0). eapply Qlt_le_trans; [|exact H95]. reflexivity. }
  pose proof (pct_error _ _ Hc Ht) as [_ Hup].
  pose proof (pct_error _ _ Hn Ht) as [_ Hnup].
  pose proof (pct_range (Classifier.noAdmitidas q) (Classifier.total q) ltac:(lia)) as [Hn0 _].
  pose proof (ratio_sum _ _ _ Hc Hn Ht ltac:(lia)) as Hxy.
  assert (0 <= inject_Z (Classifier.noAdmitidas q) / inject_Z (Classifier.total q))%Q as Hy0.
  { apply Qle_shift_div_l; [now rewrite <- (Zlt_Qlt 0)|].
    rewrite Qmult_0_l, <- (Zle_Qle 0). lia. }
  set (x := (inject_Z (Classifier.conformes q) / inject_Z (Classifier.total q))%Q) in *.
  set (y := (inject_Z (Classifier.noAdmitidas q) / inject_Z (Classifier.total q))%Q) in *.
  set (pc := pct (Classifier.conformes q) (Classifier.total q)) in *.
  set (pn := pct (Classifier.noAdmitidas q) (Classifier.total q)) in *.
  assert (noAdmitidasPct (analyzeQuality batch) <= 50) as Hshown.
  { rewrite noAdmitidasPct_analyzeQuality, Eq. cbn [from_option]. fold pn.
    apply toFixed_below; [lia|].
    change (inject_Z (10 ^ Z.of_nat 1)) with 10%Q. change (inject_Z 50) with 50%Q.
    clearbody x y pc pn.
    unfold u in *. change (2 ^ 53)%positive with 9007199254740992%positive in *. lra. }
  assert (95 <= parseFixed 1 (qualityScore (analyzeQuality batch)))%Q as Hq.
  { rewrite qualityScore_analyzeQuality, Eq. cbn [from_option]. fold pc.
    apply (shown_ge pc 95); [lia | exact H95]. }
  assert (parseFixed 1 (noAdmitidasPct (analyzeQuality batch)) <= 5)%Q as Hna.
  { apply (parseFixed_le 1 _ 5); [lia|]. exact Hshown. }
  split; [exact Hshown|].
  rewrite predictShelfLife_eq. cbv zeta. cbn [days urgency confidence].
  set (shown := parseFixed 1 (qualityScore (analyzeQuality batch))) in *.
  set (na := parseFixed 1 (noAdmitidasPct (analyzeQuality batch))) in *.
  assert (daysOfScore shown = 21) as ->.
  { unfold daysOfScore. now rewrite (proj2 (ge_spec shown 95) Hq). }
  assert (adjustForDefects na 21 = 21) as ->.
  { unfold adjustForDefects.
    rewrite (proj2 (gt_false na 10)) by lra. now rewrite (proj2 (gt_false na 5)) by lra. }
  assert (ge shown 70 = true) as -> by (apply ge_spec; lra).
  repeat split.
Qed.

Lemma daysOfScore_values q : In (daysOfScore q) [21; 14; 10; 5; 2].
Proof. unfold daysOfScore. repeat destruct (ge q _); cbn; auto 10. Qed.

(** X28: the shelf life lies between 2 and 21 days and is critical
    exactly up to 3 days; the fruits not admitted never lengthen the
    shelf life of a lot whose rounded score is at least 50, but a lot
    below 50, of 2 days, is given 3 days when between 5 and 10 % of
    its fruits are not admitted. *)
Theorem defects_shorten_shelf_life_except_for_the_worst :
  (forall batch,
     let prediction := predictShelfLife zoneOffset today batch in
     let base := daysOfScore (parseFixed 1 (qualityScore (analyzeQuality batch))) in
     2 <= days prediction <= 21 /\
     (3 <= base -> days prediction <= base) /\
     (base = 2 -> days prediction = 2 \/ days prediction = 3) /\
     (urgency prediction = critical <-> days prediction <= 3) /\
     (confidence prediction = "Media" -> days prediction <= 5)) /\
  (exists batch,
     daysOfScore (parseFixed 1 (qualityScore (analyzeQuality batch))) = 2 /\
     noAdmitidasPct (analyzeQuality batch) = 60 /\
     days (predictShelfLife zoneOffset today batch) = 3).
Proof.
  split.
  - intros batch. rewrite predictShelfLife_eq. cbv zeta.
    cbn [days urgency confidence].
    set (shown := parseFixed 1 (qualityScore (analyzeQuality batch))).
    set (na := parseFixed 1 (noAdmitidasPct (analyzeQuality batch))).
    pose proof (daysOfScore_values shown) as Hd.
    assert (ge shown 70 = false -> daysOfScore shown <= 5) as Hmedia.
    { intros H70. apply ge_false in H70. unfold daysOfScore.
      rewrite (proj2 (ge_false shown 95)) by lra.
      rewrite (proj2 (ge_false shown 85)) by lra.
      rewrite (proj2 (ge_false shown 70)) by lra.
      destruct (ge shown 50); lia. }
    set (d := daysOfScore shown) in *. clearbody d.
    destruct (ge shown 70); [clear Hmedia | specialize (Hmedia eq_refl)].
    all: unfold adjustForDefects, urgencyOf;
      destruct (gt na 10), (gt na 5);
      cbn in Hd; destruct Hd as [<-|[<-|[<-|[<-|[<-|[]]]]]]; cbn;
      repeat split; try lia; try discriminate; try (intros; lia);
      try (left; reflexivity); try (right; reflexivity).
  - exists (Dashboard.mkHistoryRecord "lote.csv" 0 "user-1" None
              (Some (Classifier.mkCalidadFruta 100 40 54 6 6 40 54 []))).
    vm_compute. repeat split.
Qed.

(** X29: a record without quality data, or of no fruit, is analysed
    without a division: its scores are 0.0, it is RECHAZADO, and its
    shelf life is 2 days, critical, with a medium confidence. *)
Theorem lot_without_fruits_is_rejected batch :
  from_option Classifier.total 0 (Dashboard.calidadFruta batch) <= 0 ->
  let analysis := analyzeQuality batch in
  let prediction := predictShelfLife zoneOffset today batch in
  (qualityScore analysis, riskScore analysis) = (0, 0) /\
  (conformesPct analysis, hallazgosPct analysis, noAdmitidasPct analysis) = (0, 0, 0) /\
  (classification analysis, classColor analysis) = (RECHAZADO, "red") /\
  (days prediction, urgency prediction, confidence prediction) = (2, critical, "Media").
Proof.
  intros Ht. cbv zeta. rewrite predictShelfLife_eq. cbv zeta.
  cbn [days urgency confidence].
  unfold analyzeQuality, pct.
  destruct (Z.ltb_spec 0 (from_option Classifier.total 0 (Dashboard.calidadFruta batch)));
    [lia|].
  vm_compute. repeat split.
Qed.

End Today.

Lemma premium_lot_keeps_three_weeks_witness :
  days (predictShelfLife Scenario.utc Scenario.nov5_2025
          (Scenario.lot Scenario.nov5_2024 10)) = 21.
Proof.
  destruct (premium_lot_keeps_three_weeks Scenario.utc Scenario.nov5_2025
              (Scenario.lot Scenario.nov5_2024 10)
              (Classifier.calidadFruta (Some (Scenario.csvOf 10 (10 - 10)))))
    as (_ & H & _).
  - reflexivity.
  - vm_compute. repeat split; discriminate.
  - vm_compute. reflexivity.
  - exact H.
Defined.

Lemma lot_without_fruits_is_rejected_witness :
  classification (analyzeQuality
    (Dashboard.mkHistoryRecord "lote.csv" Scenario.nov5_2024 "user-1" None None))
  = RECHAZADO.
Proof.
  destruct (lot_without_fruits_is_rejected Scenario.utc Scenario.nov5_2025
              (Dashboard.mkHistoryRecord "lote.csv" Scenario.nov5_2024 "user-1" None None))
    as (_ & _ & H & _).
  - cbn. lia.
  - exact (f_equal fst H).
Defined.

(** ** The range of the scores *)

Lemma riskScore_analyzeQuality batch :
  riskScore (analyzeQuality batch) =
  let total := from_option Classifier.total 0 (Dashboard.calidadFruta batch) in
  toFixed 1
    (fadd (fmul (pct (from_option Classifier.hallazgosMenores 0 (Dashboard.calidadFruta batch))
                     total) (1 # 2))
          (fmul (pct (from_option Classifier.noAdmitidas 0 (Dashboard.calidadFruta batch))
                     total) 2)).
Proof. unfold analyzeQuality. now destruct (classify _). Qed.

(** X30: for a record whose counts are those of a partition of its
    fruits, the quality score lies between 0.0 and 100.0 and the
    risk score between 0.0 and 200.0, a bound it reaches: it is 200.0
    when no fruit is admitted. *)
Theorem scores_are_within_range batch q :
  Dashboard.calidadFruta batch = Some q -> consistent q -> 0 < Classifier.total q ->
  0 <= qualityScore (analyzeQuality batch) <= 1000 /\
  0 <= riskScore (analyzeQuality batch) <= 2000 /\
  (Classifier.noAdmitidas q = Classifier.total q ->
   riskScore (analyzeQuality batch) = 2000).
Proof.
  intros Eq (Hc & Hh & Hn & Hsum & Hbig) Ht.
  rewrite qualityScore_analyzeQuality, riskScore_analyzeQuality, Eq.
  cbv zeta. cbn [from_option].
  pose proof (pct_range (Classifier.conformes q) (Classifier.total q) ltac:(lia)) as [Hc0 Hc1].
  pose proof (pct_range (Classifier.hallazgosMenores q) (Classifier.total q) ltac:(lia))
    as [Hh0 _].
  pose proof (pct_range (Classifier.noAdmitidas q) (Classifier.total q) ltac:(lia))
    as [Hn0 _].
  pose proof (pct_error _ _ Hh Ht) as [_ Hh1].
  pose proof (pct_error _ _ Hn Ht) as [_ Hn1].
  pose proof (ratio_sum _ _ _ Hh Hn Ht ltac:(lia)) as Hxy.
  assert (0 <= inject_Z (Classifier.hallazgosMenores q) / inject_Z (Classifier.total q))%Q
    as Hx0.
  { apply Qle_shift_div_l; [now rewrite <- (Zlt_Qlt 0)|].
    rewrite Qmult_0_l, <- (Zle_Qle 0). lia. }
  assert (0 <= inject_Z (Classifier.noAdmitidas q) / inject_Z (Classifier.total q))%Q
    as Hy0.
  { apply Qle_shift_div_l; [now rewrite <- (Zlt_Qlt 0)|].
    rewrite Qmult_0_l, <- (Zle_Qle 0). lia. }
  set (x := (inject_Z (Classifier.hallazgosMenores q) / inject_Z (Classifier.total q))%Q) in *.
  set (y := (inject_Z (Classifier.noAdmitidas q) / inject_Z (Classifier.total q))%Q) in *.
  set (pc := pct (Classifier.conformes q) (Classifier.total q)) in *.
  set (ph := pct (Classifier.hallazgosMenores q) (Classifier.total q)) in *.
  assert (pct (Classifier.noAdmitidas q) (Classifier.total q) =
          pct (Classifier.noAdmitidas q) (Classifier.total q)) as Epn by reflexivity.
  set (pn := pct (Classifier.noAdmitidas q) (Classifier.total q)) in Hn0, Hn1, Epn at 1 |- *.
  unfold fadd, fmul.
  assert (0 <= ph * (1 # 2))%Q as Ha0 by lra.
  assert (0 <= pn * 2)%Q as Hb0 by lra.
  pose proof (RN_error _ Ha0) as [_ Ha1]. pose proof (RN_nonneg _ Ha0) as Ha.
  pose proof (RN_error _ Hb0) as [_ Hb1]. pose proof (RN_nonneg _ Hb0) as Hb.
  set (a := RN (ph * (1 # 2))) in *. set (b := RN (pn * 2)) in *.
  assert (0 <= a + b)%Q as Hs0 by lra.
  pose proof (RN_error _ Hs0) as [_ Hs1]. pose proof (RN_nonneg _ Hs0) as Hs.
  set (r := RN (a + b)) in *.
  split; [|split].
  - split.
    + apply toFixed_ge; [lia|]. change (inject_Z (10 ^ Z.of_nat 1)) with 10%Q.
      change (inject_Z 0) with 0%Q. lra.
    + apply toFixed_le; [lia|]. change (inject_Z (10 ^ Z.of_nat 1)) with 10%Q.
      change (inject_Z 1000) with 1000%Q. lra.
  - split.
    + apply toFixed_ge; [lia|]. change (inject_Z (10 ^ Z.of_nat 1)) with 10%Q.
      change (inject_Z 0) with 0%Q. lra.
    + apply toFixed_below; [lia|]. change (inject_Z (10 ^ Z.of_nat 1)) with 10%Q.
      change (inject_Z 2000) with 2000%Q.
      clearbody x y pc ph pn a b r.
      unfold u in *. change (2 ^ 53)%positive with 9007199254740992%positive in *. lra.
  - intros Hall.
    assert (Classifier.hallazgosMenores q = 0) as Eh by lia.
    assert (ph == 0)%Q as Eph.
    { subst ph. rewrite Eh. unfold pct. destruct (0 <? _); [|reflexivity].
      unfold fmul, fdiv.
      assert (RN (inject_Z 0 / inject_Z (Classifier.total q)) == 0)%Q as E1.
      { apply (RN_int _ 0); [lia|]. unfold Qdiv. now rewrite Qmult_0_l. }
      apply (RN_int _ 0); [lia|]. rewrite E1. reflexivity. }
    assert (pn == 100)%Q as Epn'.
    { rewrite Epn, Hall. unfold pct. destruct (Z.ltb_spec 0 (Classifier.total q)); [|lia].
      unfold fmul, fdiv.
      assert (RN (inject_Z (Classifier.total q) / inject_Z (Classifier.total q)) == 1)%Q as E1.
      { apply (RN_int _ 1); [lia|]. field.
        assert (0 < inject_Z (Classifier.total q))%Q by (now rewrite <- (Zlt_Qlt 0)). lra. }
      apply (RN_int _ 100); [lia|]. rewrite E1. reflexivity. }
    assert (a == 0)%Q as Ea.
    { subst a. apply (RN_int _ 0); [lia|]. rewrite Eph. reflexivity. }
    assert (b == 200)%Q as Eb.
    { subst b. apply (RN_int _ 200); [lia|]. rewrite Epn'. reflexivity. }
    assert (r == 200)%Q as Er.
    { subst r. apply (RN_int _ 200); [lia|]. rewrite Ea, Eb. reflexivity. }
    apply Z.le_antisymm; [apply toFixed_le | apply toFixed_ge]; try lia;
      rewrite Er; apply Qle_refl.
Qed.

Lemma scores_are_within_range_witness :
  0 <= riskScore (analyzeQuality (Scenario.lot Scenario.nov5_2024 8)) <= 2000.
Proof.
  destruct (scores_are_within_range (Scenario.lot Scenario.nov5_2024 8)
              (Classifier.calidadFruta (Some (Scenario.csvOf 8 (10 - 8)))))
    as (_ & H & _).
  - reflexivity.
  - vm_compute. repeat split; discriminate.
  - vm_compute. reflexivity.
  - exact H.
Defined.

End AnalysisFacts.
